(** * sdm-core: the goal-execution core, embedded and verified

    A shallow embedding of the goal-execution steps of sdm-core
    (LocalBuilder, executeDockerBuild, executeFingerprinting, executeTag,
    NodeProjectVersioner) together with the properties the specification
    states about them, and of the deployment-status handler
    (OnDeployStatus), the progress log factory
    (rolarAndDashboardLogFactory) and the default image name
    (DefaultDockerImageNameCreator), with further properties of all of
    them run by run.

    The asynchronous TypeScript code is embedded as programs over a
    signature of collaborator calls.  A program is run against an
    environment that answers every call; the run yields the trace of the
    calls that were issued (with their answers), the outcome of the
    returned promise and the final state of the environment. *)

From Stdlib Require Import ZArith NArith Lia Ascii String List.
From Stdlib Require Import DecimalString DecimalN.
From stdpp Require Import base option strings list gmap.

Set Default Proof Using "Type".
Open Scope string_scope.
Open Scope list_scope.

(* ===================================================================== *)
(** ** JavaScript values the code manipulates *)
(* ===================================================================== *)

(** A thrown [Error]; only its message is ever read by the code. *)
Record JsError : Type := mkError { err_message : string }.

(** The completion of a call: it returns a value or throws.  For an
    awaited call, [Abrupt] is the rejection of the awaited promise. *)
Inductive Completion (X : Type) : Type :=
| Normal (x : X)
| Abrupt (e : JsError).
Arguments Normal {X} x.
Arguments Abrupt {X} e.

(** A promise held as a value (not yet awaited), by the way it settles. *)
Inductive Promise (X : Type) : Type :=
| Fulfills (x : X)
| Rejects (e : JsError).
Arguments Fulfills {X} x.
Arguments Rejects {X} e.

(** Truthiness of an optional string: [undefined] and the empty string
    are falsy. *)
Definition truthy (s : option string) : bool :=
  match s with
  | Some EmptyString => false
  | Some _ => true
  | None => false
  end.

(* ===================================================================== *)
(** ** Programs over collaborator calls *)
(* ===================================================================== *)

(** [Prog E R]: a computation that issues calls of the signature [E] and
    ends by returning an [R], by throwing, or by leaving the fragment of
    JavaScript this development models ([OutOfModel], see [bumpIdentifier]).
    The continuation of a call receives the call's completion, so that
    [try]/[catch] is definable by recursion on the program. *)
Inductive Prog (E : Type -> Type) (R : Type) : Type :=
| Ret (r : R)
| Throw (e : JsError)
| OutOfModel
| Call {X : Type} (c : E X) (k : Completion X -> Prog E R).
Arguments Ret {E R} r.
Arguments Throw {E R} e.
Arguments OutOfModel {E R}.
Arguments Call {E R X} c k.

Fixpoint bind {E A B} (m : Prog E A) (f : A -> Prog E B) : Prog E B :=
  match m with
  | Ret a => f a
  | Throw e => Throw e
  | OutOfModel => OutOfModel
  | Call c k => Call c (fun a => bind (k a) f)
  end.

(** [try { m } catch (err) { h err }] *)
Fixpoint try_catch {E A} (m : Prog E A) (h : JsError -> Prog E A) : Prog E A :=
  match m with
  | Ret a => Ret a
  | Throw e => h e
  | OutOfModel => OutOfModel
  | Call c k => Call c (fun a => try_catch (k a) h)
  end.

(** [await c(...)]: the call's value, or its exception rethrown. *)
Definition call {E X} (c : E X) : Prog E X :=
  Call c (fun a => match a with Normal x => Ret x | Abrupt e => Throw e end).

(** A call whose completion the code never observes (logging). *)
Definition tell {E X} (c : E X) : Prog E unit :=
  Call c (fun _ => Ret tt).

(** [await p] for a promise held as a value. *)
Definition await {E X} (p : Promise X) : Prog E X :=
  match p with
  | Fulfills x => Ret x
  | Rejects e => Throw e
  end.

Global Instance Prog_ret {E} : MRet (Prog E) := fun A a => Ret a.

Global Instance Prog_bind {E} : MBind (Prog E) := fun A B f m => bind m f.

(** *** Running a program *)
Inductive Event (E : Type -> Type) : Type :=
| Ev {X : Type} (c : E X) (a : Completion X).
Arguments Ev {E X} c a.

Inductive Outcome (R : Type) : Type :=
| Resolved (r : R)
| Rejected (e : JsError)
| Unmodelled.
Arguments Resolved {R} r.
Arguments Rejected {R} e.
Arguments Unmodelled {R}.

Record Run (E : Type -> Type) (W R : Type) : Type := mkRun {
  trace : list (Event E);
  outcome : Outcome R;
  world : W
}.
Arguments mkRun {E W R} trace outcome world.
Arguments trace {E W R} r.
Arguments outcome {E W R} r.
Arguments world {E W R} r.

(** The environment answers each call, possibly changing its state. *)
Definition Env (E : Type -> Type) (W : Type) : Type :=
  forall X, E X -> W -> Completion X * W.

Definition cons_event {E W R} (ev : Event E) (r : Run E W R) : Run E W R :=
  mkRun (ev :: trace r) (outcome r) (world r).

Fixpoint run {E W R} (env : Env E W) (m : Prog E R) (w : W) : Run E W R :=
  match m with
  | Ret r => mkRun [] (Resolved r) w
  | Throw e => mkRun [] (Rejected e) w
  | OutOfModel => mkRun [] Unmodelled w
  | Call c k =>
      let aw := env _ c w in
      cons_event (Ev c (fst aw)) (run env (k (fst aw)) (snd aw))
  end.

(** Sequencing and exception handling at the level of runs. *)
Definition run_seq {E W A B} (r : Run E W A) (f : A -> W -> Run E W B) : Run E W B :=
  match outcome r with
  | Resolved a =>
      let r' := f a (world r) in
      mkRun (trace r ++ trace r') (outcome r') (world r')
  | Rejected e => mkRun (trace r) (Rejected e) (world r)
  | Unmodelled => mkRun (trace r) Unmodelled (world r)
  end.

Definition run_catch {E W A} (r : Run E W A) (h : JsError -> W -> Run E W A) : Run E W A :=
  match outcome r with
  | Resolved a => r
  | Rejected e =>
      let r' := h e (world r) in
      mkRun (trace r ++ trace r') (outcome r') (world r')
  | Unmodelled => r
  end.

(* ===================================================================== *)
(** ** Data model *)
(* ===================================================================== *)

Definition ProjectOperationCredentials : Type := string.

Record RemoteRepoRef : Type := {
  rr_owner : string;
  rr_repo : string;
  rr_sha : string;
  rr_branch : string
}.

(** [{ code, message? }]: [HandlerResult] and [ExecuteGoalResult]. *)
Record ExecuteGoalResult : Type := {
  code : Z;
  message : option string
}.

Definition Success : ExecuteGoalResult := {| code := 0; message := None |}.

(** [failure(err)] of the automation client: code 1 and the message of
    the exception. *)
Definition failure (err : JsError) : ExecuteGoalResult :=
  {| code := 1; message := Some (err_message err) |}.

Record ChildProcessResult : Type := {
  cp_error : bool;
  cp_code : Z;
  cp_message : option string
}.

(** A [ChildProcessResult] returned where an [ExecuteGoalResult] is
    expected: the same object, seen through the narrower interface. *)
Definition asGoalResult (r : ChildProcessResult) : ExecuteGoalResult :=
  {| code := cp_code r; message := cp_message r |}.

(** The repository of a persisted build identifier. *)
Record Repo : Type := {
  owner : string;
  name : string;
  providerId : string
}.

Record SdmBuildIdentifier : Type := {
  identifier : string;
  repo : Repo
}.

Record PushThatTriggersBuild : Type := {
  push_owner : string;
  push_name : string;
  push_providerId : string;
  push_branch : string;
  push_sha : string
}.

Definition AppInfo : Type := string.

Record LocalBuildInProgress : Type := {
  buildResult : Promise ChildProcessResult;
  repoRef : RemoteRepoRef;
  team : string;
  appInfo : AppInfo;
  deploymentUnitFile : option string;
  url : string
}.

Inductive BuildStatus : Type := started | failed | error | passed | canceled.

(** The first argument of [updateBuildStatus]: [{ repoRef, url, team }]. *)
Record StatusTarget : Type := {
  st_repoRef : RemoteRepoRef;
  st_url : option string;
  st_team : string
}.

Definition targetOf (rb : LocalBuildInProgress) : StatusTarget :=
  {| st_repoRef := repoRef rb; st_url := Some (url rb); st_team := team rb |}.

Record Tagger : Type := {
  tagger_name : string;
  tagger_email : string;
  tagger_date : string
}.

Record Tag : Type := {
  tag : string;
  tag_message : string;
  tag_object : string;
  tag_type : string;
  tagger : Tagger
}.

Record GitProject : Type := {
  project_name : string;
  baseDir : string
}.

Record SdmGoalEvent : Type := {
  goal_owner : string;
  goal_name : string;
  goal_providerId : string;
  goal_sha : string;
  goal_branch : string;
  goal_defaultBranch : string       (* sdmGoal.push.repo.defaultBranch *)
}.

(** [status.commit] of a goal invocation. *)
Record StatusCommit : Type := {
  commit_owner : string;
  commit_name : string;
  commit_providerId : string;       (* commit.repo.org.provider.providerId *)
  commit_sha : string;
  commit_message : string
}.

Record GoalInvocation : Type := {
  sdmGoal : SdmGoalEvent;
  status_commit : StatusCommit;
  credentials : ProjectOperationCredentials;
  gi_id : RemoteRepoRef;
  teamId : string                   (* context.teamId *)
}.

Record DockerOptions : Type := {
  registry : string;
  user : string;
  password : string;
  dockerfileFinder : option string  (* the optional finder, by name *)
}.

Record ImageName : Type := {
  image_registry : string;
  image_name : string;
  image_version : string
}.

Record Fingerprint : Type := {
  fp_name : string;
  fp_sha : string
}.

(** Registered fingerprinters, preparations and listeners are functions
    of the caller; they are identified by name and answered by the
    environment. *)
Definition FingerprinterRegistration : Type := string.

Definition FingerprintListener : Type := string.

Definition PrepareForGoalExecution : Type := string.

(** The push-impact invocation handed to fingerprinters; the listeners
    receive its [addressChannels]. *)
Record PushImpactListenerInvocation : Type := {
  cri_project : GitProject;
  cri_addressChannels : string
}.

(** Lines handed to the progress log and to the diagnostic logger, by
    format and arguments. *)
Inductive LogLine : Type :=
| BuildResultLine (outcome : string) (msg : string)
| BuildFailedWith (msg : string)
| ErrorStack (e : JsError)
| FailedOnRun (branch : string) (id : RemoteRepoRef) (msg : string)
| FailedOnStart (branch : string) (id : RemoteRepoRef) (msg : string)
| NoArtifactGenerated (app : AppInfo)
| UnexpectedBuildExitError (e : JsError)
| AboutToFingerprint (id : RemoteRepoRef) (n : nat)
| WillInvokeFingerprinters (eligible total : nat).

(* ===================================================================== *)
(** ** The collaborators *)
(* ===================================================================== *)

(** Every call the embedded code makes to something outside itself: the
    graph and message clients, the abstract [startBuild], the status
    updater, the tag and webhook helpers, the artifact store, the project
    loader, child processes, the registered functions and the clock. *)
Inductive SdmCall : Type -> Type :=
| QueryBuildIdentifier (owner name providerId : string)
    : SdmCall (option (list SdmBuildIdentifier))
| SendBuildIdentifier (r : SdmBuildIdentifier) : SdmCall unit
| StartBuild (creds : ProjectOperationCredentials) (id : RemoteRepoRef)
    (atomistTeam : string) : SdmCall LocalBuildInProgress
| UpdateBuildStatus (target : StatusTarget) (status : BuildStatus)
    (branch buildNo : string) : SdmCall unit
| LogWrite (line : LogLine) : SdmCall unit
| LoggerWrite (line : LogLine) : SdmCall unit
| ConfigurationValue (path : string) (default : bool) : SdmCall bool
| ReadSdmVersion (owner name providerId sha branch : string) : SdmCall string
| DateToISOString : SdmCall string
| DateFormat (mask : string) : SdmCall string
| CreateTag (creds : ProjectOperationCredentials) (id : RemoteRepoRef) (t : Tag)
    : SdmCall unit
| CreateTagReference (creds : ProjectOperationCredentials) (id : RemoteRepoRef)
    (t : Tag) : SdmCall unit
| StoreFile (app : AppInfo) (file : string) (creds : ProjectOperationCredentials)
    : SdmCall string
| PostLinkImageWebhook (owner repo sha image team : string) : SdmCall bool
| LoadProject (id : RemoteRepoRef) (readOnly : bool) : SdmCall GitProject
| ReleaseProject (p : GitProject) : SdmCall unit
| RunPreparation (prep : PrepareForGoalExecution) (p : GitProject)
    (gi : GoalInvocation) : SdmCall ExecuteGoalResult
| ImageNameCreator (p : GitProject) (goal : SdmGoalEvent) (options : DockerOptions)
    : SdmCall ImageName
| DockerfileFinder (finder : string) (p : GitProject) : SdmCall string
| SpawnAndWatch (command : string) (args : list string) (cwd : string)
    : SdmCall ChildProcessResult
| CreatePushImpactListenerInvocation (gi : GoalInvocation) (p : GitProject)
    : SdmCall PushImpactListenerInvocation
| RelevantCodeActions (registrations : list FingerprinterRegistration)
    (cri : PushImpactListenerInvocation) : SdmCall (list FingerprinterRegistration)
| ComputeFingerprints (cri : PushImpactListenerInvocation)
    (actions : list FingerprinterRegistration) : SdmCall (list Fingerprint)
| InvokeListener (l : FingerprintListener) (gi : GoalInvocation)
    (addressChannels : string) (fingerprint : Fingerprint) : SdmCall (Promise unit)
| PackageJsonVersion (p : GitProject) : SdmCall string.

Abbreviation SdmProg := (Prog SdmCall).

Abbreviation SdmEvent := (Event SdmCall).

(* ===================================================================== *)
(** ** Numbers and strings as the code uses them *)
(* ===================================================================== *)

(** JavaScript numbers are doubles.  Every natural number up to [2^53] is
    a double, and sums that stay in that range are exact; [2^53 + 1] is
    the first natural number that is not a double.  The fragment modelled
    here is the runs of decimal digits that denote a number up to [2^53];
    other strings, and larger values, are outside it. *)
Definition MAX_EXACT : N := 2 ^ 53.

(** Unary plus on a string of decimal digits (the empty string is 0). *)
Definition toNumber (s : string) : option N :=
  match NilEmpty.uint_of_string s with
  | Some d =>
      let n := N.of_uint d in
      if (n <=? MAX_EXACT)%N then Some n else None
  | None => None
  end.

(** [Number.prototype.toString] on a natural number up to [2^53]. *)
Definition numberToString (n : N) : string :=
  NilEmpty.string_of_uint (N.to_uint n).

(** [(+identifier + 1).toString()].  Below [2^53] the sum is exact.  At
    [2^53] it is not: [2^53 + 1] lies halfway between the doubles [2^53]
    and [2^53 + 2] and is rounded to the one with the even significand,
    [2^53] itself, so that the result is the number the sum started from.
    [None] outside the modelled fragment. *)
Definition bumpIdentifier (identifier : string) : option string :=
  match toNumber identifier with
  | Some n =>
      if (n + 1 <=? MAX_EXACT)%N then Some (numberToString (n + 1))
      else if (n =? MAX_EXACT)%N then Some (numberToString MAX_EXACT)
      else None
  | None => None
  end.

(** [s.split(sep)] for a one-character separator: at least one segment. *)
Fixpoint split (sep : ascii) (s : string) : list string :=
  match s with
  | EmptyString => [EmptyString]
  | String c rest =>
      if Ascii.eqb c sep then EmptyString :: split sep rest
      else match split sep rest with
           | seg :: segs => String c seg :: segs
           | [] => [String c EmptyString]
           end
  end.

(** [segments.join(sep)] *)
Fixpoint join (sep : string) (segments : list string) : string :=
  match segments with
  | [] => ""
  | [seg] => seg
  | seg :: rest => seg +:+ sep +:+ join sep rest
  end.

(** Every occurrence of one character replaced by another. *)
Fixpoint replaceAll (from to : ascii) (s : string) : string :=
  match s with
  | EmptyString => EmptyString
  | String c rest =>
      String (if Ascii.eqb c from then to else c) (replaceAll from to rest)
  end.

(** The character class [[A-Za-z0-9]]. *)
Definition isAlphanumeric (c : ascii) : bool :=
  let n := N_of_ascii c in
  ((65 <=? n) && (n <=? 90) || (97 <=? n) && (n <=? 122)
   || (48 <=? n) && (n <=? 57))%N.

(** [/[^A-Za-z0-9]/.test(s)]: some character of [s] is outside the class. *)
Fixpoint testNonAlphanumeric (s : string) : bool :=
  match s with
  | EmptyString => false
  | String c rest => negb (isAlphanumeric c) || testNonAlphanumeric rest
  end.

(** [s1.includes(s2)] *)
Fixpoint includes (s sub : string) : bool :=
  String.prefix sub s
  || match s with
     | EmptyString => false
     | String _ rest => includes rest sub
     end.

(* ===================================================================== *)
(** ** Promises and lists of calls *)
(* ===================================================================== *)

(** A call that is made but not awaited: it returns its value (for a
    listener, the promise) or throws synchronously. *)
Definition invoke {E X} (c : E X) : Prog E X := call c.

(** [xs.map(f)] where [f] makes calls: the calls are made in order, and a
    synchronous throw ends the map. *)
Fixpoint mapM {E A B} (f : A -> Prog E B) (xs : list A) : Prog E (list B) :=
  match xs with
  | [] => mret []
  | x :: rest => y ← f x; ys ← mapM f rest; mret (y :: ys)
  end.

(** [Promise.all(ps)]: fulfils with all the values, or rejects as soon as
    one promise rejects.  The order in which promises settle is not
    modelled; the rejection reported is that of the first rejecting
    promise of the list. *)
Fixpoint promiseAll {X} (ps : list (Promise X)) : Promise (list X) :=
  match ps with
  | [] => Fulfills []
  | Fulfills x :: rest =>
      match promiseAll rest with
      | Fulfills xs => Fulfills (x :: xs)
      | Rejects e => Rejects e
      end
  | Rejects e :: _ => Rejects e
  end.

(* ===================================================================== *)
(** ** The project loader *)
(* ===================================================================== *)

(** Modelled from the spec: the project loader is handed in by the caller
    and is not part of these sources.  "acquires working copy, invokes
    body, guarantees release afterward regardless of body outcome"; the
    outcome of the body is the outcome of the whole. *)
Definition doWithProject {R} (id : RemoteRepoRef) (readOnly : bool)
    (action : GitProject -> SdmProg R) : SdmProg R :=
  p ← call (LoadProject id readOnly);
  r ← try_catch (action p) (fun err => tell (ReleaseProject p);; Throw err);
  tell (ReleaseProject p);;
  mret r.

(* ===================================================================== *)
(** ** executeTag.ts *)
(* ===================================================================== *)

Module Tagging.

Definition createTagForStatus (id : RemoteRepoRef) (sha message version : string)
    (creds : ProjectOperationCredentials) : SdmProg unit :=
  date ← call DateToISOString;
  let t := {| tag := version;
              tag_message := message;
              tag_object := sha;
              tag_type := "commit";
              tagger := {| tagger_name := "Atomist";
                           tagger_email := "info@atomist.com";
                           tagger_date := date |} |} in
  call (CreateTag creds id t);;
  call (CreateTagReference creds id t).

Definition executeTag (gi : GoalInvocation) : SdmProg ExecuteGoalResult :=
  doWithProject (gi_id gi) true (fun p =>
    let commit := status_commit gi in
    version ← call (ReadSdmVersion (commit_owner commit) (commit_name commit)
                      (commit_providerId commit) (commit_sha commit)
                      (rr_branch (gi_id gi)));
    createTagForStatus (gi_id gi) (commit_sha commit) (commit_message commit)
      version (credentials gi);;
    mret Success).

End Tagging.

(* ===================================================================== *)
(** ** LocalBuilder *)
(* ===================================================================== *)

Module LocalBuilder.

(** The record [obtainBuildIdentifier] starts from: the single record the
    query returned, or a fresh record with identifier "0" when the query
    returned no list or a list whose length is not 1. *)
Definition currentBuildIdentifier (push : PushThatTriggersBuild)
    (result : option (list SdmBuildIdentifier)) : SdmBuildIdentifier :=
  match result with
  | Some [r] => r
  | _ => {| identifier := "0";
            repo := {| owner := push_owner push;
                       name := push_name push;
                       providerId := push_providerId push |} |}
  end.

(** [obtainBuildIdentifier(push, ctx)]: query the persisted identifier of
    the repository, bump it, send the bumped record, return the bumped
    identifier. *)
Definition obtainBuildIdentifier (push : PushThatTriggersBuild) : SdmProg string :=
  result ← call (QueryBuildIdentifier (push_owner push) (push_name push)
                   (push_providerId push));
  let buildIdentifier := currentBuildIdentifier push result in
  match bumpIdentifier (identifier buildIdentifier) with
  | Some bumped =>
      let bumpedBuildIdentifier :=
        {| identifier := bumped; repo := repo buildIdentifier |} in
      call (SendBuildIdentifier bumpedBuildIdentifier);;
      mret (identifier bumpedBuildIdentifier)
  | None => OutOfModel
  end.

Definition onStarted (push : PushThatTriggersBuild) (runningBuild : LocalBuildInProgress)
    (buildNo : string) : SdmProg unit :=
  call (UpdateBuildStatus (targetOf runningBuild) started (push_branch push) buildNo).

Definition createBuildTag (id : RemoteRepoRef) (push : PushThatTriggersBuild)
    (buildNo : string) (creds : ProjectOperationCredentials) : SdmProg unit :=
  enabled ← call (ConfigurationValue "sdm.build.tag" true);
  if enabled : bool then
    version ← call (ReadSdmVersion (push_owner push) (push_name push)
                      (push_providerId push) (push_sha push) (rr_branch id));
    if truthy (Some version) then
      Tagging.createTagForStatus id (push_sha push) "Tag created by SDM"
        (version +:+ "+sdm." +:+ buildNo) creds
    else mret tt
  else mret tt.

Definition linkArtifact (creds : ProjectOperationCredentials)
    (rb : LocalBuildInProgress) (file : string) (team : string) : SdmProg bool :=
  imageUrl ← call (StoreFile (appInfo rb) file creds);
  call (PostLinkImageWebhook (rr_owner (repoRef rb)) (rr_repo (repoRef rb))
          (rr_sha (repoRef rb)) imageUrl team).

Definition onExit (creds : ProjectOperationCredentials) (id : RemoteRepoRef)
    (success : bool) (push : PushThatTriggersBuild)
    (runningBuild : LocalBuildInProgress) (buildNo : string) (teamId : string)
    : SdmProg unit :=
  try_catch
    (if success then
       call (UpdateBuildStatus (targetOf runningBuild) passed (push_branch push) buildNo);;
       createBuildTag id push buildNo creds;;
       match deploymentUnitFile runningBuild with
       | Some file =>
           if truthy (Some file) then
             linkArtifact creds runningBuild file teamId;; mret tt
           else tell (LoggerWrite (NoArtifactGenerated (appInfo runningBuild)))
       | None => tell (LoggerWrite (NoArtifactGenerated (appInfo runningBuild)))
       end
     else
       call (UpdateBuildStatus (targetOf runningBuild) failed (push_branch push) buildNo))
    (fun err => tell (LoggerWrite (UnexpectedBuildExitError err))).

(** The inner [try] of [initiateBuild]: await the running build, report
    its exit, map it to a result. *)
Definition awaitBuild (creds : ProjectOperationCredentials) (id : RemoteRepoRef)
    (push : PushThatTriggersBuild) (rb : LocalBuildInProgress)
    (buildNumber : string) (atomistTeam : string) : SdmProg ExecuteGoalResult :=
  try_catch
    (br ← await (buildResult rb);
     tell (LogWrite (BuildResultLine
                       (if cp_error br then "Error" else "Success")
                       (if truthy (cp_message br)
                        then " " +:+ default "" (cp_message br) else "")));;
     onExit creds id (negb (cp_error br)) push rb buildNumber atomistTeam;;
     mret (if cp_error br
           then {| code := 1; message := cp_message br |}
           else Success))
    (fun err =>
       tell (LoggerWrite (FailedOnRun (push_branch push) id (err_message err)));;
       tell (LogWrite (BuildFailedWith (err_message err)));;
       tell (LogWrite (ErrorStack err));;
       onExit creds id false push rb buildNumber atomistTeam;;
       mret (failure err)).

Definition initiateBuild (creds : ProjectOperationCredentials) (id : RemoteRepoRef)
    (push : PushThatTriggersBuild) (atomistTeam : string)
    : SdmProg ExecuteGoalResult :=
  buildNumber ← obtainBuildIdentifier push;
  try_catch
    (rb ← call (StartBuild creds id atomistTeam);
     onStarted push rb buildNumber;;
     awaitBuild creds id push rb buildNumber atomistTeam)
    (fun err =>
       tell (LoggerWrite (FailedOnStart (push_branch push) id (err_message err)));;
       tell (LogWrite (FailedOnStart (push_branch push) id (err_message err)));;
       call (UpdateBuildStatus {| st_repoRef := id; st_url := None; st_team := atomistTeam |}
               failed (push_branch push) buildNumber);;
       mret (failure err)).

End LocalBuilder.

(* ===================================================================== *)
(** ** executeDockerBuild *)
(* ===================================================================== *)

Module Docker.

(** The [for] loop over the preparations: [Some pResult] is the early
    [return pResult] of the first preparation whose code is not 0. *)
Fixpoint runPreparations (preparations : list PrepareForGoalExecution)
    (p : GitProject) (gi : GoalInvocation) : SdmProg (option ExecuteGoalResult) :=
  match preparations with
  | [] => mret None
  | preparation :: rest =>
      pResult ← call (RunPreparation preparation p gi);
      if negb (code pResult =? 0)%Z then mret (Some pResult)
      else runPreparations rest p gi
  end.

Definition loginArgs (options : DockerOptions) : list string :=
  ["login"; "--username"; user options; "--password"; password options]
  ++ (if testNonAlphanumeric (registry options) then [registry options] else []).

Definition imageOf (imageName : ImageName) : string :=
  image_registry imageName +:+ "/" +:+ image_name imageName +:+ ":"
  +:+ image_version imageName.

(** The pipeline after the preparations: image name, Dockerfile, login,
    build, push, image link. *)
Definition buildAndPublish (options : DockerOptions) (gi : GoalInvocation)
    (p : GitProject) : SdmProg ExecuteGoalResult :=
  imageName ← call (ImageNameCreator p (sdmGoal gi) options);
  let image := imageOf imageName in
  dockerfilePath ← match dockerfileFinder options with
                   | Some finder => call (DockerfileFinder finder p)
                   | None => mret "Dockerfile"
                   end;
  (* 1. run docker login *)
  result ← call (SpawnAndWatch "docker" (loginArgs options) (baseDir p));
  if negb (cp_code result =? 0)%Z then mret (asGoalResult result) else
  (* 2. run docker build *)
  result ← call (SpawnAndWatch "docker"
                   ["build"; "."; "-f"; dockerfilePath; "-t"; image]
                   (baseDir p));
  if negb (cp_code result =? 0)%Z then mret (asGoalResult result) else
  (* 3. run docker push *)
  result ← call (SpawnAndWatch "docker" ["push"; image] (baseDir p));
  if negb (cp_code result =? 0)%Z then mret (asGoalResult result) else
  (* 4. create image link *)
  linked ← call (PostLinkImageWebhook (goal_owner (sdmGoal gi))
                   (goal_name (sdmGoal gi)) (goal_sha (sdmGoal gi))
                   image (teamId gi));
  if linked : bool then mret (asGoalResult result)
  else mret {| code := 1; message := Some "Image link failed" |}.

Definition executeDockerBuild (preparations : list PrepareForGoalExecution)
    (options : DockerOptions) (gi : GoalInvocation) : SdmProg ExecuteGoalResult :=
  doWithProject (gi_id gi) false (fun p =>
    early ← runPreparations preparations p gi;
    match early with
    | Some pResult => mret pResult
    | None => buildAndPublish options gi p
    end).

End Docker.

(* ===================================================================== *)
(** ** executeFingerprinting *)
(* ===================================================================== *)

Module Fingerprinting.

(** [listeners.map(l => Promise.all(fingerprints.map(fingerprint => l({...}))))] *)
Definition notifyListeners (listeners : list FingerprintListener)
    (fingerprints : list Fingerprint) (gi : GoalInvocation)
    (cri : PushImpactListenerInvocation)
    : SdmProg (list (Promise (list unit))) :=
  mapM (fun l =>
          ps ← mapM (fun fingerprint =>
                       invoke (InvokeListener l gi (cri_addressChannels cri)
                                 fingerprint))
                    fingerprints;
          mret (promiseAll ps))
       listeners.

(** The action [executeFingerprinting] hands to the project loader. *)
Definition fingerprintProject (fingerprinters : list FingerprinterRegistration)
    (listeners : list FingerprintListener) (gi : GoalInvocation)
    (project : GitProject) : SdmProg unit :=
  cri ← call (CreatePushImpactListenerInvocation gi project);
  relevantFingerprinters ← call (RelevantCodeActions fingerprinters cri);
  tell (LoggerWrite (WillInvokeFingerprinters (length relevantFingerprinters)
                       (length fingerprinters)));;
  fingerprints ← call (ComputeFingerprints cri relevantFingerprinters);
  notified ← notifyListeners listeners fingerprints gi cri;
  await (promiseAll notified);;
  mret tt.

Definition executeFingerprinting (fingerprinters : list FingerprinterRegistration)
    (listeners : list FingerprintListener) (gi : GoalInvocation)
    : SdmProg ExecuteGoalResult :=
  if (length fingerprinters =? 0)%nat then mret Success
  else
    tell (LoggerWrite (AboutToFingerprint (gi_id gi) (length fingerprinters)));;
    doWithProject (gi_id gi) true (fingerprintProject fingerprinters listeners gi);;
    mret Success.

End Fingerprinting.

(* ===================================================================== *)
(** ** NodeProjectVersioner *)
(* ===================================================================== *)

Module NodeVersioner.

(** [sdmGoal.branch.split("/").join(".")] *)
Definition normalizedBranch (sdmGoal : SdmGoalEvent) : string :=
  join "." (split "/" (goal_branch sdmGoal)).

Definition branchSuffix (sdmGoal : SdmGoalEvent) : string :=
  let branch := normalizedBranch sdmGoal in
  if negb (String.eqb branch (goal_defaultBranch sdmGoal))
  then branch +:+ "." else "".

(** The version string, given the declared version of package.json and
    the formatted date. *)
Definition versionOf (sdmGoal : SdmGoalEvent) (pjVersion timestamp : string) : string :=
  pjVersion +:+ "-" +:+ branchSuffix sdmGoal +:+ timestamp.

Definition NodeProjectVersioner (sdmGoal : SdmGoalEvent) (p : GitProject)
    : SdmProg string :=
  pjVersion ← call (PackageJsonVersion p);
  timestamp ← call (DateFormat "yyyymmddHHMMss");
  let version := versionOf sdmGoal pjVersion timestamp in
  call (SpawnAndWatch "npm" ["--no-git-tag-version"; "version"; version] (baseDir p));;
  mret version.

End NodeVersioner.

(* ===================================================================== *)
(** ** The persisted build identifiers *)
(* ===================================================================== *)

Definition queryOf (push : PushThatTriggersBuild)
    : SdmCall (option (list SdmBuildIdentifier)) :=
  QueryBuildIdentifier (push_owner push) (push_name push) (push_providerId push).

Definition freshRepo (push : PushThatTriggersBuild) : Repo :=
  {| owner := push_owner push; name := push_name push;
     providerId := push_providerId push |}.

(** Modelled from the spec: the graph and message clients behind
    [obtainBuildIdentifier] are external.  The specification describes the
    persisted state as one logical record per repository, "keyed by
    (owner, name, providerId), single mutable numeric field": a query
    returns the record of the key if there is one, and sending a record
    replaces the record of its key. *)
Definition storeEnv : Env SdmCall (gmap (string * string * string) string) :=
  fun X c =>
    match c in SdmCall X
          return gmap (string * string * string) string ->
                 Completion X * gmap (string * string * string) string with
    | QueryBuildIdentifier o n p => fun st =>
        (Normal (Some match st !! (o, n, p) with
                      | Some i => [ {| identifier := i;
                                       repo := {| owner := o; name := n;
                                                  providerId := p |} |} ]
                      | None => []
                      end), st)
    | SendBuildIdentifier r => fun st =>
        (Normal tt,
         <[(owner (repo r), name (repo r), providerId (repo r)) := identifier r]> st)
    | _ => fun st => (Abrupt (mkError "collaborator not available"), st)
    end.

Definition pushKey (push : PushThatTriggersBuild) : string * string * string :=
  (push_owner push, push_name push, push_providerId push).

(** The number persisted for the repository of [push]: the one its
    record denotes, 0 when the store has no record of it. *)
Definition persistedNumber (st : gmap (string * string * string) string)
    (push : PushThatTriggersBuild) : option N :=
  match st !! pushKey push with
  | Some i => toNumber i
  | None => Some 0%N
  end.

(** The store after [n] allocations for the repository of [push]. *)
Fixpoint afterAllocations (n : nat) (push : PushThatTriggersBuild)
    (st : gmap (string * string * string) string)
    : gmap (string * string * string) string :=
  match n with
  | O => st
  | S k => world (run storeEnv (LocalBuilder.obtainBuildIdentifier push)
                    (afterAllocations k push st))
  end.

(* ===================================================================== *)
(** ** Reading traces *)
(* ===================================================================== *)

(** The result of a pipeline step that returned: a preparation, or a
    docker command. *)
Definition stepResult (ev : SdmEvent) : option ExecuteGoalResult :=
  match ev with
  | Ev c a =>
      match c in SdmCall X return Completion X -> option ExecuteGoalResult with
      | RunPreparation _ _ _ => fun a =>
          match a with Normal r => Some r | Abrupt _ => None end
      | SpawnAndWatch _ _ _ => fun a =>
          match a with Normal r => Some (asGoalResult r) | Abrupt _ => None end
      | _ => fun _ => None
      end a
  end.

(** A step that returned a non-zero exit code. *)
Definition failedStep (ev : SdmEvent) : bool :=
  match stepResult ev with
  | Some r => negb (code r =? 0)%Z
  | None => false
  end.

(** The calls of the image pipeline: everything but taking and
    releasing the project. *)
Definition isStep (ev : SdmEvent) : bool :=
  match ev with
  | Ev (RunPreparation _ _ _) _ => true
  | Ev (ImageNameCreator _ _ _) _ => true
  | Ev (DockerfileFinder _ _) _ => true
  | Ev (SpawnAndWatch _ _ _) _ => true
  | Ev (PostLinkImageWebhook _ _ _ _ _) _ => true
  | _ => false
  end.

Definition isPreparation (ev : SdmEvent) : bool :=
  match ev with
  | Ev (RunPreparation _ _ _) _ => true
  | _ => false
  end.

(** The acknowledgement of the image-link webhook, when it returned. *)
Definition webhookAnswer (ev : SdmEvent) : option bool :=
  match ev with
  | Ev c a =>
      match c in SdmCall X return Completion X -> option bool with
      | PostLinkImageWebhook _ _ _ _ _ => fun a =>
          match a with Normal b => Some b | Abrupt _ => None end
      | _ => fun _ => None
      end a
  end.

(** The result of [docker push], when it returned. *)
Definition pushResult (ev : SdmEvent) : option ChildProcessResult :=
  match ev with
  | Ev c a =>
      match c in SdmCall X return Completion X -> option ChildProcessResult with
      | SpawnAndWatch command args _ => fun a =>
          match a with
          | Normal r =>
              if String.eqb command "docker"
                 && match args with
                    | verb :: _ => String.eqb verb "push"
                    | [] => false
                    end
              then Some r else None
          | Abrupt _ => None
          end
      | _ => fun _ => None
      end a
  end.

(** The arguments of a child process that was spawned. *)
Definition spawnArgs (ev : SdmEvent) : option (string * list string) :=
  match ev with
  | Ev (SpawnAndWatch command args _) _ => Some (command, args)
  | _ => None
  end.

(** A status update that was issued, with its completion. *)
Definition statusUpdate (ev : SdmEvent)
    : option (StatusTarget * BuildStatus * string * string * Completion unit) :=
  match ev with
  | Ev c a =>
      match c in SdmCall X
            return Completion X ->
                   option (StatusTarget * BuildStatus * string * string
                           * Completion unit) with
      | UpdateBuildStatus target status branch buildNo => fun a =>
          Some (target, status, branch, buildNo, a)
      | _ => fun _ => None
      end a
  end.

(** The completion of [startBuild]. *)
Definition startBuildCompletion (ev : SdmEvent)
    : option (Completion LocalBuildInProgress) :=
  match ev with
  | Ev c a =>
      match c in SdmCall X
            return Completion X -> option (Completion LocalBuildInProgress) with
      | StartBuild _ _ _ => fun a => Some a
      | _ => fun _ => None
      end a
  end.

(** A listener that was invoked with a fingerprint. *)
Definition notification (ev : SdmEvent) : option (FingerprintListener * Fingerprint) :=
  match ev with
  | Ev (InvokeListener l _ _ fingerprint) _ => Some (l, fingerprint)
  | _ => None
  end.


(** The error a call ended with: the exception it threw (for an awaited
    call, the rejection), or for a listener the rejection of the promise
    it returned. *)
Definition failureOf (ev : SdmEvent) : option JsError :=
  match ev with
  | Ev c a =>
      match c in SdmCall X return Completion X -> option JsError with
      | InvokeListener _ _ _ _ => fun a =>
          match a with
          | Normal (Fulfills _) => None
          | Normal (Rejects e) => Some e
          | Abrupt e => Some e
          end
      | _ => fun a =>
          match a with
          | Normal _ => None
          | Abrupt e => Some e
          end
      end a
  end.

(** A listener that threw synchronously instead of returning a promise. *)
Definition listenerThrew (ev : SdmEvent) : bool :=
  match ev with
  | Ev (InvokeListener _ _ _ _) (Abrupt _) => true
  | _ => false
  end.

(** The fingerprints [computeFingerprints] returned. *)
Definition computedFingerprints (ev : SdmEvent) : option (list Fingerprint) :=
  match ev with
  | Ev c a =>
      match c in SdmCall X return Completion X -> option (list Fingerprint) with
      | ComputeFingerprints _ _ => fun a =>
          match a with Normal fps => Some fps | Abrupt _ => None end
      | _ => fun _ => None
      end a
  end.

(* ===================================================================== *)
(** ** Properties of runs *)
(* ===================================================================== *)

(** Any step of the trace that returned a non-zero code is followed by no
    further step, and its result is the outcome. *)
Definition FailureIsFinal (tr : list SdmEvent) (out : Outcome ExecuteGoalResult) : Prop :=
  forall pre ev post r,
    tr = pre ++ ev :: post ->
    stepResult ev = Some r ->
    code r <> 0%Z ->
    Forall (fun e => isStep e = false) post /\ out = Resolved r.

(** A run ends with a value, or with an error that one of the
    collaborators of its trace raised; it does not leave the model. *)
Definition EndsWithResultOrCollaboratorError {W R} (r : Run SdmCall W R) : Prop :=
  match outcome r with
  | Resolved _ => True
  | Rejected e => e ∈ omap failureOf (trace r)
  | Unmodelled => False
  end.

(* ===================================================================== *)
(** ** Scenarios *)
(* ===================================================================== *)

(** An environment without state whose answers are fixed by a script;
    the concrete scenarios below are runs against such environments. *)
Record Script : Type := {
  s_records : option (list SdmBuildIdentifier);
  s_startBuild : Completion LocalBuildInProgress;
  s_updateStatus : BuildStatus -> Completion unit;
  s_createTag : Completion unit;
  s_storeFile : Completion string;
  s_webhook : Completion bool;
  s_preparation : PrepareForGoalExecution -> Completion ExecuteGoalResult;
  s_spawn : list string -> Completion ChildProcessResult;
  s_fingerprints : list Fingerprint;
  s_listener : FingerprintListener -> Fingerprint -> Completion (Promise unit)
}.

Definition scriptedEnv (s : Script) : Env SdmCall unit :=
  fun X c w =>
    (match c in SdmCall X return Completion X with
     | QueryBuildIdentifier _ _ _ => Normal (s_records s)
     | SendBuildIdentifier _ => Normal tt
     | StartBuild _ _ _ => s_startBuild s
     | UpdateBuildStatus _ status _ _ => s_updateStatus s status
     | LogWrite _ => Normal tt
     | LoggerWrite _ => Normal tt
     | ConfigurationValue _ default => Normal default
     | ReadSdmVersion _ _ _ _ _ => Normal "1.2.0-20180704120000"
     | DateToISOString => Normal "2018-07-04T12:00:00.000Z"
     | DateFormat _ => Normal "20180704120000"
     | CreateTag _ _ _ => s_createTag s
     | CreateTagReference _ _ _ => Normal tt
     | StoreFile _ _ _ => s_storeFile s
     | PostLinkImageWebhook _ _ _ _ _ => s_webhook s
     | LoadProject id _ =>
         Normal {| project_name := rr_repo id; baseDir := "/work/" +:+ rr_repo id |}
     | ReleaseProject _ => Normal tt
     | RunPreparation prep _ _ => s_preparation s prep
     | ImageNameCreator p _ options =>
         Normal {| image_registry := registry options;
                   image_name := project_name p;
                   image_version := "1.2.0-20180704120000" |}
     | DockerfileFinder _ _ => Normal "docker/Dockerfile"
     | SpawnAndWatch _ args _ => s_spawn s args
     | CreatePushImpactListenerInvocation _ p =>
         Normal {| cri_project := p; cri_addressChannels := "#builds" |}
     | RelevantCodeActions registrations _ => Normal registrations
     | ComputeFingerprints _ _ => Normal (s_fingerprints s)
     | InvokeListener l _ _ fingerprint => s_listener s l fingerprint
     | PackageJsonVersion _ => Normal "1.2.0"
     end, w).

Definition exitCode (n : Z) : ChildProcessResult :=
  {| cp_error := negb (n =? 0)%Z; cp_code := n; cp_message := None |}.

Definition sampleRepoRef : RemoteRepoRef :=
  {| rr_owner := "atomist"; rr_repo := "sdm-core"; rr_sha := "8c4f2a1";
     rr_branch := "master" |}.

Definition samplePush : PushThatTriggersBuild :=
  {| push_owner := "atomist"; push_name := "sdm-core";
     push_providerId := "github"; push_branch := "master";
     push_sha := "8c4f2a1" |}.

Definition sampleBuild (result : Promise ChildProcessResult) : LocalBuildInProgress :=
  {| buildResult := result; repoRef := sampleRepoRef; team := "T1";
     appInfo := "sdm-core"; deploymentUnitFile := Some "target/sdm-core.jar";
     url := "https://build.example/1" |}.

Definition sampleGoal : SdmGoalEvent :=
  {| goal_owner := "atomist"; goal_name := "sdm-core";
     goal_providerId := "github"; goal_sha := "8c4f2a1";
     goal_branch := "master"; goal_defaultBranch := "master" |}.

Definition sampleInvocation : GoalInvocation :=
  {| sdmGoal := sampleGoal;
     status_commit := {| commit_owner := "atomist"; commit_name := "sdm-core";
                         commit_providerId := "github"; commit_sha := "8c4f2a1";
                         commit_message := "Release" |};
     credentials := "token"; gi_id := sampleRepoRef; teamId := "T1" |}.

(** Every collaborator completes; the build succeeds, every child
    process exits with code 0, the webhook acknowledges. *)
Definition nominal : Script :=
  {| s_records := Some [];
     s_startBuild := Normal (sampleBuild (Fulfills (exitCode 0)));
     s_updateStatus := fun _ => Normal tt;
     s_createTag := Normal tt;
     s_storeFile := Normal "https://artifacts.example/sdm-core.jar";
     s_webhook := Normal true;
     s_preparation := fun _ => Normal Success;
     s_spawn := fun _ => Normal (exitCode 0);
     s_fingerprints := [];
     s_listener := fun _ _ => Normal (Fulfills tt) |}.

Definition dockerHub : DockerOptions :=
  {| registry := "docker.io"; user := "atomist"; password := "s3cret";
     dockerfileFinder := None |}.

Definition privateRegistry : DockerOptions :=
  {| registry := "my-registry.example.com:5000"; user := "atomist";
     password := "s3cret"; dockerfileFinder := None |}.

Definition bareName : DockerOptions :=
  {| registry := "atomist"; user := "atomist"; password := "s3cret";
     dockerfileFinder := None |}.

Definition duplicateRecords : list SdmBuildIdentifier :=
  [ {| identifier := "7"; repo := freshRepo samplePush |};
    {| identifier := "9"; repo := freshRepo samplePush |} ].

Definition singleRecord : Script :=
  {| s_records := Some [ {| identifier := "41"; repo := freshRepo samplePush |} ];
     s_startBuild := s_startBuild nominal;
     s_updateStatus := s_updateStatus nominal;
     s_createTag := s_createTag nominal;
     s_storeFile := s_storeFile nominal;
     s_webhook := s_webhook nominal;
     s_preparation := s_preparation nominal;
     s_spawn := s_spawn nominal;
     s_fingerprints := s_fingerprints nominal;
     s_listener := s_listener nominal |}.

Definition duplicateScript : Script :=
  {| s_records := Some duplicateRecords;
     s_startBuild := s_startBuild nominal;
     s_updateStatus := s_updateStatus nominal;
     s_createTag := s_createTag nominal;
     s_storeFile := s_storeFile nominal;
     s_webhook := s_webhook nominal;
     s_preparation := s_preparation nominal;
     s_spawn := s_spawn nominal;
     s_fingerprints := s_fingerprints nominal;
     s_listener := s_listener nominal |}.

Definition failingPush : Script :=
  {| s_records := s_records nominal;
     s_startBuild := s_startBuild nominal;
     s_updateStatus := s_updateStatus nominal;
     s_createTag := s_createTag nominal;
     s_storeFile := s_storeFile nominal;
     s_webhook := s_webhook nominal;
     s_preparation := s_preparation nominal;
     s_spawn := fun args =>
       match args with
       | "push" :: _ => Normal (exitCode 125)
       | _ => Normal (exitCode 0)
       end;
     s_fingerprints := s_fingerprints nominal;
     s_listener := s_listener nominal |}.

Definition sampleProject : GitProject :=
  {| project_name := "sdm-core"; baseDir := "/work/sdm-core" |}.

Definition sampleImage : string := "docker.io/sdm-core:1.2.0-20180704120000".

Definition unacknowledged : Script :=
  {| s_records := s_records nominal;
     s_startBuild := s_startBuild nominal;
     s_updateStatus := s_updateStatus nominal;
     s_createTag := s_createTag nominal;
     s_storeFile := s_storeFile nominal;
     s_webhook := Normal false;
     s_preparation := s_preparation nominal;
     s_spawn := s_spawn nominal;
     s_fingerprints := s_fingerprints nominal;
     s_listener := s_listener nominal |}.


(** The build succeeds; creating the tag fails and the webhook is down. *)
Definition failingTag : Script :=
  {| s_records := s_records nominal;
     s_startBuild := s_startBuild nominal;
     s_updateStatus := s_updateStatus nominal;
     s_createTag := Abrupt (mkError "Reference already exists");
     s_storeFile := s_storeFile nominal;
     s_webhook := Abrupt (mkError "ECONNREFUSED");
     s_preparation := s_preparation nominal;
     s_spawn := s_spawn nominal;
     s_fingerprints := s_fingerprints nominal;
     s_listener := s_listener nominal |}.

Definition sampleFingerprints : list Fingerprint :=
  [ {| fp_name := "dependencies"; fp_sha := "1f0e3d" |};
    {| fp_name := "license"; fp_sha := "9a7c55" |} ].

(** Two fingerprints, two listeners; the first listener rejects the
    first fingerprint. *)
Definition rejectingListener : Script :=
  {| s_records := s_records nominal;
     s_startBuild := s_startBuild nominal;
     s_updateStatus := s_updateStatus nominal;
     s_createTag := s_createTag nominal;
     s_storeFile := s_storeFile nominal;
     s_webhook := s_webhook nominal;
     s_preparation := s_preparation nominal;
     s_spawn := s_spawn nominal;
     s_fingerprints := sampleFingerprints;
     s_listener := fun l fingerprint =>
       if String.eqb l "slack" && String.eqb (fp_name fingerprint) "dependencies"
       then Normal (Rejects (mkError "channel_not_found"))
       else Normal (Fulfills tt) |}.

(** The first listener throws instead of returning a promise. *)
Definition throwingListener : Script :=
  {| s_records := s_records nominal;
     s_startBuild := s_startBuild nominal;
     s_updateStatus := s_updateStatus nominal;
     s_createTag := s_createTag nominal;
     s_storeFile := s_storeFile nominal;
     s_webhook := s_webhook nominal;
     s_preparation := s_preparation nominal;
     s_spawn := s_spawn nominal;
     s_fingerprints := sampleFingerprints;
     s_listener := fun l fingerprint =>
       if String.eqb l "slack" && String.eqb (fp_name fingerprint) "dependencies"
       then Abrupt (mkError "listener is not configured")
       else Normal (Fulfills tt) |}.

Definition missingDocker : Script :=
  {| s_records := s_records nominal;
     s_startBuild := s_startBuild nominal;
     s_updateStatus := s_updateStatus nominal;
     s_createTag := s_createTag nominal;
     s_storeFile := s_storeFile nominal;
     s_webhook := s_webhook nominal;
     s_preparation := s_preparation nominal;
     s_spawn := fun _ => Abrupt (mkError "spawn docker ENOENT");
     s_fingerprints := s_fingerprints nominal;
     s_listener := s_listener nominal |}.

Definition slashDefaultGoal : SdmGoalEvent :=
  {| goal_owner := "atomist"; goal_name := "sdm-core";
     goal_providerId := "github"; goal_sha := "8c4f2a1";
     goal_branch := "release/1.x"; goal_defaultBranch := "release/1.x" |}.

Definition dottedDefaultGoal : SdmGoalEvent :=
  {| goal_owner := "atomist"; goal_name := "sdm-core";
     goal_providerId := "github"; goal_sha := "8c4f2a1";
     goal_branch := "release/1.x"; goal_defaultBranch := "release.1.x" |}.

(* ===================================================================== *)
(** ** Further readings of traces *)
(* ===================================================================== *)

(** The statuses of the status updates issued, in order. *)
Definition issuedStatuses (tr : list SdmEvent) : list BuildStatus :=
  (fun '(_, status, _, _, _) => status) <$> omap statusUpdate tr.

(** The build numbers of the status updates issued. *)
Definition statusBuildNumbers (tr : list SdmEvent) : list string :=
  (fun '(_, _, _, buildNo, _) => buildNo) <$> omap statusUpdate tr.

(** A record sent to the message client. *)
Definition sentIdentifier (ev : SdmEvent) : option SdmBuildIdentifier :=
  match ev with
  | Ev (SendBuildIdentifier r) _ => Some r
  | _ => None
  end.

(** A tag object handed to [createTag]. *)
Definition createdTag (ev : SdmEvent)
    : option (ProjectOperationCredentials * RemoteRepoRef * Tag) :=
  match ev with
  | Ev (CreateTag creds id t) _ => Some (creds, id, t)
  | _ => None
  end.

(** A tag handed to [createTagReference]. *)
Definition createdTagReference (ev : SdmEvent)
    : option (ProjectOperationCredentials * RemoteRepoRef * Tag) :=
  match ev with
  | Ev (CreateTagReference creds id t) _ => Some (creds, id, t)
  | _ => None
  end.

(** A tag object whose creation completed. *)
Definition completedTag (ev : SdmEvent) : option Tag :=
  match ev with
  | Ev (CreateTag _ _ t) (Normal _) => Some t
  | _ => None
  end.

(** The version [readSdmVersion] returned. *)
Definition readVersion (ev : SdmEvent) : option string :=
  match ev with
  | Ev c a =>
      match c in SdmCall X return Completion X -> option string with
      | ReadSdmVersion _ _ _ _ _ => fun a =>
          match a with Normal v => Some v | Abrupt _ => None end
      | _ => fun _ => None
      end a
  end.

(** The coordinates [readSdmVersion] was asked for. *)
Definition versionQuery (ev : SdmEvent)
    : option (string * string * string * string * string) :=
  match ev with
  | Ev (ReadSdmVersion owner name providerId sha branch) _ =>
      Some (owner, name, providerId, sha, branch)
  | _ => None
  end.

(** A file handed to the artifact store, with the url it answered. *)
Definition storedFile (ev : SdmEvent)
    : option (AppInfo * string * ProjectOperationCredentials * Completion string) :=
  match ev with
  | Ev c a =>
      match c in SdmCall X
            return Completion X ->
                   option (AppInfo * string * ProjectOperationCredentials
                           * Completion string) with
      | StoreFile app file creds => fun a => Some (app, file, creds, a)
      | _ => fun _ => None
      end a
  end.

(** The arguments of the image-link webhook. *)
Definition linkedImage (ev : SdmEvent)
    : option (string * string * string * string * string) :=
  match ev with
  | Ev (PostLinkImageWebhook owner repo sha image team) _ =>
      Some (owner, repo, sha, image, team)
  | _ => None
  end.

(** A project taken from the project loader: the repository and the
    read-only flag. *)
Definition loadedProject (ev : SdmEvent) : option (RemoteRepoRef * bool) :=
  match ev with
  | Ev (LoadProject id readOnly) _ => Some (id, readOnly)
  | _ => None
  end.

(** The project the project loader handed to the action. *)
Definition projectLoaded (ev : SdmEvent) : option GitProject :=
  match ev with
  | Ev c a =>
      match c in SdmCall X return Completion X -> option GitProject with
      | LoadProject _ _ => fun a =>
          match a with Normal p => Some p | Abrupt _ => None end
      | _ => fun _ => None
      end a
  end.

(** A preparation that was run, with its arguments. *)
Definition preparationRun (ev : SdmEvent)
    : option (PrepareForGoalExecution * GitProject * GoalInvocation) :=
  match ev with
  | Ev (RunPreparation prep p gi) _ => Some (prep, p, gi)
  | _ => None
  end.

(** The result a preparation returned. *)
Definition preparationResult (ev : SdmEvent) : option ExecuteGoalResult :=
  match ev with
  | Ev c a =>
      match c in SdmCall X return Completion X -> option ExecuteGoalResult with
      | RunPreparation _ _ _ => fun a =>
          match a with Normal r => Some r | Abrupt _ => None end
      | _ => fun _ => None
      end a
  end.

(** A child process that was spawned, with its working directory. *)
Definition spawned (ev : SdmEvent) : option (string * list string * string) :=
  match ev with
  | Ev (SpawnAndWatch command args cwd) _ => Some (command, args, cwd)
  | _ => None
  end.

(** The image name the image-name creator returned. *)
Definition createdImageName (ev : SdmEvent) : option ImageName :=
  match ev with
  | Ev c a =>
      match c in SdmCall X return Completion X -> option ImageName with
      | ImageNameCreator _ _ _ => fun a =>
          match a with Normal n => Some n | Abrupt _ => None end
      | _ => fun _ => None
      end a
  end.

(** The path the Dockerfile finder returned. *)
Definition foundDockerfile (ev : SdmEvent) : option string :=
  match ev with
  | Ev c a =>
      match c in SdmCall X return Completion X -> option string with
      | DockerfileFinder _ _ => fun a =>
          match a with Normal path => Some path | Abrupt _ => None end
      | _ => fun _ => None
      end a
  end.

(** The promise a listener returned was rejected. *)
Definition rejectedNotification (ev : SdmEvent) : option JsError :=
  match ev with
  | Ev c a =>
      match c in SdmCall X return Completion X -> option JsError with
      | InvokeListener _ _ _ _ => fun a =>
          match a with
          | Normal (Rejects e) => Some e
          | _ => None
          end
      | _ => fun _ => None
      end a
  end.

(** A write to the progress log or to the diagnostic logger. *)
Definition isLogging (ev : SdmEvent) : bool :=
  match ev with
  | Ev (LogWrite _) _ => true
  | Ev (LoggerWrite _) _ => true
  | _ => false
  end.

(** A call of the allocator: the query or the send. *)
Definition isAllocation (ev : SdmEvent) : bool :=
  match ev with
  | Ev (QueryBuildIdentifier _ _ _) _ => true
  | Ev (SendBuildIdentifier _) _ => true
  | _ => false
  end.



(** An exception of a call whose completion the code waits for: any call
    but the writes to the logs and the release of the project. *)
Definition raised (ev : SdmEvent) : option JsError :=
  match ev with
  | Ev (LogWrite _) _ => None
  | Ev (LoggerWrite _) _ => None
  | Ev (ReleaseProject _) _ => None
  | Ev _ (Abrupt e) => Some e
  | _ => None
  end.

(** An event of a build before its exit is handled: a call of the
    allocator, of [startBuild], of the status updater or of a log. *)
Definition beforeExit (ev : SdmEvent) : bool :=
  match ev with
  | Ev (QueryBuildIdentifier _ _ _) _ => true
  | Ev (SendBuildIdentifier _) _ => true
  | Ev (StartBuild _ _ _) _ => true
  | Ev (UpdateBuildStatus _ _ _ _) _ => true
  | Ev (LogWrite _) _ => true
  | Ev (LoggerWrite _) _ => true
  | _ => false
  end.

(* ===================================================================== *)
(** ** Further properties of runs *)
(* ===================================================================== *)

(** What [createBuildTag] may leave in a trace: no tag at all, or one tag
    object named after the version read and the build number, for the
    commit of the push, followed by its reference when the creation of the
    object completed. *)
Definition BuildTagged (creds : ProjectOperationCredentials) (id : RemoteRepoRef)
    (push : PushThatTriggersBuild) (buildNo : string) (tr : list SdmEvent) : Prop :=
  match omap createdTag tr with
  | [] => omap createdTagReference tr = []
  | [(c, i, t)] =>
      c = creds /\ i = id /\
      (exists version date,
         omap readVersion tr = [version] /\ version <> "" /\
         t = {| tag := version +:+ "+sdm." +:+ buildNo;
                tag_message := "Tag created by SDM";
                tag_object := push_sha push;
                tag_type := "commit";
                tagger := {| tagger_name := "Atomist";
                             tagger_email := "info@atomist.com";
                             tagger_date := date |} |}) /\
      omap versionQuery tr
        = [(push_owner push, push_name push, push_providerId push,
            push_sha push, rr_branch id)] /\
      (omap createdTagReference tr = [] /\ omap completedTag tr = [] \/
       omap createdTagReference tr = [(c, i, t)] /\ omap completedTag tr = [t])
  | _ => False
  end.

(** The exception of a call is not turned into a result: it is the
    rejection the run ends with. *)
Definition ErrorsEscape {W R} (r : Run SdmCall W R) : Prop :=
  forall e, e ∈ omap raised (trace r) -> outcome r = Rejected e.

(** The three docker commands of the image pipeline, each with its
    working directory. *)
Definition dockerCommands (options : DockerOptions) (p : GitProject)
    (dockerfilePath image : string) : list (string * list string * string) :=
  [ ("docker", Docker.loginArgs options, baseDir p);
    ("docker", ["build"; "."; "-f"; dockerfilePath; "-t"; image], baseDir p);
    ("docker", ["push"; image], baseDir p) ].

(** What [linkArtifact] may leave in a trace: nothing, or one file handed
    to the artifact store (the deployment unit of the running build),
    followed, when the store answered with a url, by the image-link
    webhook for that url and the commit of the running build. *)
Definition ArtifactLinked (creds : ProjectOperationCredentials)
    (rb : LocalBuildInProgress) (teamId : string) (tr : list SdmEvent) : Prop :=
  match omap storedFile tr with
  | [] => omap linkedImage tr = []
  | [(app, file, c, answer)] =>
      app = appInfo rb /\ deploymentUnitFile rb = Some file /\ file <> "" /\
      c = creds /\
      match answer with
      | Normal imageUrl =>
          omap linkedImage tr
            = [(rr_owner (repoRef rb), rr_repo (repoRef rb), rr_sha (repoRef rb),
                imageUrl, teamId)]
      | Abrupt _ => omap linkedImage tr = []
      end
  | _ => False
  end.

(* ===================================================================== *)
(** ** Further scenarios *)
(* ===================================================================== *)

(** The build starts and its process ends with an error. *)
Definition failingBuild : Script :=
  {| s_records := s_records nominal;
     s_startBuild :=
       Normal (sampleBuild (Fulfills {| cp_error := true; cp_code := 2;
                                        cp_message := Some "Tests failed" |}));
     s_updateStatus := s_updateStatus nominal;
     s_createTag := s_createTag nominal;
     s_storeFile := s_storeFile nominal;
     s_webhook := s_webhook nominal;
     s_preparation := s_preparation nominal;
     s_spawn := s_spawn nominal;
     s_fingerprints := s_fingerprints nominal;
     s_listener := s_listener nominal |}.

(** The build cannot be started and the status updater is down. *)
Definition failingStatus : Script :=
  {| s_records := s_records nominal;
     s_startBuild := Abrupt (mkError "spawn mvn ENOENT");
     s_updateStatus := fun _ => Abrupt (mkError "ECONNRESET");
     s_createTag := s_createTag nominal;
     s_storeFile := s_storeFile nominal;
     s_webhook := s_webhook nominal;
     s_preparation := s_preparation nominal;
     s_spawn := s_spawn nominal;
     s_fingerprints := s_fingerprints nominal;
     s_listener := s_listener nominal |}.

(** Every child process exits with code 1. *)
Definition failingNpm : Script :=
  {| s_records := s_records nominal;
     s_startBuild := s_startBuild nominal;
     s_updateStatus := s_updateStatus nominal;
     s_createTag := s_createTag nominal;
     s_storeFile := s_storeFile nominal;
     s_webhook := s_webhook nominal;
     s_preparation := s_preparation nominal;
     s_spawn := fun _ => Normal (exitCode 1);
     s_fingerprints := s_fingerprints nominal;
     s_listener := s_listener nominal |}.


(** A push to another repository. *)
Definition otherPush : PushThatTriggersBuild :=
  {| push_owner := "atomist"; push_name := "sdm-pack-docker";
     push_providerId := "github"; push_branch := "master";
     push_sha := "41d0c7e" |}.

(* ===================================================================== *)
(** ** DefaultDockerImageNameCreator *)
(* ===================================================================== *)

(** The image name is the name of the project, at the version recorded
    for the commit of the goal, in the registry of the options. *)
Definition DefaultDockerImageNameCreator (p : GitProject) (sdmGoal : SdmGoalEvent)
    (options : DockerOptions) : SdmProg ImageName :=
  let name := project_name p in
  version ← call (ReadSdmVersion (goal_owner sdmGoal) (goal_name sdmGoal)
                    (goal_providerId sdmGoal) (goal_sha sdmGoal)
                    (goal_branch sdmGoal));
  mret {| image_registry := registry options;
          image_name := name;
          image_version := version |}.

(* ===================================================================== *)
(** ** OnDeployStatus *)
(* ===================================================================== *)

Module OnDeploy.

(** [status.commit]: the repository and the sha. *)
Record Commit : Type := {
  commit_repo : Repo;
  commit_sha : string
}.

(** An element of [event.data.Status]. *)
Record Status : Type := {
  context : string;
  commit : Commit
}.

Definition DeploymentListener : Type := string.

(** The invocation handed to every listener (the handler context is the
    one of the call and is left out). *)
Record DeploymentListenerInvocation : Type := {
  dil_status : Status;
  dil_id : RemoteRepoRef;
  dil_addressChannels : string;
  dil_credentials : ProjectOperationCredentials
}.

(** The handler object: its listeners and its two resolvers, by name. *)
Record OnDeployStatus : Type := {
  listeners : list DeploymentListener;
  repoRefResolver : string;
  credentialsFactory : string
}.

(** The calls of the handler: the logger, [addressChannelsFor], the two
    resolvers and the listeners. *)
Inductive DeployCall : Type -> Type :=
| LoggerDebug (line : string) : DeployCall unit
| AddressChannelsFor (repo : Repo) : DeployCall string
| ToRemoteRepoRef (resolver : string) (repo : Repo) (sha : string)
    : DeployCall RemoteRepoRef
| EventHandlerCredentials (factory : string) (id : RemoteRepoRef)
    : DeployCall ProjectOperationCredentials
| InvokeDeploymentListener (l : DeploymentListener)
    (dil : DeploymentListenerInvocation) : DeployCall (Promise unit).

Section Handle.

(** [StagingDeploymentGoal.context], a constant of the goal library. *)
Variable StagingDeploymentGoal_context : string.

(** [handle(event, context, params)]; the event is given by its
    [data.Status].  Reading [commit] of the missing first status of an
    empty list is a TypeError. *)
Definition handle (this params : OnDeployStatus) (Statuses : list Status)
    : Prog DeployCall ExecuteGoalResult :=
  match Statuses with
  | [] => Throw (mkError "Cannot read property 'commit' of undefined")
  | status :: _ =>
      let commit := commit status in
      if negb (String.eqb (context status) StagingDeploymentGoal_context) then
        tell (LoggerDebug ("********* OnDeploy got called with status context=["
                           +:+ context status +:+ "]"));;
        mret Success
      else
        addressChannels ← call (AddressChannelsFor (commit_repo commit));
        id ← call (ToRemoteRepoRef (repoRefResolver params) (commit_repo commit)
                     (commit_sha commit));
        credentials ← call (EventHandlerCredentials (credentialsFactory this) id);
        let dil := {| dil_status := status;
                      dil_id := id;
                      dil_addressChannels := addressChannels;
                      dil_credentials := credentials |} in
        notified ← mapM (fun l => invoke (InvokeDeploymentListener l dil))
                        (listeners params);
        await (promiseAll notified);;
        mret Success
  end.

End Handle.

(** A listener that was invoked, with the invocation it received. *)
Definition notified (ev : Event DeployCall)
    : option (DeploymentListener * DeploymentListenerInvocation) :=
  match ev with
  | Ev (InvokeDeploymentListener l dil) _ => Some (l, dil)
  | _ => None
  end.

(** A listener whose promise was rejected. *)
Definition rejected (ev : Event DeployCall) : option JsError :=
  match ev with
  | Ev c a =>
      match c in DeployCall X return Completion X -> option JsError with
      | InvokeDeploymentListener _ _ => fun a =>
          match a with
          | Normal (Rejects e) => Some e
          | _ => None
          end
      | _ => fun _ => None
      end a
  end.

(** A call that threw. *)
Definition threw (ev : Event DeployCall) : option JsError :=
  match ev with
  | Ev _ (Abrupt e) => Some e
  | _ => None
  end.

(** The repository reference the resolver returned. *)
Definition resolvedId (ev : Event DeployCall) : option RemoteRepoRef :=
  match ev with
  | Ev c a =>
      match c in DeployCall X return Completion X -> option RemoteRepoRef with
      | ToRemoteRepoRef _ _ _ => fun a =>
          match a with Normal id => Some id | Abrupt _ => None end
      | _ => fun _ => None
      end a
  end.

(** The credentials the factory returned, with the factory asked. *)
Definition resolvedCredentials (ev : Event DeployCall)
    : option (string * ProjectOperationCredentials) :=
  match ev with
  | Ev c a =>
      match c in DeployCall X
            return Completion X -> option (string * ProjectOperationCredentials) with
      | EventHandlerCredentials factory _ => fun a =>
          match a with Normal creds => Some (factory, creds) | Abrupt _ => None end
      | _ => fun _ => None
      end a
  end.

(** An environment whose listeners are answered by a script; the
    resolvers and the logger complete. *)
Definition scriptedEnv (answers : DeploymentListener -> Completion (Promise unit))
    : Env DeployCall unit :=
  fun X c w =>
    (match c in DeployCall X return Completion X with
     | LoggerDebug _ => Normal tt
     | AddressChannelsFor _ => Normal "#deployments"
     | ToRemoteRepoRef _ repo sha =>
         Normal {| rr_owner := owner repo; rr_repo := name repo; rr_sha := sha;
                   rr_branch := "master" |}
     | EventHandlerCredentials _ _ => Normal "token"
     | InvokeDeploymentListener l _ => answers l
     end, w).

Definition sampleStatus (ctx : string) : Status :=
  {| context := ctx;
     commit := {| commit_repo := {| owner := "atomist"; name := "sdm-core";
                                    providerId := "github" |};
                  commit_sha := "8c4f2a1" |} |}.

Definition sampleHandler : OnDeployStatus :=
  {| listeners := ["slack"; "audit"];
     repoRefResolver := "github";
     credentialsFactory := "vault" |}.

End OnDeploy.

(* ===================================================================== *)
(** ** rolarAndDashboardLogFactory *)
(* ===================================================================== *)

Module ProgressLogs.

Definition HandlerContext : Type := string.

(** The goal a log is made for: it has a name. *)
Record Goal : Type := {
  name : string;
  event : SdmGoalEvent
}.

(** The progress logs the factory builds or receives, by the class and
    the arguments of their construction; an ephemeral log is the one
    [createEphemeralProgressLog] made for a context and a goal. *)
Inductive ProgressLog : Type :=
| DashboardDisplayProgressLog (rolarBaseUrl : string) (bufferSize flushInterval : Z)
    (context : HandlerContext) (sdmGoal : Goal)
| LoggingProgressLog (name : string) (level : string)
| EphemeralProgressLog (context : HandlerContext) (sdmGoal : Goal)
| WriteToAllProgressLog (name : string) (log1 log2 : ProgressLog).

(** The calls of the factory: the logger, [firstAvailableProgressLog]
    with its candidates in order, and [createEphemeralProgressLog]. *)
Inductive LogCall : Type -> Type :=
| LoggerInfo (line : string) : LogCall unit
| FirstAvailableProgressLog (candidates : list ProgressLog) : LogCall ProgressLog
| CreateEphemeralProgressLog (context : HandlerContext) (sdmGoal : Goal)
    : LogCall ProgressLog.

Definition ProgressLogFactory : Type :=
  HandlerContext -> Goal -> Prog LogCall ProgressLog.

(** [rolarAndDashboardLogFactory(rolarBaseUrl?, bufferSize = 1000,
    flushInterval = 2000)]: the call builds the factory (and logs once
    when a url is given); the factory is then run goal by goal. *)
Definition rolarAndDashboardLogFactory (rolarBaseUrl : option string)
    (bufferSize flushInterval : option Z) : Prog LogCall ProgressLogFactory :=
  let bufferSize := default 1000%Z bufferSize in
  let flushInterval := default 2000%Z flushInterval in
  persistentLogFactory ←
    (if truthy rolarBaseUrl then
       tell (LoggerInfo ("Logging with Rolar: " +:+ default "" rolarBaseUrl));;
       mret (fun context sdmGoal fallback =>
               call (FirstAvailableProgressLog
                       [DashboardDisplayProgressLog (default "" rolarBaseUrl)
                          bufferSize flushInterval context sdmGoal;
                        fallback]))
     else
       mret (fun (context : HandlerContext) (sdmGoal : Goal) fallback =>
               call (FirstAvailableProgressLog [fallback])));
  mret (fun context sdmGoal =>
          let name := name sdmGoal in
          persistentLog ← persistentLogFactory context sdmGoal
                            (LoggingProgressLog name "info");
          ephemeral ← call (CreateEphemeralProgressLog context sdmGoal);
          mret (WriteToAllProgressLog name ephemeral persistentLog)).

(** A line handed to [logger.info]. *)
Definition infoLine (ev : Event LogCall) : option string :=
  match ev with
  | Ev (LoggerInfo line) _ => Some line
  | _ => None
  end.

(** The candidates handed to [firstAvailableProgressLog]. *)
Definition candidates (ev : Event LogCall) : option (list ProgressLog) :=
  match ev with
  | Ev (FirstAvailableProgressLog logs) _ => Some logs
  | _ => None
  end.

(** The log [firstAvailableProgressLog] chose. *)
Definition chosen (ev : Event LogCall) : option ProgressLog :=
  match ev with
  | Ev c a =>
      match c in LogCall X return Completion X -> option ProgressLog with
      | FirstAvailableProgressLog _ => fun a =>
          match a with Normal log => Some log | Abrupt _ => None end
      | _ => fun _ => None
      end a
  end.

(** A request for an ephemeral log, with its completion. *)
Definition ephemeral (ev : Event LogCall)
    : option (HandlerContext * Goal * Completion ProgressLog) :=
  match ev with
  | Ev c a =>
      match c in LogCall X
            return Completion X ->
                   option (HandlerContext * Goal * Completion ProgressLog) with
      | CreateEphemeralProgressLog context sdmGoal => fun a =>
          Some (context, sdmGoal, a)
      | _ => fun _ => None
      end a
  end.

End ProgressLogs.

(* ===================================================================== *)
(** ** Runs of programs *)
(* ===================================================================== *)

Lemma run_bind {E W A B} (env : Env E W) (m : Prog E A) (f : A -> Prog E B) w :
  run env (bind m f) w = run_seq (run env m w) (fun a w' => run env (f a) w').
Proof.
  revert w. induction m as [a|e| |X c k IH]; intros w; simpl.
  - unfold run_seq; simpl. by destruct (run env (f a) w).
  - done.
  - done.
  - rewrite IH. unfold run_seq, cons_event; simpl.
    by destruct (outcome (run env (k (env X c w).1) (env X c w).2)).
Qed.

Lemma run_mbind {E W A B} (env : Env E W) (m : Prog E A) (f : A -> Prog E B) w :
  run env (m ≫= f) w = run_seq (run env m w) (fun a w' => run env (f a) w').
Proof. apply run_bind. Qed.

Lemma run_Prog_bind {E W A B} (env : Env E W) (m : Prog E A) (f : A -> Prog E B) w :
  run env (Prog_bind A B f m) w
  = run_seq (run env m w) (fun a w' => run env (f a) w').
Proof. apply run_bind. Qed.

Lemma run_try_catch {E W A} (env : Env E W) (m : Prog E A) h w :
  run env (try_catch m h) w = run_catch (run env m w) (fun e w' => run env (h e) w').
Proof.
  revert w. induction m as [a|e| |X c k IH]; intros w; simpl.
  - done.
  - unfold run_catch; simpl. by destruct (run env (h e) w).
  - done.
  - rewrite IH. unfold run_catch, cons_event.
    by destruct (run env (k (env X c w).1) (env X c w).2) as [tr [a|e|] w'].
Qed.

(* ===================================================================== *)
(** ** Symbolic execution of programs *)
(* ===================================================================== *)

(** Symbolic execution: split on the completion of the next call whose
    answer the program inspects. *)
Ltac exec_call :=
  match goal with
  | |- context [match fst (?env ?X ?c ?w) with _ => _ end] =>
      let a := fresh "a" in
      let w' := fresh "w" in
      let e := fresh "e" in
      destruct (env X c w) as [[a|e] w']
  end.

(** [simpl] shows [omap] on lists by its instance; fold it back. *)
Ltac fold_omap :=
  repeat match goal with
         | |- context [list_omap ?A ?B ?f ?l] =>
             change (list_omap A B f l) with (omap f l)
         | H : context [list_omap ?A ?B ?f ?l] |- _ =>
             change (list_omap A B f l) with (omap f l) in H
         end.

Ltac run_binds :=
  first [rewrite run_mbind | rewrite run_Prog_bind | rewrite run_bind].

Ltac exec_if :=
  match goal with
  | |- context [if negb (?x =? 0)%Z then _ else _] =>
      let H := fresh "Hcode" in destruct (x =? 0)%Z eqn:H
  | |- context [if ?b then _ else _] => is_var b; destruct b
  end.

Ltac exec_all := repeat (simpl; first [exec_call | exec_if]); simpl.

(* ===================================================================== *)
(** ** Facts about numbers and strings *)
(* ===================================================================== *)

Lemma toNumber_numberToString (n : N) :
  (n <= MAX_EXACT)%N -> toNumber (numberToString n) = Some n.
Proof.
  intros Hn. unfold toNumber, numberToString.
  rewrite NilEmpty.usu, DecimalN.Unsigned.of_to.
  by apply N.leb_le in Hn as ->.
Qed.

Lemma bumpIdentifier_below (i : string) (v : N) :
  toNumber i = Some v ->
  (v + 1 <= MAX_EXACT)%N ->
  bumpIdentifier i = Some (numberToString (v + 1)).
Proof.
  intros Hi Hv. unfold bumpIdentifier. rewrite Hi.
  by apply N.leb_le in Hv as ->.
Qed.

Lemma bumpIdentifier_limit (i : string) :
  toNumber i = Some MAX_EXACT ->
  bumpIdentifier i = Some (numberToString MAX_EXACT).
Proof. intros Hi. unfold bumpIdentifier. by rewrite Hi. Qed.

Lemma bumpIdentifier_numberToString (n : N) :
  (n + 1 <= MAX_EXACT)%N ->
  bumpIdentifier (numberToString n) = Some (numberToString (n + 1)).
Proof.
  intros Hn. unfold bumpIdentifier.
  rewrite toNumber_numberToString by lia.
  by apply N.leb_le in Hn as ->.
Qed.

Lemma numberToString_inj (m n : N) :
  numberToString m = numberToString n -> m = n.
Proof.
  unfold numberToString. intros H.
  apply DecimalN.Unsigned.to_uint_inj.
  assert (Some (N.to_uint m) = Some (N.to_uint n)) as [= ->]; [|done].
  by rewrite <- !NilEmpty.usu, H.
Qed.

(* ===================================================================== *)
(** ** The build identity allocator *)
(* ===================================================================== *)

Section Allocator.
Import LocalBuilder.

(** One allocation, once the query has answered and the bump is within
    the modelled numbers: the bumped record is sent, and the bumped
    identifier is returned when the send completes. *)
Lemma obtainBuildIdentifier_run {W} (env : Env SdmCall W) w push records w1 b :
  env _ (queryOf push) w = (Normal records, w1) ->
  bumpIdentifier (identifier (currentBuildIdentifier push records)) = Some b ->
  let bumped := {| identifier := b;
                   repo := repo (currentBuildIdentifier push records) |} in
  let aw := env _ (SendBuildIdentifier bumped) w1 in
  run env (obtainBuildIdentifier push) w =
  mkRun [Ev (queryOf push) (Normal records); Ev (SendBuildIdentifier bumped) aw.1]
        (match aw.1 with Normal _ => Resolved b | Abrupt e => Rejected e end)
        aw.2.
Proof.
  intros Hq Hb bumped aw. unfold obtainBuildIdentifier, queryOf in *.
  simpl. rewrite Hq. simpl. rewrite Hb. simpl.
  fold bumped. fold aw. by destruct (aw.1).
Qed.

Lemma currentBuildIdentifier_not_single push records :
  (forall l, records = Some l -> length l <> 1) ->
  currentBuildIdentifier push records =
  {| identifier := "0"; repo := freshRepo push |}.
Proof.
  intros H. destruct records as [[|r [|r' l]]|]; try done.
  by destruct (H [r]).
Qed.

Lemma storeEnv_query st push :
  storeEnv _ (queryOf push) st =
  (Normal (Some match st !! pushKey push with
                | Some i => [ {| identifier := i; repo := freshRepo push |} ]
                | None => []
                end), st).
Proof. reflexivity. Qed.

(** One allocation against the keyed store: [v] is the number persisted
    for the repository, 0 when nothing is persisted. *)
Lemma storeEnv_allocation_bumped st push b :
  bumpIdentifier (identifier (currentBuildIdentifier push
    (Some match st !! pushKey push with
          | Some i => [ {| identifier := i; repo := freshRepo push |} ]
          | None => []
          end))) = Some b ->
  outcome (run storeEnv (obtainBuildIdentifier push) st) = Resolved b /\
  world (run storeEnv (obtainBuildIdentifier push) st) = <[pushKey push := b]> st.
Proof.
  intros Hb.
  rewrite (obtainBuildIdentifier_run storeEnv st push _ st _ (storeEnv_query st push) Hb).
  simpl. split; [done|]. by destruct (st !! pushKey push).
Qed.

Lemma storeEnv_allocation st push (v : N) :
  persistedNumber st push = Some v ->
  (v + 1 <= MAX_EXACT)%N ->
  outcome (run storeEnv (obtainBuildIdentifier push) st)
    = Resolved (numberToString (v + 1)) /\
  world (run storeEnv (obtainBuildIdentifier push) st)
    = <[pushKey push := numberToString (v + 1)]> st.
Proof.
  intros Hst Hv. apply storeEnv_allocation_bumped.
  unfold persistedNumber in Hst.
  destruct (st !! pushKey push) as [i|]; simpl.
  - by apply bumpIdentifier_below.
  - by injection Hst as <-.
Qed.

(** At [2^53] the allocation returns, and persists, the number it found. *)
Lemma storeEnv_allocation_limit st push :
  persistedNumber st push = Some MAX_EXACT ->
  outcome (run storeEnv (obtainBuildIdentifier push) st)
    = Resolved (numberToString MAX_EXACT) /\
  world (run storeEnv (obtainBuildIdentifier push) st)
    = <[pushKey push := numberToString MAX_EXACT]> st.
Proof.
  intros Hst. apply storeEnv_allocation_bumped.
  unfold persistedNumber in Hst.
  destruct (st !! pushKey push) as [i|]; simpl.
  - by apply bumpIdentifier_limit.
  - discriminate.
Qed.

Lemma persistedNumber_insert st push (v : N) :
  (v <= MAX_EXACT)%N ->
  persistedNumber (<[pushKey push := numberToString v]> st) push = Some v.
Proof.
  intros Hv. unfold persistedNumber. rewrite lookup_insert_eq.
  by apply toNumber_numberToString.
Qed.

Lemma afterAllocations_lookup st push (n : nat) :
  st !! pushKey push = None ->
  (N.of_nat (S n) <= MAX_EXACT)%N ->
  afterAllocations (S n) push st !! pushKey push
    = Some (numberToString (N.of_nat (S n))).
Proof.
  intros Hst. induction n as [|n IH]; intros Hn.
  - change (afterAllocations 1 push st)
      with (world (run storeEnv (obtainBuildIdentifier push) st)).
    destruct (storeEnv_allocation st push 0) as [_ ->];
      [by unfold persistedNumber; rewrite Hst|done|].
    by rewrite lookup_insert_eq.
  - change (afterAllocations (S (S n)) push st)
      with (world (run storeEnv (obtainBuildIdentifier push)
                     (afterAllocations (S n) push st))).
    destruct (storeEnv_allocation (afterAllocations (S n) push st) push
                (N.of_nat (S n))) as [_ ->].
    + unfold persistedNumber. rewrite IH by lia.
      apply toNumber_numberToString. lia.
    + lia.
    + rewrite lookup_insert_eq. do 2 f_equal. lia.
Qed.

End Allocator.

(* ===================================================================== *)
(** ** The allocator: numbering of builds *)
(* ===================================================================== *)

(** C1, as stated: two allocations in a row would never return the same
    identifier, and a record with the numeric identifier [v] would always
    lead to the string of [v + 1].  At [v = 2^53] the sum [v + 1] is
    rounded back to [v]: the allocation returns, and persists,
    "9007199254740992" once more, and so does the allocation after it. *)
Lemma obtainBuildIdentifier_repeats_counterexample :
  outcome (run storeEnv (LocalBuilder.obtainBuildIdentifier samplePush)
             {[ pushKey samplePush := "9007199254740992" ]})
    = Resolved "9007199254740992" /\
  outcome (run storeEnv (LocalBuilder.obtainBuildIdentifier samplePush)
             (world (run storeEnv (LocalBuilder.obtainBuildIdentifier samplePush)
                       {[ pushKey samplePush := "9007199254740992" ]})))
    = Resolved "9007199254740992".
Proof. split; vm_compute; reflexivity. Qed.

(** C1, amended.  An allocation whose query returns no record starts from
    0: it sends the record with identifier "1" and returns "1".  An
    allocation whose query returns exactly one record, its identifier a
    run of decimal digits that denotes a number [v] below [2^53], sends
    that record with identifier [v + 1] and returns the string of
    [v + 1]; the send is the last call before the return, and the
    identifier is returned once it completes.  Against the persisted state
    keyed by repository, the n-th allocation for a repository not seen
    before returns "n" as long as [n] is at most [2^53], and two
    allocations in a row return different identifiers as long as the
    second stays within [2^53].  At [2^53] the identifier no longer
    advances: the allocation returns the identifier it found, and so does
    every allocation after it. *)
Theorem obtainBuildIdentifier_allocates :
  (forall W (env : Env SdmCall W) w push w1,
     env _ (queryOf push) w = (Normal (Some []), w1) ->
     let sent := {| identifier := "1"; repo := freshRepo push |} in
     let aw := env _ (SendBuildIdentifier sent) w1 in
     trace (run env (LocalBuilder.obtainBuildIdentifier push) w)
       = [Ev (queryOf push) (Normal (Some [])); Ev (SendBuildIdentifier sent) aw.1] /\
     outcome (run env (LocalBuilder.obtainBuildIdentifier push) w)
       = match aw.1 with Normal _ => Resolved "1" | Abrupt e => Rejected e end) /\
  (forall W (env : Env SdmCall W) w push w1 record (v : N),
     env _ (queryOf push) w = (Normal (Some [record]), w1) ->
     toNumber (identifier record) = Some v ->
     (v < MAX_EXACT)%N ->
     let sent := {| identifier := numberToString (v + 1); repo := repo record |} in
     let aw := env _ (SendBuildIdentifier sent) w1 in
     trace (run env (LocalBuilder.obtainBuildIdentifier push) w)
       = [Ev (queryOf push) (Normal (Some [record]));
          Ev (SendBuildIdentifier sent) aw.1] /\
     outcome (run env (LocalBuilder.obtainBuildIdentifier push) w)
       = match aw.1 with
         | Normal _ => Resolved (numberToString (v + 1))
         | Abrupt e => Rejected e
         end) /\
  (forall st push (n : nat),
     st !! pushKey push = None ->
     (N.of_nat (S n) <= MAX_EXACT)%N ->
     outcome (run storeEnv (LocalBuilder.obtainBuildIdentifier push)
                (afterAllocations n push st))
       = Resolved (numberToString (N.of_nat (S n)))) /\
  (forall st push (v : N),
     persistedNumber st push = Some v ->
     (v + 2 <= MAX_EXACT)%N ->
     let first := run storeEnv (LocalBuilder.obtainBuildIdentifier push) st in
     let second := run storeEnv (LocalBuilder.obtainBuildIdentifier push)
                     (world first) in
     outcome first = Resolved (numberToString (v + 1)) /\
     outcome second = Resolved (numberToString (v + 2)) /\
     outcome first <> outcome second) /\
  (forall st push,
     persistedNumber st push = Some MAX_EXACT ->
     let first := run storeEnv (LocalBuilder.obtainBuildIdentifier push) st in
     let second := run storeEnv (LocalBuilder.obtainBuildIdentifier push)
                     (world first) in
     outcome first = Resolved (numberToString MAX_EXACT) /\
     outcome second = outcome first).
Proof.
  split; [|split; [|split; [|split]]].
  - intros W env w push w1 Hq sent aw.
    by rewrite (obtainBuildIdentifier_run env w push _ w1 "1" Hq).
  - intros W env w push w1 record v Hq Hid Hv sent aw.
    rewrite (obtainBuildIdentifier_run env w push _ w1 (numberToString (v + 1)) Hq);
      [done|].
    simpl. apply bumpIdentifier_below; [done|lia].
  - intros st push n Hst Hn. destruct n as [|n].
    + change (afterAllocations 0 push st) with st.
      destruct (storeEnv_allocation st push 0) as [-> _];
        [by unfold persistedNumber; rewrite Hst|done|done].
    + destruct (storeEnv_allocation (afterAllocations (S n) push st) push
                  (N.of_nat (S n))) as [-> _].
      * unfold persistedNumber.
        rewrite afterAllocations_lookup by (done || lia).
        apply toNumber_numberToString. lia.
      * lia.
      * do 2 f_equal. lia.
  - intros st push v Hst Hv first second. subst first second.
    destruct (storeEnv_allocation st push v) as [E1 E2]; [done|lia|].
    rewrite E2, E1.
    destruct (storeEnv_allocation (<[pushKey push:=numberToString (v + 1)]> st)
                push (v + 1)) as [-> _].
    + apply persistedNumber_insert. lia.
    + lia.
    + replace (v + 1 + 1)%N with (v + 2)%N by lia.
      split; [done|]. split; [done|].
      intros [= E]. apply numberToString_inj in E. lia.
  - intros st push Hst first second. subst first second.
    destruct (storeEnv_allocation_limit st push Hst) as [E1 E2].
    rewrite E2, E1. split; [done|].
    apply storeEnv_allocation_limit, persistedNumber_insert. done.
Qed.

Lemma obtainBuildIdentifier_allocates_witness :
  outcome (run (scriptedEnv nominal) (LocalBuilder.obtainBuildIdentifier samplePush) tt)
    = Resolved "1" /\
  outcome (run (scriptedEnv singleRecord)
             (LocalBuilder.obtainBuildIdentifier samplePush) tt)
    = Resolved "42" /\
  outcome (run storeEnv (LocalBuilder.obtainBuildIdentifier samplePush)
             (afterAllocations 2 samplePush ∅))
    = Resolved "3" /\
  outcome (run storeEnv (LocalBuilder.obtainBuildIdentifier samplePush)
             {[ pushKey samplePush := "041" ]})
    = Resolved "42".
Proof.
  destruct obtainBuildIdentifier_allocates as (H0 & H1 & Hn & Hseq & _).
  split; [|split; [|split]].
  - exact (proj2 (H0 unit (scriptedEnv nominal) tt samplePush tt eq_refl)).
  - exact (proj2 (H1 unit (scriptedEnv singleRecord) tt samplePush tt
                    {| identifier := "41"; repo := freshRepo samplePush |} 41%N
                    eq_refl eq_refl eq_refl)).
  - exact (Hn ∅ samplePush 2%nat (lookup_empty _) ltac:(vm_compute; discriminate)).
  - refine (proj1 (Hseq {[ pushKey samplePush := "041" ]} samplePush 41%N
                     _ ltac:(vm_compute; discriminate))).
    unfold persistedNumber. by rewrite lookup_singleton_eq.
Defined.

(** C10.  Whenever the query returns no list or a list whose length is
    not exactly one (several records for the repository included), the
    allocation starts from the record with identifier "0": it sends the
    record with identifier "1" for the repository of the push and returns
    "1" once the send completes. *)
Theorem obtainBuildIdentifier_resets_unless_single
    W (env : Env SdmCall W) w push records w1 :
  env _ (queryOf push) w = (Normal records, w1) ->
  (forall l, records = Some l -> length l <> 1) ->
  LocalBuilder.currentBuildIdentifier push records
    = {| identifier := "0"; repo := freshRepo push |} /\
  let sent := {| identifier := "1"; repo := freshRepo push |} in
  let aw := env _ (SendBuildIdentifier sent) w1 in
  trace (run env (LocalBuilder.obtainBuildIdentifier push) w)
    = [Ev (queryOf push) (Normal records); Ev (SendBuildIdentifier sent) aw.1] /\
  outcome (run env (LocalBuilder.obtainBuildIdentifier push) w)
    = match aw.1 with Normal _ => Resolved "1" | Abrupt e => Rejected e end.
Proof.
  intros Hq Hlen.
  pose proof (LocalBuilder_current := currentBuildIdentifier_not_single push records Hlen).
  split; [done|].
  rewrite (obtainBuildIdentifier_run env w push records w1 "1" Hq).
  - by rewrite LocalBuilder_current.
  - by rewrite LocalBuilder_current.
Qed.

Lemma obtainBuildIdentifier_resets_unless_single_witness :
  outcome (run (scriptedEnv duplicateScript)
             (LocalBuilder.obtainBuildIdentifier samplePush) tt)
    = Resolved "1".
Proof.
  refine (proj2 (proj2 (obtainBuildIdentifier_resets_unless_single unit
            (scriptedEnv duplicateScript) tt samplePush (Some duplicateRecords)
            tt eq_refl _))).
  intros l [= <-]. vm_compute. discriminate.
Defined.

(* ===================================================================== *)
(** ** The login command and the version string *)
(* ===================================================================== *)

Lemma testNonAlphanumeric_spec (s : string) :
  testNonAlphanumeric s = true <->
  exists c, In c (list_ascii_of_string s) /\ isAlphanumeric c = false.
Proof.
  induction s as [|c s IH]; simpl.
  - split; [done|]. by intros (c & [] & _).
  - rewrite orb_true_iff, negb_true_iff, IH. split.
    + intros [Hc|(c' & Hin & Hc')]; [exists c|exists c']; auto.
    + intros (c' & [->|Hin] & Hc'); [by left|right; eauto].
Qed.

(** C7, as the specification states its scenario: for the registry
    "docker.io" the login command would omit the registry.  It does not:
    the dot is a non-alphanumeric character, and the registry is passed as
    the final argument. *)
Lemma loginArgs_docker_io_counterexample :
  Docker.loginArgs dockerHub
    = ["login"; "--username"; "atomist"; "--password"; "s3cret"; "docker.io"] /\
  ~ (Docker.loginArgs dockerHub
       = ["login"; "--username"; "atomist"; "--password"; "s3cret"]).
Proof. split; [reflexivity|discriminate]. Qed.

(** The argument list of docker login, by cases on the registry. *)
Lemma loginArgs_cases options :
  let fixed := ["login"; "--username"; user options;
                "--password"; password options] in
  (Docker.loginArgs options = fixed ++ [registry options] <->
   exists c, In c (list_ascii_of_string (registry options)) /\
             isAlphanumeric c = false) /\
  (Docker.loginArgs options = fixed <->
   forall c, In c (list_ascii_of_string (registry options)) ->
             isAlphanumeric c = true).
Proof.
  intros fixed. unfold Docker.loginArgs. fold fixed.
  rewrite <- testNonAlphanumeric_spec.
  destruct (testNonAlphanumeric (registry options)) eqn:Htest.
  - split; [done|]. split.
    + intros H. apply (f_equal length) in H. rewrite length_app in H. simpl in H. lia.
    + intros Hall. apply testNonAlphanumeric_spec in Htest as (c & Hin & Hc).
      rewrite (Hall c Hin) in Hc. discriminate.
  - split.
    + split; [|done]. intros H. apply (f_equal length) in H.
      rewrite !length_app in H. simpl in H. lia.
    + split; [|by rewrite app_nil_r]. intros _ c Hin.
      destruct (isAlphanumeric c) eqn:Hc; [done|].
      assert (testNonAlphanumeric (registry options) = true) as Ht
        by (apply testNonAlphanumeric_spec; eauto).
      congruence.
Qed.

Lemma split_cons sep s : exists seg segs, split sep s = seg :: segs.
Proof.
  destruct s as [|c s]; simpl; [by eauto|].
  destruct (Ascii.eqb c sep); [by eauto|].
  destruct (split sep s); by eauto.
Qed.

(** [s.split("/").join(".")] replaces every slash by a dot. *)
Lemma join_split_replaceAll (s : string) :
  join "." (split "/" s) = replaceAll "/" "." s.
Proof.
  induction s as [|c s IH]; [done|]. simpl.
  destruct (split_cons "/" s) as (seg & segs & Hs). rewrite Hs in IH |- *.
  destruct (Ascii.eqb c "/"); simpl in *.
  - by rewrite <- IH.
  - rewrite <- IH. by destruct segs.
Qed.

Lemma includes_prefix (sub rest : string) : includes (sub +:+ rest) sub = true.
Proof.
  assert (String.prefix sub (sub +:+ rest) = true) as H.
  { induction sub as [|c sub IH]; simpl; [by destruct rest|].
    destruct (ascii_dec c c); [done|congruence]. }
  remember (sub +:+ rest) as s eqn:Hs. clear Hs.
  destruct s; simpl in *; by rewrite H.
Qed.

Lemma includes_append (pre s sub : string) :
  includes s sub = true -> includes (pre +:+ s) sub = true.
Proof.
  intros H. induction pre as [|c pre IH]; simpl; [done|].
  rewrite IH. apply orb_true_r.
Qed.

(** The version string as the code computes it: the suffix is empty
    exactly when the branch with its slashes replaced equals the default
    branch as it is, and otherwise the version contains the replaced
    branch followed by a dot. *)
Lemma versionOf_shape sdmGoal pjVersion timestamp :
  let branch := replaceAll "/" "." (goal_branch sdmGoal) in
  NodeVersioner.normalizedBranch sdmGoal = branch /\
  (branch = goal_defaultBranch sdmGoal ->
   NodeVersioner.versionOf sdmGoal pjVersion timestamp
     = pjVersion +:+ "-" +:+ timestamp) /\
  (branch <> goal_defaultBranch sdmGoal ->
   NodeVersioner.versionOf sdmGoal pjVersion timestamp
     = pjVersion +:+ "-" +:+ (branch +:+ ".") +:+ timestamp /\
   includes (NodeVersioner.versionOf sdmGoal pjVersion timestamp)
            (branch +:+ ".") = true).
Proof.
  intros branch. unfold NodeVersioner.versionOf, NodeVersioner.branchSuffix.
  assert (NodeVersioner.normalizedBranch sdmGoal = branch) as ->
    by apply join_split_replaceAll.
  split; [done|]. split.
  - intros ->. by rewrite String.eqb_refl.
  - intros Hne. apply String.eqb_neq in Hne as ->. simpl negb. cbv iota.
    split; [done|].
    apply includes_append. apply (includes_append "-"). apply includes_prefix.
Qed.

(** C5, on the code.  The branch is compared with the default branch
    after its slashes have been replaced, while the default branch is
    taken as it is.  A push on the default branch "release/1.x" therefore
    gets the suffix "release.1.x." although it is on the default branch,
    and a push on "release/1.x" of a repository whose default branch is
    "release.1.x" gets no suffix although it is on another branch. *)
Theorem NodeProjectVersioner_default_branch_with_slash :
  goal_branch slashDefaultGoal = goal_defaultBranch slashDefaultGoal /\
  NodeVersioner.branchSuffix slashDefaultGoal = "release.1.x." /\
  NodeVersioner.versionOf slashDefaultGoal "1.2.0" "20180704120000"
    = "1.2.0-release.1.x.20180704120000" /\
  outcome (run (scriptedEnv nominal)
             (NodeVersioner.NodeProjectVersioner slashDefaultGoal
                {| project_name := "sdm-core"; baseDir := "/work/sdm-core" |}) tt)
    = Resolved "1.2.0-release.1.x.20180704120000" /\
  goal_branch dottedDefaultGoal <> goal_defaultBranch dottedDefaultGoal /\
  NodeVersioner.branchSuffix dottedDefaultGoal = "" /\
  NodeVersioner.versionOf dottedDefaultGoal "1.2.0" "20180704120000"
    = "1.2.0-20180704120000".
Proof. repeat split; discriminate. Qed.

(* ===================================================================== *)
(** ** Runs of the project loader *)
(* ===================================================================== *)

(** The run of [doWithProject]: the project is taken, the action runs,
    and the project is released whatever the action's outcome was; the
    outcome of the action is the outcome of the whole. *)
Lemma doWithProject_run {W R} (env : Env SdmCall W) id readOnly
    (action : GitProject -> SdmProg R) w :
  let aw := env _ (LoadProject id readOnly) w in
  run env (doWithProject id readOnly action) w =
  match aw.1 with
  | Abrupt e => mkRun [Ev (LoadProject id readOnly) (Abrupt e)] (Rejected e) aw.2
  | Normal p =>
      let body := run env (action p) aw.2 in
      let release := env _ (ReleaseProject p) (world body) in
      match outcome body with
      | Unmodelled =>
          mkRun (Ev (LoadProject id readOnly) (Normal p) :: trace body)
                Unmodelled (world body)
      | o =>
          mkRun (Ev (LoadProject id readOnly) (Normal p)
                   :: trace body ++ [Ev (ReleaseProject p) release.1])
                o release.2
      end
  end.
Proof.
  intros aw. unfold doWithProject. simpl. fold aw.
  destruct (aw.1) as [p|e]; simpl; [|done].
  rewrite run_mbind, run_try_catch. unfold run_seq, run_catch, cons_event.
  by destruct (run env (action p) aw.2) as [tr [r|e|] w'].
Qed.

(* ===================================================================== *)
(** ** The image pipeline *)
(* ===================================================================== *)

Lemma stepResult_isStep ev r : stepResult ev = Some r -> isStep ev = true.
Proof. by destruct ev as [X [] a]. Qed.

Lemma failedStep_false ev r :
  failedStep ev = false -> stepResult ev = Some r -> code r = 0%Z.
Proof.
  unfold failedStep. intros H Hr. rewrite Hr in H.
  apply negb_false_iff in H. lia.
Qed.

Lemma FailureIsFinal_nil out : FailureIsFinal [] out.
Proof. intros [|? pre] ev post r H; discriminate. Qed.

Lemma FailureIsFinal_cons e tr out :
  failedStep e = false -> FailureIsFinal tr out -> FailureIsFinal (e :: tr) out.
Proof.
  intros He Htr [|e' pre] ev post r [= <- Heq] Hev Hr.
  - destruct Hr. eauto using failedStep_false.
  - eauto.
Qed.

Lemma FailureIsFinal_app pre tr out :
  Forall (fun e => failedStep e = false) pre ->
  FailureIsFinal tr out -> FailureIsFinal (pre ++ tr) out.
Proof. induction 1; simpl; auto using FailureIsFinal_cons. Qed.

Lemma FailureIsFinal_last e r post :
  stepResult e = Some r ->
  Forall (fun e => isStep e = false) post ->
  FailureIsFinal (e :: post) (Resolved r).
Proof.
  intros He Hpost [|e' pre] ev post' r' [= <- Heq] Hev Hr.
  - subst post'. split; [done|]. congruence.
  - subst post. apply Forall_app in Hpost as [_ Hpost].
    apply Forall_cons in Hpost as [Hstep _].
    apply stepResult_isStep in Hev. congruence.
Qed.

Lemma FailureIsFinal_snoc tr out e :
  isStep e = false -> FailureIsFinal tr out -> FailureIsFinal (tr ++ [e]) out.
Proof.
  intros He Htr pre ev post r Heq Hev Hr.
  destruct post as [|x post _] using rev_ind.
  - apply app_inj_tail in Heq as [_ ->].
    apply stepResult_isStep in Hev. congruence.
  - change (pre ++ ev :: post ++ [x]) with (pre ++ (ev :: post) ++ [x]) in Heq.
    rewrite app_assoc in Heq. apply app_inj_tail in Heq as [-> ->].
    destruct (Htr pre ev post r eq_refl Hev Hr) as [Hpost ->].
    split; [|done]. apply Forall_app. split; [done|]. by constructor.
Qed.

(** The preparations loop: its trace holds preparations only; when it
    returns early, the last preparation returned the non-zero result and
    the ones before it did not fail. *)
Lemma runPreparations_run {W} (env : Env SdmCall W) preparations p gi w :
  let r := run env (Docker.runPreparations preparations p gi) w in
  Forall (fun ev => isPreparation ev = true) (trace r) /\
  match outcome r with
  | Resolved (Some pResult) =>
      code pResult <> 0%Z /\
      exists pre ev, trace r = pre ++ [ev] /\ stepResult ev = Some pResult /\
                     Forall (fun e => failedStep e = false) pre
  | Resolved None => Forall (fun e => failedStep e = false) (trace r)
  | Rejected _ => Forall (fun e => failedStep e = false) (trace r)
  | Unmodelled => False
  end.
Proof.
  revert w. induction preparations as [|prep rest IH]; intros w; simpl.
  - by split.
  - destruct (env _ (RunPreparation prep p gi) w) as [[pResult|e] w1]; simpl.
    + destruct (code pResult =? 0)%Z eqn:Hcode; simpl.
      * specialize (IH w1). simpl in IH. destruct IH as [Hprep IH].
        split; [by constructor|].
        destruct (outcome (run env (Docker.runPreparations rest p gi) w1))
          as [[pr|]|e|]; [| | |done].
        -- destruct IH as (Hpr & pre & ev & -> & Hev & Hpre).
           split; [done|]. eexists (_ :: pre), ev. split; [done|].
           split; [done|]. constructor; [|done].
           unfold failedStep; simpl. by rewrite Hcode.
        -- constructor; [|done]. unfold failedStep; simpl. by rewrite Hcode.
        -- constructor; [|done]. unfold failedStep; simpl. by rewrite Hcode.
      * split; [by repeat constructor|]. apply Z.eqb_neq in Hcode.
        split; [done|]. by exists [], (Ev (RunPreparation prep p gi) (Normal pResult)).
    + split; by repeat constructor.
Qed.

Lemma FailureIsFinal_of_nonfailing tr out :
  Forall (fun e => failedStep e = false) tr -> FailureIsFinal tr out.
Proof.
  intros H. rewrite <- (app_nil_r tr).
  by apply FailureIsFinal_app, FailureIsFinal_nil.
Qed.

Arguments Docker.buildAndPublish : simpl never.

Lemma buildAndPublish_final {W} (env : Env SdmCall W) options gi p w :
  let r := run env (Docker.buildAndPublish options gi p) w in
  FailureIsFinal (trace r) (outcome r).
Proof.
  unfold Docker.buildAndPublish.
  destruct (dockerfileFinder options) as [finder|]; exec_all.
  all: repeat first
    [ apply FailureIsFinal_nil
    | apply FailureIsFinal_cons;
      [unfold failedStep; simpl; by rewrite ?Hcode, ?Hcode0, ?Hcode1|]
    | apply FailureIsFinal_last; [done|by repeat constructor] ].
Qed.

(** When the image-link webhook answered, docker push had returned code
    0, no step had failed, and the acknowledgement decides the result. *)
Lemma buildAndPublish_link {W} (env : Env SdmCall W) options gi p w (linked : bool) :
  let r := run env (Docker.buildAndPublish options gi p) w in
  head (omap webhookAnswer (trace r)) = Some linked ->
  exists pushed,
    omap pushResult (trace r) = [pushed] /\
    cp_code pushed = 0%Z /\
    Forall (fun e => failedStep e = false) (trace r) /\
    outcome r = Resolved (if linked then asGoalResult pushed
                          else {| code := 1; message := Some "Image link failed" |}).
Proof.
  unfold Docker.buildAndPublish.
  destruct (dockerfileFinder options) as [finder|]; exec_all.
  all: try discriminate.
  all: intros _; eexists; split; [reflexivity|].
  all: split; [by apply Z.eqb_eq|].
  all: split; [|done].
  all: repeat constructor; unfold failedStep; simpl;
       by rewrite ?Hcode, ?Hcode0, ?Hcode1.
Qed.

(** The first child process spawned, if any, is docker login with
    [loginArgs]. *)
Lemma buildAndPublish_login {W} (env : Env SdmCall W) options gi p w :
  let r := run env (Docker.buildAndPublish options gi p) w in
  match omap spawnArgs (trace r) with
  | [] => True
  | first :: _ => first = ("docker", Docker.loginArgs options)
  end.
Proof.
  unfold Docker.buildAndPublish.
  destruct (dockerfileFinder options) as [finder|]; exec_all; done.
Qed.

Lemma omap_preparations {A} (f : SdmEvent -> option A) tr :
  (forall ev, isPreparation ev = true -> f ev = None) ->
  Forall (fun ev => isPreparation ev = true) tr ->
  omap f tr = [].
Proof.
  intros Hf. induction 1 as [|ev tr Hev _ IH]; [done|].
  simpl. by rewrite (Hf ev Hev).
Qed.

Lemma webhookAnswer_preparation ev : isPreparation ev = true -> webhookAnswer ev = None.
Proof. by destruct ev as [X [] a]. Qed.

Lemma pushResult_preparation ev : isPreparation ev = true -> pushResult ev = None.
Proof. by destruct ev as [X [] a]. Qed.

Lemma spawnArgs_preparation ev : isPreparation ev = true -> spawnArgs ev = None.
Proof. by destruct ev as [X [] a]. Qed.

(** The action [executeDockerBuild] hands to the project loader. *)
Lemma dockerAction_run {W} (env : Env SdmCall W) preparations options gi p w :
  let prep := run env (Docker.runPreparations preparations p gi) w in
  run env (early ← Docker.runPreparations preparations p gi;
           match early with
           | Some pResult => mret pResult
           | None => Docker.buildAndPublish options gi p
           end) w =
  match outcome prep with
  | Resolved (Some pResult) => mkRun (trace prep) (Resolved pResult) (world prep)
  | Resolved None =>
      let rest := run env (Docker.buildAndPublish options gi p) (world prep) in
      mkRun (trace prep ++ trace rest) (outcome rest) (world rest)
  | Rejected e => mkRun (trace prep) (Rejected e) (world prep)
  | Unmodelled => mkRun (trace prep) Unmodelled (world prep)
  end.
Proof.
  intros prep. rewrite run_mbind. unfold run_seq. fold prep.
  destruct (outcome prep) as [[pResult|]|e|]; simpl; try done.
  by rewrite app_nil_r.
Qed.

Lemma dockerAction_final {W} (env : Env SdmCall W) preparations options gi p w :
  let body := run env (early ← Docker.runPreparations preparations p gi;
                       match early with
                       | Some pResult => mret pResult
                       | None => Docker.buildAndPublish options gi p
                       end) w in
  FailureIsFinal (trace body) (outcome body).
Proof.
  intros body. subst body. rewrite dockerAction_run.
  destruct (runPreparations_run env preparations p gi w) as [_ Hout].
  destruct (outcome (run env (Docker.runPreparations preparations p gi) w))
    as [[pResult|]|e|]; simpl.
  - destruct Hout as (Hcode & pre & ev & -> & Hev & Hpre).
    apply FailureIsFinal_app; [done|]. by apply FailureIsFinal_last.
  - apply FailureIsFinal_app; [done|]. apply buildAndPublish_final.
  - by apply FailureIsFinal_of_nonfailing.
  - done.
Qed.

(** C2.  In any run of [executeDockerBuild], a preparation or a docker
    command (login, build, push) that returned a non-zero exit code is
    followed by no further step of the pipeline (after it the project is
    only released), and its result, with its exit code, is the result of
    the pipeline. *)
Theorem executeDockerBuild_stops_at_failure
    W (env : Env SdmCall W) w preparations options gi pre ev post r :
  trace (run env (Docker.executeDockerBuild preparations options gi) w)
    = pre ++ ev :: post ->
  stepResult ev = Some r ->
  code r <> 0%Z ->
  Forall (fun e => isStep e = false) post /\
  outcome (run env (Docker.executeDockerBuild preparations options gi) w)
    = Resolved r.
Proof.
  revert pre ev post r.
  change (FailureIsFinal
            (trace (run env (Docker.executeDockerBuild preparations options gi) w))
            (outcome (run env (Docker.executeDockerBuild preparations options gi) w))).
  unfold Docker.executeDockerBuild. rewrite doWithProject_run.
  destruct (env _ (LoadProject (gi_id gi) false) w) as [[p|e] w1]; simpl.
  - pose proof (dockerAction_final env preparations options gi p w1) as Hbody.
    simpl in Hbody.
    destruct (outcome (run env _ w1)); simpl.
    + apply FailureIsFinal_cons; [done|]. by apply FailureIsFinal_snoc.
    + apply FailureIsFinal_cons; [done|]. by apply FailureIsFinal_snoc.
    + by apply FailureIsFinal_cons.
  - apply FailureIsFinal_cons; [done|]. apply FailureIsFinal_nil.
Qed.

Lemma executeDockerBuild_stops_at_failure_witness :
  Forall (fun e => isStep e = false)
    [Ev (ReleaseProject sampleProject) (Normal tt)] /\
  outcome (run (scriptedEnv failingPush)
             (Docker.executeDockerBuild ["npm-install"] dockerHub sampleInvocation) tt)
    = Resolved (asGoalResult (exitCode 125)).
Proof.
  apply (executeDockerBuild_stops_at_failure unit (scriptedEnv failingPush) tt
           ["npm-install"] dockerHub sampleInvocation
           [Ev (LoadProject sampleRepoRef false) (Normal sampleProject);
            Ev (RunPreparation "npm-install" sampleProject sampleInvocation)
               (Normal Success);
            Ev (ImageNameCreator sampleProject sampleGoal dockerHub)
               (Normal {| image_registry := "docker.io";
                          image_name := "sdm-core";
                          image_version := "1.2.0-20180704120000" |});
            Ev (SpawnAndWatch "docker" (Docker.loginArgs dockerHub) "/work/sdm-core")
               (Normal (exitCode 0));
            Ev (SpawnAndWatch "docker"
                  ["build"; "."; "-f"; "Dockerfile"; "-t"; sampleImage]
                  "/work/sdm-core")
               (Normal (exitCode 0))]
           (Ev (SpawnAndWatch "docker" ["push"; sampleImage] "/work/sdm-core")
               (Normal (exitCode 125)))
           [Ev (ReleaseProject sampleProject) (Normal tt)]
           (asGoalResult (exitCode 125))).
  - reflexivity.
  - reflexivity.
  - simpl. lia.
Defined.

Lemma dockerAction_link {W} (env : Env SdmCall W) preparations options gi p w
    (linked : bool) :
  let body := run env (early ← Docker.runPreparations preparations p gi;
                       match early with
                       | Some pResult => mret pResult
                       | None => Docker.buildAndPublish options gi p
                       end) w in
  head (omap webhookAnswer (trace body)) = Some linked ->
  exists pushed,
    omap pushResult (trace body) = [pushed] /\
    cp_code pushed = 0%Z /\
    Forall (fun e => failedStep e = false) (trace body) /\
    outcome body = Resolved (if linked then asGoalResult pushed
                             else {| code := 1; message := Some "Image link failed" |}).
Proof.
  intros body. subst body. rewrite dockerAction_run.
  destruct (runPreparations_run env preparations p gi w) as [Hprep Hout].
  pose proof (omap_preparations webhookAnswer _ webhookAnswer_preparation Hprep) as Hw.
  pose proof (omap_preparations pushResult _ pushResult_preparation Hprep) as Hp.
  destruct (outcome (run env (Docker.runPreparations preparations p gi) w))
    as [[pResult|]|e|]; simpl; rewrite ?Hw; try done.
  rewrite !omap_app, Hw, Hp. simpl. intros Hlink.
  destruct (buildAndPublish_link env options gi p _ linked Hlink)
    as (pushed & Hpush & Hcode & Hsteps & Hresult).
  exists pushed. repeat split; try done. by apply Forall_app.
Qed.

(** C4.  In any run of [executeDockerBuild] in which the image-link
    webhook answered, every step before it (docker push included)
    returned exit code 0; if the answer is false the pipeline returns the
    failing result with code 1 and message "Image link failed", and if it
    is true the pipeline returns the result of docker push unchanged. *)
Theorem executeDockerBuild_image_link
    W (env : Env SdmCall W) w preparations options gi (linked : bool) :
  let r := run env (Docker.executeDockerBuild preparations options gi) w in
  head (omap webhookAnswer (trace r)) = Some linked ->
  exists pushed,
    omap pushResult (trace r) = [pushed] /\
    cp_code pushed = 0%Z /\
    Forall (fun e => failedStep e = false) (trace r) /\
    outcome r = Resolved (if linked then asGoalResult pushed
                          else {| code := 1; message := Some "Image link failed" |}).
Proof.
  intros r. subst r. unfold Docker.executeDockerBuild. rewrite doWithProject_run.
  destruct (env _ (LoadProject (gi_id gi) false) w) as [[p|e] w1]; simpl; [|done].
  pose proof (dockerAction_link env preparations options gi p w1 linked) as Hbody.
  simpl in Hbody.
  destruct (outcome (run env _ w1)) as [res|e|] eqn:Hout; simpl;
    rewrite ?omap_app; simpl; rewrite ?app_nil_r; intros Hlink;
    destruct (Hbody Hlink) as (pushed & Hpush & Hcode & Hsteps & Hresult);
    try discriminate.
  exists pushed. repeat split; try done.
  constructor; [done|]. apply Forall_app. split; [done|]. by repeat constructor.
Qed.

Lemma executeDockerBuild_image_link_witness :
  outcome (run (scriptedEnv unacknowledged)
             (Docker.executeDockerBuild ["npm-install"] dockerHub sampleInvocation) tt)
    = Resolved {| code := 1; message := Some "Image link failed" |} /\
  outcome (run (scriptedEnv nominal)
             (Docker.executeDockerBuild ["npm-install"] dockerHub sampleInvocation) tt)
    = Resolved (asGoalResult (exitCode 0)).
Proof.
  split.
  - destruct (executeDockerBuild_image_link unit (scriptedEnv unacknowledged) tt
                ["npm-install"] dockerHub sampleInvocation false eq_refl)
      as (pushed & Hpush & _ & _ & Hout).
    exact Hout.
  - destruct (executeDockerBuild_image_link unit (scriptedEnv nominal) tt
                ["npm-install"] dockerHub sampleInvocation true eq_refl)
      as (pushed & Hpush & _ & _ & Hout).
    injection Hpush as <-. exact Hout.
Defined.

(** C7, amended.  In any run of [executeDockerBuild] the first child
    process spawned is docker login with the argument list [loginArgs].
    That list is the five fixed arguments followed by the registry exactly
    when the registry contains a character outside [A-Za-z0-9], and the
    five fixed arguments alone otherwise.  Both "docker.io" and
    "my-registry.example.com:5000" contain such a character and are passed
    explicitly; a registry such as "atomist" is omitted. *)
Theorem executeDockerBuild_login_registry :
  (forall W (env : Env SdmCall W) w preparations options gi,
     match omap spawnArgs
             (trace (run env (Docker.executeDockerBuild preparations options gi) w)) with
     | [] => True
     | first :: _ => first = ("docker", Docker.loginArgs options)
     end) /\
  (forall options,
     let fixed := ["login"; "--username"; user options;
                   "--password"; password options] in
     (Docker.loginArgs options = fixed ++ [registry options] <->
      exists c, In c (list_ascii_of_string (registry options)) /\
                isAlphanumeric c = false) /\
     (Docker.loginArgs options = fixed <->
      forall c, In c (list_ascii_of_string (registry options)) ->
                isAlphanumeric c = true)) /\
  last (Docker.loginArgs dockerHub) = Some "docker.io" /\
  last (Docker.loginArgs privateRegistry) = Some "my-registry.example.com:5000" /\
  Docker.loginArgs bareName = ["login"; "--username"; "atomist"; "--password"; "s3cret"].
Proof.
  split; [|split; [apply loginArgs_cases|by repeat split]].
  intros W env w preparations options gi.
  unfold Docker.executeDockerBuild. rewrite doWithProject_run.
  destruct (env _ (LoadProject (gi_id gi) false) w) as [[p|e] w1]; simpl; [|done].
  rewrite dockerAction_run.
  destruct (runPreparations_run env preparations p gi w1) as [Hprep _].
  pose proof (omap_preparations spawnArgs _ spawnArgs_preparation Hprep) as Hs.
  set (prep := run env (Docker.runPreparations preparations p gi) w1) in *.
  pose proof (buildAndPublish_login env options gi p (world prep)) as Hlogin.
  cbv zeta in Hlogin.
  set (rest := run env (Docker.buildAndPublish options gi p) (world prep)) in *.
  clearbody rest. clearbody prep. unfold omap in Hs, Hlogin.
  destruct (outcome prep) as [[pResult|]|e|]; simpl;
    rewrite ?omap_app; unfold omap; rewrite ?Hs; simpl; try done.
  destruct (outcome rest); simpl; rewrite ?omap_app; unfold omap; rewrite ?Hs;
    simpl; by destruct (list_omap _ _ spawnArgs (trace rest)).
Qed.

(* ===================================================================== *)
(** ** The build lifecycle *)
(* ===================================================================== *)

(** [onExit] never throws and never leaves the model: whatever the status
    updater, the tag creation or the artifact link do, its outcome is a
    normal return. *)
Lemma onExit_resolves {W} (env : Env SdmCall W) creds id success push rb
    buildNo teamId w :
  outcome (run env (LocalBuilder.onExit creds id success push rb buildNo teamId) w)
    = Resolved tt.
Proof.
  unfold LocalBuilder.onExit, LocalBuilder.createBuildTag, LocalBuilder.linkArtifact,
    Tagging.createTagForStatus.
  destruct success; [destruct (deploymentUnitFile rb) as [file|]|].
  all: exec_all; try done.
  by destruct a.
Qed.


Opaque LocalBuilder.onExit.


(** The outcome of the inner [try] once the running build has settled. *)
Lemma awaitBuild_outcome {W} (env : Env SdmCall W) creds id push rb buildNumber
    atomistTeam w :
  outcome (run env (LocalBuilder.awaitBuild creds id push rb buildNumber atomistTeam) w)
    = match buildResult rb with
      | Fulfills br =>
          Resolved (if cp_error br
                    then {| code := 1; message := cp_message br |}
                    else Success)
      | Rejects err => Resolved (failure err)
      end.
Proof.
  unfold LocalBuilder.awaitBuild.
  destruct (buildResult rb) as [br|err]; simpl.
  - rewrite run_try_catch, ?run_mbind, ?run_Prog_bind. unfold run_catch, run_seq.
    by rewrite onExit_resolves.
  - rewrite ?run_mbind, ?run_Prog_bind. unfold run_seq. by rewrite onExit_resolves.
Qed.

Opaque LocalBuilder.awaitBuild.


(** The allocation issues no status update and does not start a build. *)
Lemma obtainBuildIdentifier_quiet {W} (env : Env SdmCall W) push w :
  omap statusUpdate (trace (run env (LocalBuilder.obtainBuildIdentifier push) w)) = [] /\
  omap startBuildCompletion
    (trace (run env (LocalBuilder.obtainBuildIdentifier push) w)) = [].
Proof.
  unfold LocalBuilder.obtainBuildIdentifier. exec_all; [|done].
  destruct (bumpIdentifier _); simpl; [|done].
  by destruct (env _ _ _) as [[]].
Qed.






Transparent LocalBuilder.onExit LocalBuilder.awaitBuild.


(* ===================================================================== *)
(** ** Errors of collaborators *)
(* ===================================================================== *)

Section CollaboratorErrors.

Context {W : Type} (env : Env SdmCall W).

Lemma ends_ret {R} (x : R) w :
  EndsWithResultOrCollaboratorError (run env (mret x) w).
Proof. done. Qed.

Lemma ends_call {X} (c : SdmCall X) w :
  EndsWithResultOrCollaboratorError (run env (call c) w).
Proof.
  unfold EndsWithResultOrCollaboratorError. simpl.
  destruct (env X c w) as [[x|e] w1]; simpl; [done|].
  destruct c; simpl; apply list_elem_of_here.
Qed.

Lemma ends_tell {X} (c : SdmCall X) w :
  EndsWithResultOrCollaboratorError (run env (tell c) w).
Proof. done. Qed.

Lemma ends_bind {A B} (m : SdmProg A) (f : A -> SdmProg B) w :
  EndsWithResultOrCollaboratorError (run env m w) ->
  (forall a w', EndsWithResultOrCollaboratorError (run env (f a) w')) ->
  EndsWithResultOrCollaboratorError (run env (m ≫= f) w).
Proof.
  unfold EndsWithResultOrCollaboratorError. intros Hm Hf.
  rewrite run_mbind. unfold run_seq.
  destruct (run env m w) as [tr [a|e|] w1]; simpl in *; [|done|done].
  specialize (Hf a w1).
  destruct (run env (f a) w1) as [tr' [b|e|] w2]; simpl in *; [done| |done].
  rewrite omap_app. apply elem_of_app. by right.
Qed.

Lemma ends_doWithProject {R} id readOnly (action : GitProject -> SdmProg R) w :
  (forall p w', EndsWithResultOrCollaboratorError (run env (action p) w')) ->
  EndsWithResultOrCollaboratorError (run env (doWithProject id readOnly action) w).
Proof.
  unfold EndsWithResultOrCollaboratorError. intros Haction.
  rewrite doWithProject_run.
  destruct (env _ (LoadProject id readOnly) w) as [[p|e] w1]; simpl.
  - specialize (Haction p w1).
    destruct (run env (action p) w1) as [tr [r|e|] w2]; simpl in *; [done| |done].
    rewrite omap_app. apply elem_of_app. by left.
  - apply list_elem_of_here.
Qed.

End CollaboratorErrors.

(* ===================================================================== *)
(** ** The fingerprint listeners *)
(* ===================================================================== *)

Lemma promiseAll_rejects {X} (ps : list (Promise X)) e :
  promiseAll ps = Rejects e -> Rejects e ∈ ps.
Proof.
  induction ps as [|[x|e'] ps IH]; simpl; [done| |].
  - destruct (promiseAll ps); [done|]. intros [= ->].
    apply list_elem_of_further. by apply IH.
  - intros [= ->]. apply list_elem_of_here.
Qed.

Section Listeners.

Context {W : Type} (env : Env SdmCall W).

(** One listener, every fingerprint: [fingerprints.map(fingerprint => l({...}))]. *)
Lemma invokeListener_run l gi channels fingerprints w :
  let r := run env (mapM (fun fingerprint =>
                            invoke (InvokeListener l gi channels fingerprint))
                         fingerprints) w in
  match outcome r with
  | Resolved ps =>
      omap notification (trace r) = map (pair l) fingerprints /\
      (forall e, Rejects e ∈ ps -> e ∈ omap failureOf (trace r)) /\
      Forall (fun ev => listenerThrew ev = false) (trace r)
  | Rejected e =>
      e ∈ omap failureOf (trace r) /\
      Exists (fun ev => listenerThrew ev = true) (trace r)
  | Unmodelled => False
  end.
Proof.
  revert w. induction fingerprints as [|fp fps IH]; intros w; simpl.
  - split; [done|]. split; [|done]. by intros e ?%elem_of_nil.
  - destruct (env _ (InvokeListener l gi channels fp) w) as [[p|e] w1]; simpl.
    + run_binds. unfold run_seq.
      specialize (IH w1). simpl in IH.
      destruct (run env (mapM _ fps) w1) as [tr [ps|e|] w2]; simpl in *; fold_omap;
        [| |done].
      * destruct IH as (Hn & Hrej & Hthrew). split; [by rewrite app_nil_r, Hn|].
        rewrite app_nil_r. split; [|by constructor].
        intros e [<-|Hin]%elem_of_cons.
        -- apply list_elem_of_here.
        -- destruct p; [by apply Hrej|]. apply list_elem_of_further. by apply Hrej.
      * destruct IH as (Hin & Hex). split; [|by apply Exists_cons_tl].
        destruct p; [done|]. by apply list_elem_of_further.
    + split; [apply list_elem_of_here|]. by apply Exists_cons_hd.
Qed.

(** Every listener, every fingerprint. *)
Lemma notifyListeners_run listeners fingerprints gi cri w :
  let r := run env (Fingerprinting.notifyListeners listeners fingerprints gi cri) w in
  match outcome r with
  | Resolved qs =>
      omap notification (trace r) = list_prod listeners fingerprints /\
      (forall e, Rejects e ∈ qs -> e ∈ omap failureOf (trace r)) /\
      Forall (fun ev => listenerThrew ev = false) (trace r)
  | Rejected e =>
      e ∈ omap failureOf (trace r) /\
      Exists (fun ev => listenerThrew ev = true) (trace r)
  | Unmodelled => False
  end.
Proof.
  unfold Fingerprinting.notifyListeners.
  revert w. induction listeners as [|l ls IH]; intros w; simpl.
  - split; [done|]. split; [|done]. by intros e ?%elem_of_nil.
  - run_binds. run_binds. unfold run_seq at 2.
    pose proof (invokeListener_run l gi (cri_addressChannels cri) fingerprints w)
      as Hl. simpl in Hl.
    destruct (run env (mapM _ fingerprints) w) as [tr [ps|e|] w1]; simpl in *;
      fold_omap; [| |done].
    + unfold run_seq; simpl. run_binds. unfold run_seq.
      specialize (IH w1). simpl in IH.
      destruct (run env (mapM _ ls) w1) as [tr' [qs|e|] w2]; simpl in *; fold_omap;
        [| |done].
      * destruct Hl as (Hn & Hrej & Hthrew). destruct IH as (Hn' & Hrej' & Hthrew').
        rewrite !app_nil_r, !omap_app, Hn, Hn'. split; [done|].
        split; [|by apply Forall_app].
        intros e [Hin|Hin]%elem_of_cons; apply elem_of_app.
        -- left. by apply Hrej, promiseAll_rejects.
        -- right. by apply Hrej'.
      * destruct Hl as (_ & _ & Hthrew). destruct IH as (Hin & Hex).
        rewrite !app_nil_r, omap_app. split.
        -- apply elem_of_app. by right.
        -- apply Exists_app. by right.
    + unfold run_seq; simpl. by rewrite ?app_nil_r.
Qed.

End Listeners.

Opaque Fingerprinting.notifyListeners.

Lemma fingerprintProject_notifies {W} (env : Env SdmCall W) fingerprinters
    listeners gi project w fingerprints :
  let r := run env (Fingerprinting.fingerprintProject fingerprinters listeners
                      gi project) w in
  head (omap computedFingerprints (trace r)) = Some fingerprints ->
  Forall (fun ev => listenerThrew ev = false) (trace r) ->
  omap notification (trace r) = list_prod listeners fingerprints.
Proof.
  unfold Fingerprinting.fingerprintProject. exec_all; try discriminate.
  intros [= ->]. run_binds. unfold run_seq.
  match goal with
  | |- context [run env (Fingerprinting.notifyListeners ?ls ?fps ?g ?c) ?w'] =>
      pose proof (notifyListeners_run env ls fps g c w') as Hn; simpl in Hn;
      destruct (run env (Fingerprinting.notifyListeners ls fps g c) w')
        as [tr [qs|e|] w3]
  end; simpl in *; fold_omap; [| |done].
  - destruct Hn as (Hn & _ & _). intros _.
    destruct (promiseAll qs); simpl; by rewrite app_nil_r.
  - destruct Hn as (_ & Hex). intros Hall.
    apply Exists_exists in Hex as (ev & Hin & Hev).
    repeat apply Forall_cons in Hall as [_ Hall].
    rewrite Forall_forall in Hall. rewrite (Hall ev Hin) in Hev. discriminate.
Qed.

Lemma fingerprintProject_ends {W} (env : Env SdmCall W) fingerprinters
    listeners gi project w :
  EndsWithResultOrCollaboratorError
    (run env (Fingerprinting.fingerprintProject fingerprinters listeners gi project) w).
Proof.
  unfold Fingerprinting.fingerprintProject.
  apply ends_bind; [apply ends_call|]. intros cri w1.
  apply ends_bind; [apply ends_call|]. intros relevant w2.
  apply ends_bind; [apply ends_tell|]. intros _ w3.
  apply ends_bind; [apply ends_call|]. intros fingerprints w4.
  unfold EndsWithResultOrCollaboratorError. rewrite run_mbind. unfold run_seq.
  pose proof (notifyListeners_run env listeners fingerprints gi cri w4) as Hn.
  simpl in Hn.
  destruct (run env (Fingerprinting.notifyListeners listeners fingerprints gi cri) w4)
    as [tr [qs|e|] w5]; simpl in *; fold_omap; [| |done].
  - destruct Hn as (_ & Hrej & _).
    destruct (promiseAll qs) as [xs|e] eqn:Hall; simpl; [done|].
    rewrite app_nil_r. by apply Hrej, promiseAll_rejects.
  - by destruct Hn.
Qed.

Transparent Fingerprinting.notifyListeners.

Opaque Fingerprinting.fingerprintProject doWithProject.

(** C8.  In any run of [executeFingerprinting] in which the fingerprints
    were computed and no listener threw synchronously, the listeners are
    invoked with exactly the pairs of a listener and a fingerprint,
    listener by listener; this holds whichever of the promises they return
    are rejected, so the rejection of one notification does not keep a
    remaining pair from being notified. *)
Theorem executeFingerprinting_notifies_every_pair
    W (env : Env SdmCall W) w fingerprinters listeners gi fingerprints :
  let r := run env (Fingerprinting.executeFingerprinting fingerprinters listeners gi) w in
  head (omap computedFingerprints (trace r)) = Some fingerprints ->
  Forall (fun ev => listenerThrew ev = false) (trace r) ->
  omap notification (trace r) = list_prod listeners fingerprints.
Proof.
  unfold Fingerprinting.executeFingerprinting.
  destruct (length fingerprinters =? 0)%nat; simpl; [discriminate|].
  run_binds. unfold run_seq. rewrite doWithProject_run.
  destruct (env _ (LoadProject (gi_id gi) true) _) as [[project|e] w1]; simpl;
    [|discriminate].
  match goal with
  | |- context [run env (Fingerprinting.fingerprintProject ?fs ?ls ?g ?p) ?w'] =>
      pose proof (fingerprintProject_notifies env fs ls g p w' fingerprints) as Hbody;
      simpl in Hbody;
      destruct (run env (Fingerprinting.fingerprintProject fs ls g p) w')
        as [tr [[]|e|] w2]
  end; simpl in *; fold_omap.
  - rewrite !app_nil_r, !omap_app. simpl. rewrite !app_nil_r.
    intros Hfps Hall. apply Hbody; [done|].
    apply Forall_cons in Hall as [_ Hall]. apply Forall_cons in Hall as [_ Hall].
    by apply Forall_app in Hall as [Hall _].
  - rewrite !omap_app. simpl. rewrite !app_nil_r.
    intros Hfps Hall. apply Hbody; [done|].
    apply Forall_cons in Hall as [_ Hall]. apply Forall_cons in Hall as [_ Hall].
    by apply Forall_app in Hall as [Hall _].
  - intros Hfps Hall. apply Hbody; [done|].
    apply Forall_cons in Hall as [_ Hall]. by apply Forall_cons in Hall as [_ Hall].
Qed.

Lemma executeFingerprinting_notifies_every_pair_witness :
  omap notification
    (trace (run (scriptedEnv rejectingListener)
              (Fingerprinting.executeFingerprinting ["npm-deps"] ["slack"; "audit"]
                 sampleInvocation) tt))
    = [("slack", {| fp_name := "dependencies"; fp_sha := "1f0e3d" |});
       ("slack", {| fp_name := "license"; fp_sha := "9a7c55" |});
       ("audit", {| fp_name := "dependencies"; fp_sha := "1f0e3d" |});
       ("audit", {| fp_name := "license"; fp_sha := "9a7c55" |})] /\
  omap failureOf
    (trace (run (scriptedEnv rejectingListener)
              (Fingerprinting.executeFingerprinting ["npm-deps"] ["slack"; "audit"]
                 sampleInvocation) tt))
    = [mkError "channel_not_found"].
Proof.
  split; [|vm_compute; reflexivity].
  apply (executeFingerprinting_notifies_every_pair unit (scriptedEnv rejectingListener)
           tt ["npm-deps"] ["slack"; "audit"] sampleInvocation sampleFingerprints).
  - vm_compute. reflexivity.
  - vm_compute. repeat constructor.
Defined.

Transparent Fingerprinting.fingerprintProject doWithProject.

(** The hypothesis on synchronous throws is needed: a listener that
    throws instead of returning a promise ends the two maps, and the pairs
    after it are not notified. *)
Example synchronous_throw_ends_the_maps :
  omap notification
    (trace (run (scriptedEnv throwingListener)
              (Fingerprinting.executeFingerprinting ["npm-deps"] ["slack"; "audit"]
                 sampleInvocation) tt))
    = [("slack", {| fp_name := "dependencies"; fp_sha := "1f0e3d" |})].
Proof. vm_compute. reflexivity. Qed.

(* ===================================================================== *)
(** ** What the steps do with errors *)
(* ===================================================================== *)

Lemma ends_without_failure {W R} (r : Run SdmCall W R) :
  EndsWithResultOrCollaboratorError r ->
  omap failureOf (trace r) = [] ->
  exists x, outcome r = Resolved x.
Proof.
  unfold EndsWithResultOrCollaboratorError.
  destruct (outcome r) as [x|e|]; [eauto| |done].
  intros Hin Hnil. rewrite Hnil in Hin. by apply elem_of_nil in Hin.
Qed.

Section Steps.

Context {W : Type} (env : Env SdmCall W).

Lemma ends_executeFingerprinting fingerprinters listeners gi w :
  EndsWithResultOrCollaboratorError
    (run env (Fingerprinting.executeFingerprinting fingerprinters listeners gi) w).
Proof.
  unfold Fingerprinting.executeFingerprinting.
  destruct (length fingerprinters =? 0)%nat; [apply ends_ret|].
  apply ends_bind; [apply ends_tell|]. intros _ w1.
  apply ends_bind; [|intros; apply ends_ret].
  apply ends_doWithProject. intros. apply fingerprintProject_ends.
Qed.

Lemma ends_createTagForStatus id sha message version creds w :
  EndsWithResultOrCollaboratorError
    (run env (Tagging.createTagForStatus id sha message version creds) w).
Proof.
  unfold Tagging.createTagForStatus.
  apply ends_bind; [apply ends_call|]. intros date w1.
  apply ends_bind; [apply ends_call|]. intros _ w2. apply ends_call.
Qed.

Lemma ends_executeTag gi w :
  EndsWithResultOrCollaboratorError (run env (Tagging.executeTag gi) w).
Proof.
  unfold Tagging.executeTag. apply ends_doWithProject. intros p w1.
  apply ends_bind; [apply ends_call|]. intros version w2.
  apply ends_bind; [apply ends_createTagForStatus|]. intros. apply ends_ret.
Qed.

Lemma ends_runPreparations preparations p gi w :
  EndsWithResultOrCollaboratorError
    (run env (Docker.runPreparations preparations p gi) w).
Proof.
  revert w. induction preparations as [|prep rest IH]; intros w.
  - apply ends_ret.
  - change (Docker.runPreparations (prep :: rest) p gi)
      with (pResult ← call (RunPreparation prep p gi);
            if negb (code pResult =? 0)%Z then mret (Some pResult)
            else Docker.runPreparations rest p gi).
    apply ends_bind; [apply ends_call|]. intros pResult w1.
    destruct (negb _); [apply ends_ret|apply IH].
Qed.

Lemma ends_buildAndPublish options gi p w :
  EndsWithResultOrCollaboratorError
    (run env (Docker.buildAndPublish options gi p) w).
Proof.
  unfold Docker.buildAndPublish.
  apply ends_bind; [apply ends_call|]. intros imageName w1.
  apply ends_bind;
    [destruct (dockerfileFinder options); [apply ends_call|apply ends_ret]|].
  intros dockerfilePath w2.
  apply ends_bind; [apply ends_call|]. intros login w3.
  destruct (negb _); [apply ends_ret|].
  apply ends_bind; [apply ends_call|]. intros build w4.
  destruct (negb _); [apply ends_ret|].
  apply ends_bind; [apply ends_call|]. intros push w5.
  destruct (negb _); [apply ends_ret|].
  apply ends_bind; [apply ends_call|]. intros linked w6.
  destruct linked; apply ends_ret.
Qed.

Lemma ends_executeDockerBuild preparations options gi w :
  EndsWithResultOrCollaboratorError
    (run env (Docker.executeDockerBuild preparations options gi) w).
Proof.
  unfold Docker.executeDockerBuild. apply ends_doWithProject. intros p w1.
  apply ends_bind; [apply ends_runPreparations|]. intros [pResult|] w2.
  - apply ends_ret.
  - apply ends_buildAndPublish.
Qed.

End Steps.

(* ===================================================================== *)
(** ** The build lifecycle, run by run *)
(* ===================================================================== *)

Lemma omap_none {A} (f : SdmEvent -> option A) (P : SdmEvent -> bool) tr :
  (forall ev, P ev = true -> f ev = None) ->
  Forall (fun ev => P ev = true) tr ->
  omap f tr = [].
Proof.
  intros Hf. induction 1 as [|ev tr Hev _ IH]; [done|].
  simpl. by rewrite (Hf ev Hev).
Qed.

Opaque LocalBuilder.onExit.

(** The run of the inner [try] of [initiateBuild]: the progress log is
    written, then [onExit] runs; its outcome is decided by the running
    build alone. *)
Lemma awaitBuild_run {W} (env : Env SdmCall W) creds id push rb buildNumber
    atomistTeam w :
  exists pre w1,
    Forall (fun ev => isLogging ev = true) pre /\
    run env (LocalBuilder.awaitBuild creds id push rb buildNumber atomistTeam) w =
    let success := match buildResult rb with
                   | Fulfills br => negb (cp_error br)
                   | Rejects _ => false
                   end in
    let x := run env (LocalBuilder.onExit creds id success push rb buildNumber
                        atomistTeam) w1 in
    mkRun (pre ++ trace x)
          (match buildResult rb with
           | Fulfills br =>
               Resolved (if cp_error br
                         then {| code := 1; message := cp_message br |}
                         else Success)
           | Rejects err => Resolved (failure err)
           end)
          (world x).
Proof.
  unfold LocalBuilder.awaitBuild.
  destruct (buildResult rb) as [br|err]; simpl.
  - eexists [_], _. split; last first.
    { rewrite run_try_catch, ?run_mbind, ?run_Prog_bind. unfold run_catch, run_seq.
      rewrite !onExit_resolves. simpl. unfold cons_event. simpl.
      rewrite app_nil_r. reflexivity. }
    by repeat constructor.
  - eexists [_; _; _], _. split; last first.
    { rewrite ?run_mbind, ?run_Prog_bind. unfold run_seq.
      rewrite !onExit_resolves. simpl. unfold cons_event. simpl.
      rewrite app_nil_r. reflexivity. }
    by repeat constructor.
Qed.

Transparent LocalBuilder.onExit.

(** The trace of an allocation holds the query and the send only. *)
Lemma obtainBuildIdentifier_trace {W} (env : Env SdmCall W) push w :
  Forall (fun ev => isAllocation ev = true)
    (trace (run env (LocalBuilder.obtainBuildIdentifier push) w)).
Proof.
  unfold LocalBuilder.obtainBuildIdentifier. exec_all; [|by repeat constructor].
  destruct (bumpIdentifier _); simpl; [|by repeat constructor].
  destruct (env _ _ _) as [[]]; by repeat constructor.
Qed.

Opaque LocalBuilder.awaitBuild.

(** The shapes of a run of [initiateBuild]: the allocation did not
    return; or [startBuild] threw; or reporting the started status threw;
    or the build was started and awaited. *)
Lemma initiateBuild_run {W} (env : Env SdmCall W) creds id push atomistTeam w :
  let r := run env (LocalBuilder.initiateBuild creds id push atomistTeam) w in
  let alloc := run env (LocalBuilder.obtainBuildIdentifier push) w in
  let noUrl := {| st_repoRef := id; st_url := None; st_team := atomistTeam |} in
  match outcome alloc with
  | Resolved buildNumber =>
      (exists err l1 l2 a,
         isLogging l1 = true /\ isLogging l2 = true /\
         trace r = trace alloc
                   ++ [Ev (StartBuild creds id atomistTeam) (Abrupt err); l1; l2;
                       Ev (UpdateBuildStatus noUrl failed (push_branch push)
                             buildNumber) a] /\
         outcome r = match a with
                     | Normal _ => Resolved (failure err)
                     | Abrupt e => Rejected e
                     end) \/
      (exists rb err l1 l2 a,
         isLogging l1 = true /\ isLogging l2 = true /\
         trace r = trace alloc
                   ++ [Ev (StartBuild creds id atomistTeam) (Normal rb);
                       Ev (UpdateBuildStatus (targetOf rb) started
                             (push_branch push) buildNumber) (Abrupt err);
                       l1; l2;
                       Ev (UpdateBuildStatus noUrl failed (push_branch push)
                             buildNumber) a] /\
         outcome r = match a with
                     | Normal _ => Resolved (failure err)
                     | Abrupt e => Rejected e
                     end) \/
      (exists rb w2,
         let build := run env (LocalBuilder.awaitBuild creds id push rb buildNumber
                                 atomistTeam) w2 in
         trace r = trace alloc
                   ++ Ev (StartBuild creds id atomistTeam) (Normal rb)
                   :: Ev (UpdateBuildStatus (targetOf rb) started
                            (push_branch push) buildNumber) (Normal tt)
                   :: trace build /\
         outcome r = outcome build)
  | Rejected e => trace r = trace alloc /\ outcome r = Rejected e
  | Unmodelled => trace r = trace alloc /\ outcome r = Unmodelled
  end.
Proof.
  intros r alloc noUrl. subst r alloc. unfold LocalBuilder.initiateBuild.
  rewrite run_mbind. unfold run_seq.
  destruct (run env (LocalBuilder.obtainBuildIdentifier push) w)
    as [tr0 [buildNumber|e|] w0]; simpl; [|done|done].
  destruct (env _ (StartBuild creds id atomistTeam) w0) as [[rb|e] w1]; simpl.
  - destruct (env _ (UpdateBuildStatus _ started _ _) w1) as [[[]|e] w2]; simpl.
    + right. right. exists rb, w2. rewrite run_try_catch. unfold run_catch.
      destruct (awaitBuild_run env creds id push rb buildNumber atomistTeam w2)
        as (pre & w3 & _ & ->).
      simpl. by destruct (buildResult rb).
    + right. left. exec_call; simpl; eexists rb, e, _, _, _; by repeat split.
  - left. exec_call; simpl; eexists e, _, _, _; by repeat split.
Qed.

Transparent LocalBuilder.awaitBuild.

(** What [onExit] leaves in a trace. *)
Lemma onExit_trace {W} (env : Env SdmCall W) creds id success push rb buildNo
    teamId w :
  let x := run env (LocalBuilder.onExit creds id success push rb buildNo teamId) w in
  (exists a, omap statusUpdate (trace x)
             = [(targetOf rb, if success then passed else failed,
                 push_branch push, buildNo, a)]) /\
  omap startBuildCompletion (trace x) = [] /\
  omap sentIdentifier (trace x) = [] /\
  BuildTagged creds id push buildNo (trace x) /\
  ArtifactLinked creds rb teamId (trace x) /\
  (success = false ->
   Forall (fun ev => beforeExit ev = true) (trace x)).
Proof.
  unfold LocalBuilder.onExit, LocalBuilder.createBuildTag, LocalBuilder.linkArtifact,
    Tagging.createTagForStatus, BuildTagged, ArtifactLinked.
  destruct success; [destruct (deploymentUnitFile rb) as [file|] eqn:Hfile|].
  all: exec_all.
  all: repeat split; eauto 10.
  all: intros; by repeat constructor.
Qed.

Lemma obtainBuildIdentifier_sent {W} (env : Env SdmCall W) push w buildNumber :
  outcome (run env (LocalBuilder.obtainBuildIdentifier push) w) = Resolved buildNumber ->
  identifier <$> omap sentIdentifier
                   (trace (run env (LocalBuilder.obtainBuildIdentifier push) w))
    = [buildNumber].
Proof.
  unfold LocalBuilder.obtainBuildIdentifier. exec_all; [|done].
  destruct (bumpIdentifier _); simpl; [|done].
  destruct (env _ _ _) as [[]]; simpl; [|done]. by intros [= ->].
Qed.

Lemma statusUpdate_logging ev : isLogging ev = true -> statusUpdate ev = None.
Proof. by destruct ev as [X [] a]. Qed.

Lemma sentIdentifier_logging ev : isLogging ev = true -> sentIdentifier ev = None.
Proof. by destruct ev as [X [] a]. Qed.

(** X1.  The status updates of a run of [initiateBuild] follow one
    protocol.  The statuses issued are none at all (the allocation of the
    build number did not return), failed alone (the build could not be
    started), started then failed, or started then passed; nothing else
    is ever issued, and nothing follows failed or passed.  Every update
    carries the build number that the allocation sent to the message
    client.  The statuses are started then passed exactly when the run
    returns a result with code 0. *)
Theorem initiateBuild_status_protocol
    W (env : Env SdmCall W) w creds id push atomistTeam :
  let r := run env (LocalBuilder.initiateBuild creds id push atomistTeam) w in
  (issuedStatuses (trace r) = [] \/
   issuedStatuses (trace r) = [failed] \/
   issuedStatuses (trace r) = [started; failed] \/
   issuedStatuses (trace r) = [started; passed]) /\
  Forall (fun buildNo =>
            identifier <$> omap sentIdentifier (trace r) = [buildNo])
         (statusBuildNumbers (trace r)) /\
  (issuedStatuses (trace r) = [started; passed] <->
   exists result, outcome r = Resolved result /\ code result = 0%Z).
Proof.
  intros r. subst r.
  pose proof (initiateBuild_run env creds id push atomistTeam w) as Hrun.
  cbv zeta in Hrun.
  destruct (obtainBuildIdentifier_quiet env push w) as [Hstatus _].
  pose proof (obtainBuildIdentifier_sent env push w) as Hsent.
  unfold issuedStatuses, statusBuildNumbers.
  destruct (outcome (run env (LocalBuilder.obtainBuildIdentifier push) w))
    as [buildNumber|e|].
  - specialize (Hsent buildNumber eq_refl).
    destruct Hrun as [(err & l1 & l2 & a & Hl1 & Hl2 & -> & ->)
                     |[(rb & err & l1 & l2 & a & Hl1 & Hl2 & -> & ->)
                      |(rb & w2 & -> & ->)]].
    + rewrite !omap_app, Hstatus, !fmap_app, Hsent. simpl.
      rewrite (statusUpdate_logging l1 Hl1), (statusUpdate_logging l2 Hl2).
      rewrite (sentIdentifier_logging l1 Hl1), (sentIdentifier_logging l2 Hl2).
      simpl.
      split; [auto|]. split; [by repeat constructor|].
      split; [done|]. intros (res & Hres & Hcode). by destruct a; simplify_eq.
    + rewrite !omap_app, Hstatus, !fmap_app, Hsent. simpl.
      rewrite (statusUpdate_logging l1 Hl1), (statusUpdate_logging l2 Hl2).
      rewrite (sentIdentifier_logging l1 Hl1), (sentIdentifier_logging l2 Hl2).
      simpl.
      split; [auto|]. split; [by repeat constructor|].
      split; [done|]. intros (res & Hres & Hcode). by destruct a; simplify_eq.
    + destruct (awaitBuild_run env creds id push rb buildNumber atomistTeam w2)
        as (pre & w3 & Hpre & ->). cbv zeta. cbn [trace outcome].
      match goal with
      | |- context [run env (LocalBuilder.onExit ?c ?i ?s ?p ?b ?n ?t) ?w'] =>
          destruct (onExit_trace env c i s p b n t w')
            as ((a & Hst) & _ & Hsn & _)
      end.
      rewrite !omap_app, !fmap_app, Hstatus, Hsent. simpl. fold_omap.
      rewrite !omap_app, Hst, Hsn.
      rewrite (omap_none statusUpdate isLogging pre statusUpdate_logging Hpre).
      rewrite (omap_none sentIdentifier isLogging pre sentIdentifier_logging Hpre).
      simpl.
      split; [|split; [by repeat constructor|]].
      * destruct (buildResult rb) as [br|]; [destruct (cp_error br)|]; simpl; auto.
      * destruct (buildResult rb) as [br|]; [destruct (cp_error br)|]; simpl.
        -- split; [done|]. intros (res & [= <-] & Hcode). done.
        -- split; [by eexists|done].
        -- split; [done|]. intros (res & [= <-] & Hcode). done.
  - destruct Hrun as [-> ->]. rewrite Hstatus. simpl.
    split; [auto|]. split; [done|]. split; [done|]. by intros (res & ? & _).
  - destruct Hrun as [-> ->]. rewrite Hstatus. simpl.
    split; [auto|]. split; [done|]. split; [done|]. by intros (res & ? & _).
Qed.

Lemma beforeExit_allocation ev : isAllocation ev = true -> beforeExit ev = true.
Proof. by destruct ev as [X [] a]. Qed.

Lemma beforeExit_logging ev : isLogging ev = true -> beforeExit ev = true.
Proof. by destruct ev as [X [] a]. Qed.

Lemma startBuildCompletion_allocation ev :
  isAllocation ev = true -> startBuildCompletion ev = None.
Proof. by destruct ev as [X [] a]. Qed.

Lemma startBuildCompletion_logging ev :
  isLogging ev = true -> startBuildCompletion ev = None.
Proof. by destruct ev as [X [] a]. Qed.

(** A run of [initiateBuild] either never leaves the calls of the
    allocator, of [startBuild], of the status updater and of the logs, or
    it is the start of a build, acknowledged, followed by the exit of a
    passed build. *)
Lemma initiateBuild_cases {W} (env : Env SdmCall W) creds id push atomistTeam w :
  let r := run env (LocalBuilder.initiateBuild creds id push atomistTeam) w in
  Forall (fun ev => beforeExit ev = true) (trace r) \/
  exists pre rb buildNumber w',
    Forall (fun ev => beforeExit ev = true) pre /\
    trace r = pre ++ trace (run env (LocalBuilder.onExit creds id true push rb
                                       buildNumber atomistTeam) w') /\
    omap startBuildCompletion pre = [Normal rb] /\
    identifier <$> omap sentIdentifier pre = [buildNumber] /\
    issuedStatuses pre = [started] /\
    exists br, buildResult rb = Fulfills br /\ cp_error br = false.
Proof.
  intros r. subst r.
  pose proof (initiateBuild_run env creds id push atomistTeam w) as Hrun.
  cbv zeta in Hrun.
  destruct (obtainBuildIdentifier_quiet env push w) as [Hstatus _].
  pose proof (obtainBuildIdentifier_sent env push w) as Hsent.
  pose proof (obtainBuildIdentifier_trace env push w) as Halloc.
  assert (Forall (fun ev => beforeExit ev = true)
            (trace (run env (LocalBuilder.obtainBuildIdentifier push) w))) as Hbefore.
  { eapply Forall_impl; [exact Halloc|]. apply beforeExit_allocation. }
  destruct (outcome (run env (LocalBuilder.obtainBuildIdentifier push) w))
    as [buildNumber|e|].
  - specialize (Hsent buildNumber eq_refl).
    destruct Hrun as [(err & l1 & l2 & a & Hl1 & Hl2 & -> & _)
                     |[(rb & err & l1 & l2 & a & Hl1 & Hl2 & -> & _)
                      |(rb & w2 & -> & _)]].
    + left. apply Forall_app. split; [done|].
      repeat constructor; by apply beforeExit_logging.
    + left. apply Forall_app. split; [done|].
      repeat constructor; by apply beforeExit_logging.
    + destruct (awaitBuild_run env creds id push rb buildNumber atomistTeam w2)
        as (pre & w3 & Hpre & ->). cbv zeta. cbn [trace].
      assert (Forall (fun ev => beforeExit ev = true) pre) as Hpre'.
      { eapply Forall_impl; [exact Hpre|]. apply beforeExit_logging. }
      match goal with
      | |- context [run env (LocalBuilder.onExit ?c ?i ?s ?p ?b ?n ?t) ?w'] =>
          destruct s eqn:Hsuccess
      end.
      * right. exists (trace (run env (LocalBuilder.obtainBuildIdentifier push) w)
                       ++ Ev (StartBuild creds id atomistTeam) (Normal rb)
                       :: Ev (UpdateBuildStatus (targetOf rb) started
                                (push_branch push) buildNumber) (Normal tt)
                       :: pre), rb, buildNumber, w3.
        assert (exists br, buildResult rb = Fulfills br /\ cp_error br = false)
          as Hbr.
        { destruct (buildResult rb) as [br|]; [|done].
          exists br. split; [done|]. by destruct (cp_error br). }
        split; [|split; [|split; [|split; [|split; [|exact Hbr]]]]].
        -- apply Forall_app. split; [done|]. by repeat constructor.
        -- by rewrite <- app_assoc.
        -- rewrite omap_app.
           rewrite (omap_none startBuildCompletion isAllocation _
                      startBuildCompletion_allocation Halloc).
           simpl. fold_omap.
           by rewrite (omap_none startBuildCompletion isLogging _
                         startBuildCompletion_logging Hpre).
        -- rewrite omap_app, fmap_app, Hsent. simpl. fold_omap.
           by rewrite (omap_none sentIdentifier isLogging _
                         sentIdentifier_logging Hpre).
        -- unfold issuedStatuses. rewrite omap_app, Hstatus. simpl. fold_omap.
           by rewrite (omap_none statusUpdate isLogging _
                         statusUpdate_logging Hpre).
      * left. apply Forall_app. split; [done|].
        repeat (apply Forall_cons; split; [done|]).
        apply Forall_app. split; [done|].
        match goal with
        | |- context [run env (LocalBuilder.onExit ?c ?i ?s ?p ?b ?n ?t) ?w'] =>
            by apply (onExit_trace env c i false p b n t w')
        end.
  - left. by destruct Hrun as [-> _].
  - left. by destruct Hrun as [-> _].
Qed.

Lemma createdTag_beforeExit ev : beforeExit ev = true -> createdTag ev = None.
Proof. by destruct ev as [X [] a]. Qed.

Lemma createdTagReference_beforeExit ev :
  beforeExit ev = true -> createdTagReference ev = None.
Proof. by destruct ev as [X [] a]. Qed.

Lemma completedTag_beforeExit ev : beforeExit ev = true -> completedTag ev = None.
Proof. by destruct ev as [X [] a]. Qed.

Lemma readVersion_beforeExit ev : beforeExit ev = true -> readVersion ev = None.
Proof. by destruct ev as [X [] a]. Qed.

Lemma versionQuery_beforeExit ev : beforeExit ev = true -> versionQuery ev = None.
Proof. by destruct ev as [X [] a]. Qed.

Lemma storedFile_beforeExit ev : beforeExit ev = true -> storedFile ev = None.
Proof. by destruct ev as [X [] a]. Qed.

Lemma linkedImage_beforeExit ev : beforeExit ev = true -> linkedImage ev = None.
Proof. by destruct ev as [X [] a]. Qed.

Lemma omap_after {A} (f : SdmEvent -> option A) (P : SdmEvent -> bool) pre tr :
  (forall ev, P ev = true -> f ev = None) ->
  Forall (fun ev => P ev = true) pre ->
  omap f (pre ++ tr) = omap f tr.
Proof. intros Hf Hpre. by rewrite omap_app, (omap_none f P pre Hf Hpre). Qed.

(** X2.  [initiateBuild] creates a tag only for a build that passed.  In
    any run, either no tag object and no tag reference is created, or
    the statuses issued are started then passed and the trace is
    [BuildTagged]: at most one tag object, for the credentials and the
    repository of the invocation, named [<version>+sdm.<buildNo>] with the
    non-empty version that [readSdmVersion] returned for the push and the
    build number allocated, pointing at the sha of the push, with message
    "Tag created by SDM" and tagger Atomist; its reference is created
    only once the creation of the tag object completed, for that same
    tag. *)
Theorem initiateBuild_tags_passed_builds
    W (env : Env SdmCall W) w creds id push atomistTeam :
  let r := run env (LocalBuilder.initiateBuild creds id push atomistTeam) w in
  omap createdTag (trace r) = [] /\ omap createdTagReference (trace r) = [] \/
  exists buildNo,
    identifier <$> omap sentIdentifier (trace r) = [buildNo] /\
    issuedStatuses (trace r) = [started; passed] /\
    BuildTagged creds id push buildNo (trace r).
Proof.
  intros r. subst r.
  destruct (initiateBuild_cases env creds id push atomistTeam w)
    as [Hall|(pre & rb & buildNumber & w' & Hpre & -> & _ & Hsent & Hstatus & _)].
  - left. split.
    + exact (omap_none createdTag beforeExit _ createdTag_beforeExit Hall).
    + exact (omap_none createdTagReference beforeExit _
               createdTagReference_beforeExit Hall).
  - right. exists buildNumber.
    destruct (onExit_trace env creds id true push rb buildNumber atomistTeam w')
      as ((a & Hst) & _ & Hsn & Htag & _).
    split; [|split].
    + by rewrite omap_app, fmap_app, Hsent, Hsn.
    + unfold issuedStatuses in *. by rewrite omap_app, fmap_app, Hstatus, Hst.
    + unfold BuildTagged in *.
      by rewrite (omap_after createdTag beforeExit pre _ createdTag_beforeExit Hpre),
        (omap_after createdTagReference beforeExit pre _
           createdTagReference_beforeExit Hpre),
        (omap_after completedTag beforeExit pre _ completedTag_beforeExit Hpre),
        (omap_after readVersion beforeExit pre _ readVersion_beforeExit Hpre),
        (omap_after versionQuery beforeExit pre _ versionQuery_beforeExit Hpre).
Qed.

(** X3.  [initiateBuild] stores and links an artifact only for a build
    that passed.  In any run, either no file is handed to the artifact
    store and no image-link webhook is posted, or [startBuild] returned a
    running build, the statuses issued are started then passed, and the
    trace is [ArtifactLinked]: at most one file is stored, the non-empty
    deployment unit file of the running build with its app info and the
    credentials of the invocation; the webhook is posted only when the
    store answered, once, with the url it answered, for the owner,
    repository and sha of the running build and the team of the
    context. *)
Theorem initiateBuild_links_passed_builds
    W (env : Env SdmCall W) w creds id push atomistTeam :
  let r := run env (LocalBuilder.initiateBuild creds id push atomistTeam) w in
  omap storedFile (trace r) = [] /\ omap linkedImage (trace r) = [] \/
  exists rb,
    omap startBuildCompletion (trace r) = [Normal rb] /\
    issuedStatuses (trace r) = [started; passed] /\
    ArtifactLinked creds rb atomistTeam (trace r).
Proof.
  intros r. subst r.
  destruct (initiateBuild_cases env creds id push atomistTeam w)
    as [Hall|(pre & rb & buildNumber & w' & Hpre & -> & Hstart & _ & Hstatus & _)].
  - left. split.
    + exact (omap_none storedFile beforeExit _ storedFile_beforeExit Hall).
    + exact (omap_none linkedImage beforeExit _ linkedImage_beforeExit Hall).
  - right. exists rb.
    destruct (onExit_trace env creds id true push rb buildNumber atomistTeam w')
      as ((a & Hst) & Hnostart & _ & _ & Hlink & _).
    split; [|split].
    + by rewrite omap_app, Hstart, Hnostart.
    + unfold issuedStatuses in *. by rewrite omap_app, fmap_app, Hstatus, Hst.
    + unfold ArtifactLinked in *.
      by rewrite (omap_after storedFile beforeExit pre _ storedFile_beforeExit Hpre),
        (omap_after linkedImage beforeExit pre _ linkedImage_beforeExit Hpre).
Qed.

(** X4.  A build that was started, whose started status was acknowledged,
    and whose result reports an error (or whose result promise is
    rejected) ends [initiateBuild] with a failing result: code 1 with the
    message of the build result, or [failure(err)] for the rejection.
    The statuses issued are started then failed; no tag is created, no
    file is stored and no image link is posted. *)
Theorem initiateBuild_run_failure
    W (env : Env SdmCall W) w creds id push atomistTeam rb buildNo :
  let r := run env (LocalBuilder.initiateBuild creds id push atomistTeam) w in
  head (omap startBuildCompletion (trace r)) = Some (Normal rb) ->
  head (omap statusUpdate (trace r))
    = Some (targetOf rb, started, push_branch push, buildNo, Normal tt) ->
  match buildResult rb with
  | Fulfills br => cp_error br = true
  | Rejects _ => True
  end ->
  outcome r = Resolved match buildResult rb with
                       | Fulfills br => {| code := 1; message := cp_message br |}
                       | Rejects err => failure err
                       end /\
  issuedStatuses (trace r) = [started; failed] /\
  omap createdTag (trace r) = [] /\
  omap storedFile (trace r) = [] /\
  omap linkedImage (trace r) = [].
Proof.
  intros r. subst r. intros Hstart Hstarted Hfailed.
  assert (Forall (fun ev => beforeExit ev = true)
            (trace (run env (LocalBuilder.initiateBuild creds id push atomistTeam) w)))
    as Hall.
  { destruct (initiateBuild_cases env creds id push atomistTeam w)
      as [Hall|(pre & rb' & buildNumber & w' & Hpre & Heq & Hs & _ & _ & br & Hbr & Herr)];
      [done|].
    rewrite Heq, omap_app, Hs in Hstart. injection Hstart as ->.
    rewrite Hbr in Hfailed. congruence. }
  split; [|split; [|split; [|split]]].
  3: exact (omap_none createdTag beforeExit _ createdTag_beforeExit Hall).
  3: exact (omap_none storedFile beforeExit _ storedFile_beforeExit Hall).
  3: exact (omap_none linkedImage beforeExit _ linkedImage_beforeExit Hall).
  all: clear Hall.
  all: pose proof (initiateBuild_run env creds id push atomistTeam w) as Hrun.
  all: cbv zeta in Hrun.
  all: destruct (obtainBuildIdentifier_quiet env push w) as [Hstatus Hnostart].
  all: unfold issuedStatuses.
  all: destruct (outcome (run env (LocalBuilder.obtainBuildIdentifier push) w))
         as [buildNumber|e|];
       [|destruct Hrun as [Htr _]; by rewrite Htr, Hnostart in Hstart
        |destruct Hrun as [Htr _]; by rewrite Htr, Hnostart in Hstart].
  all: destruct Hrun as [(err & l1 & l2 & a & Hl1 & Hl2 & Htr & Hout)
                        |[(rb' & err & l1 & l2 & a & Hl1 & Hl2 & Htr & Hout)
                         |(rb' & w2 & Htr & Hout)]].
  all: rewrite Htr, omap_app, Hnostart in Hstart.
  all: rewrite Htr, omap_app, Hstatus in Hstarted.
  all: try (simpl in Hstart; discriminate).
  all: try (simpl in Hstarted; discriminate).
  all: simpl in Hstart; injection Hstart as ->.
  all: rewrite ?Hout, ?Htr; clear Hout Htr.
  all: destruct (awaitBuild_run env creds id push rb buildNumber atomistTeam w2)
         as (pre & w3 & Hpre & ->); cbv zeta; cbn [trace outcome].
  - by destruct (buildResult rb) as [br|]; [rewrite Hfailed|].
  - match goal with
    | |- context [run env (LocalBuilder.onExit ?c ?i ?s ?p ?b ?n ?t) ?w'] =>
        destruct (onExit_trace env c i s p b n t w') as ((a & Hst) & _)
    end.
    rewrite omap_app, Hstatus. simpl. fold_omap.
    rewrite omap_app, Hst.
    rewrite (omap_none statusUpdate isLogging pre statusUpdate_logging Hpre).
    simpl. by destruct (buildResult rb) as [br|]; [rewrite Hfailed|].
Qed.

Lemma initiateBuild_run_failure_witness :
  outcome (run (scriptedEnv failingBuild)
             (LocalBuilder.initiateBuild "token" sampleRepoRef samplePush "T1") tt)
    = Resolved {| code := 1; message := Some "Tests failed" |} /\
  issuedStatuses
    (trace (run (scriptedEnv failingBuild)
              (LocalBuilder.initiateBuild "token" sampleRepoRef samplePush "T1") tt))
    = [started; failed].
Proof.
  pose proof (initiateBuild_run_failure unit (scriptedEnv failingBuild) tt
                "token" sampleRepoRef samplePush "T1"
                (sampleBuild (Fulfills {| cp_error := true; cp_code := 2;
                                          cp_message := Some "Tests failed" |}))
                "1" eq_refl eq_refl eq_refl) as H.
  split; [exact (proj1 H)|exact (proj1 (proj2 H))].
Defined.

(** X5.  [initiateBuild] rejects in two situations only: the allocation of
    the build number rejected with that error, or the last status update
    issued is the one of the start-failure handler (failed, without url,
    for the repository and team of the invocation) and it threw that
    error.  No failure of the build itself, of [onExit], of the tag or of
    the artifact link makes it reject. *)
Theorem initiateBuild_rejections
    W (env : Env SdmCall W) w creds id push atomistTeam e :
  let r := run env (LocalBuilder.initiateBuild creds id push atomistTeam) w in
  outcome r = Rejected e ->
  outcome (run env (LocalBuilder.obtainBuildIdentifier push) w) = Rejected e \/
  exists buildNo,
    last (omap statusUpdate (trace r))
      = Some ({| st_repoRef := id; st_url := None; st_team := atomistTeam |},
              failed, push_branch push, buildNo, Abrupt e).
Proof.
  intros r. subst r. intros Hrejected.
  pose proof (initiateBuild_run env creds id push atomistTeam w) as Hrun.
  cbv zeta in Hrun.
  destruct (outcome (run env (LocalBuilder.obtainBuildIdentifier push) w))
    as [buildNumber|e'|].
  - right. exists buildNumber.
    destruct Hrun as [(err & l1 & l2 & a & Hl1 & Hl2 & Htr & Hout)
                     |[(rb & err & l1 & l2 & a & Hl1 & Hl2 & Htr & Hout)
                      |(rb & w2 & Htr & Hout)]].
    + rewrite Hout in Hrejected. destruct a as [|e']; [done|].
      injection Hrejected as ->.
      rewrite Htr, omap_app. simpl.
      rewrite (statusUpdate_logging l1 Hl1), (statusUpdate_logging l2 Hl2).
      by rewrite last_snoc.
    + rewrite Hout in Hrejected. destruct a as [|e']; [done|].
      injection Hrejected as ->.
      rewrite Htr, omap_app. simpl.
      rewrite (statusUpdate_logging l1 Hl1), (statusUpdate_logging l2 Hl2).
      change (last (?l ++ [?x; ?y])) with (last (l ++ [x] ++ [y])).
      by rewrite app_assoc, last_snoc.
    + destruct (awaitBuild_run env creds id push rb buildNumber atomistTeam w2)
        as (pre & w3 & Hpre & Heq).
      rewrite Hout, Heq in Hrejected. cbv zeta in Hrejected.
      by destruct (buildResult rb).
  - left. destruct Hrun as [_ Hout]. congruence.
  - destruct Hrun as [_ Hout]. congruence.
Qed.

Lemma initiateBuild_rejections_witness :
  outcome (run (scriptedEnv failingStatus)
             (LocalBuilder.initiateBuild "token" sampleRepoRef samplePush "T1") tt)
    = Rejected (mkError "ECONNRESET") /\
  (outcome (run (scriptedEnv failingStatus)
              (LocalBuilder.obtainBuildIdentifier samplePush) tt)
     = Rejected (mkError "ECONNRESET") \/
   exists buildNo,
     last (omap statusUpdate
             (trace (run (scriptedEnv failingStatus)
                       (LocalBuilder.initiateBuild "token" sampleRepoRef samplePush
                          "T1") tt)))
       = Some ({| st_repoRef := sampleRepoRef; st_url := None; st_team := "T1" |},
               failed, "master", buildNo, Abrupt (mkError "ECONNRESET"))).
Proof.
  split; [reflexivity|].
  exact (initiateBuild_rejections unit (scriptedEnv failingStatus) tt
           "token" sampleRepoRef samplePush "T1" (mkError "ECONNRESET") eq_refl).
Defined.


(* ===================================================================== *)
(** ** executeTag, run by run *)
(* ===================================================================== *)

(** X6.  When [executeTag] returns, its result is Success, the project was
    loaded read-only, the version was read once for the owner, name,
    provider and sha of the status commit and the branch of the
    repository reference, and exactly one tag object was created, then
    its reference: the tag is named exactly the version read (there is no
    check that it is non-empty), carries the message and the sha of the
    status commit, type "commit" and tagger Atomist. *)
Theorem executeTag_returns W (env : Env SdmCall W) w gi result :
  let r := run env (Tagging.executeTag gi) w in
  let commit := status_commit gi in
  outcome r = Resolved result ->
  result = Success /\
  omap loadedProject (trace r) = [(gi_id gi, true)] /\
  omap versionQuery (trace r)
    = [(commit_owner commit, commit_name commit, commit_providerId commit,
        commit_sha commit, rr_branch (gi_id gi))] /\
  exists version date,
    omap readVersion (trace r) = [version] /\
    omap createdTag (trace r)
      = [(credentials gi, gi_id gi,
          {| tag := version;
             tag_message := commit_message commit;
             tag_object := commit_sha commit;
             tag_type := "commit";
             tagger := {| tagger_name := "Atomist";
                          tagger_email := "info@atomist.com";
                          tagger_date := date |} |})] /\
    omap createdTagReference (trace r) = omap createdTag (trace r).
Proof.
  unfold Tagging.executeTag, doWithProject, Tagging.createTagForStatus.
  exec_all; try discriminate.
  intros [= <-]. repeat split; eauto.
Qed.

Lemma executeTag_returns_witness :
  outcome (run (scriptedEnv nominal) (Tagging.executeTag sampleInvocation) tt)
    = Resolved Success /\
  omap createdTagReference
    (trace (run (scriptedEnv nominal) (Tagging.executeTag sampleInvocation) tt))
    = omap createdTag
        (trace (run (scriptedEnv nominal) (Tagging.executeTag sampleInvocation) tt)).
Proof.
  split; [reflexivity|].
  destruct (executeTag_returns unit (scriptedEnv nominal) tt sampleInvocation
              Success eq_refl) as (_ & _ & _ & version & date & _ & _ & H).
  exact H.
Defined.

(** X7.  In any run of [executeTag], a tag reference is created exactly for
    the tag object whose creation completed, with the credentials and
    repository of the invocation; at most one tag object is created; and
    a run that creates no tag reference does not return a result. *)
Theorem executeTag_reference_follows_tag W (env : Env SdmCall W) w gi :
  let r := run env (Tagging.executeTag gi) w in
  omap createdTagReference (trace r)
    = (fun t => (credentials gi, gi_id gi, t)) <$> omap completedTag (trace r) /\
  (length (omap createdTag (trace r)) <= 1)%nat /\
  (omap createdTagReference (trace r) = [] ->
   forall result, outcome r <> Resolved result).
Proof.
  unfold Tagging.executeTag, doWithProject, Tagging.createTagForStatus.
  exec_all; repeat split; auto; try done.
Qed.

(* ===================================================================== *)
(** ** Fingerprinting, run by run *)
(* ===================================================================== *)

Lemma promiseAll_fulfils_cons {X} (p : Promise X) ps xs :
  promiseAll (p :: ps) = Fulfills xs ->
  (exists x, p = Fulfills x) /\ exists ys, promiseAll ps = Fulfills ys.
Proof.
  simpl. destruct p as [x|e]; [|done].
  destruct (promiseAll ps) as [ys|e]; [|done]. eauto.
Qed.

Section Accepted.

Context {W : Type} (env : Env SdmCall W).

(** One listener: when the promises it returned all fulfil, none of its
    notifications was rejected and it never threw. *)
Lemma invokeListener_accepted l gi channels fingerprints w ps xs :
  let r := run env (mapM (fun fingerprint =>
                            invoke (InvokeListener l gi channels fingerprint))
                         fingerprints) w in
  outcome r = Resolved ps ->
  promiseAll ps = Fulfills xs ->
  omap rejectedNotification (trace r) = [] /\
  Forall (fun ev => listenerThrew ev = false) (trace r).
Proof.
  revert w ps xs. induction fingerprints as [|fp fps IH]; intros w ps xs; simpl.
  - done.
  - destruct (env _ (InvokeListener l gi channels fp) w) as [[p|e] w1]; simpl;
      [|done].
    run_binds. unfold run_seq.
    specialize (IH w1). simpl in IH.
    destruct (run env (mapM _ fps) w1) as [tr [qs|e|] w2]; simpl in *; fold_omap;
      [|done|done].
    intros [= <-] Hall.
    apply promiseAll_fulfils_cons in Hall as ((x & ->) & ys & Hys).
    destruct (IH qs ys eq_refl Hys) as (Hrej & Hthrew).
    rewrite app_nil_r. split; [done|]. by constructor.
Qed.

Lemma notifyListeners_accepted listeners fingerprints gi cri w qs xs :
  let r := run env (Fingerprinting.notifyListeners listeners fingerprints gi cri) w in
  outcome r = Resolved qs ->
  promiseAll qs = Fulfills xs ->
  omap rejectedNotification (trace r) = [] /\
  Forall (fun ev => listenerThrew ev = false) (trace r).
Proof.
  unfold Fingerprinting.notifyListeners.
  revert w qs xs. induction listeners as [|l ls IH]; intros w qs xs; simpl.
  - done.
  - run_binds. run_binds. unfold run_seq at 2.
    pose proof (invokeListener_accepted l gi (cri_addressChannels cri)
                  fingerprints w) as Hl. simpl in Hl.
    destruct (run env (mapM _ fingerprints) w) as [tr [ps|e|] w1]; simpl in *;
      fold_omap; [| |done].
    + unfold run_seq; simpl. run_binds. unfold run_seq.
      specialize (IH w1). simpl in IH.
      destruct (run env (mapM _ ls) w1) as [tr' [qs'|e|] w2]; simpl in *; fold_omap;
        [|done|done].
      intros [= <-] Hall.
      apply promiseAll_fulfils_cons in Hall as ((ys & Hps) & zs & Hqs).
      destruct (Hl ps ys eq_refl Hps) as (Hrej & Hthrew).
      destruct (IH qs' zs eq_refl Hqs) as (Hrej' & Hthrew').
      rewrite !app_nil_r, omap_app, Hrej, Hrej'.
      split; [done|]. by apply Forall_app.
    + unfold run_seq; simpl. done.
Qed.

Lemma invokeListener_quiet l gi channels fingerprints w :
  omap loadedProject
    (trace (run env (mapM (fun fingerprint =>
                             invoke (InvokeListener l gi channels fingerprint))
                          fingerprints) w)) = [].
Proof.
  revert w. induction fingerprints as [|fp fps IH]; intros w; simpl; [done|].
  destruct (env _ (InvokeListener l gi channels fp) w) as [[p|e] w1]; simpl;
    [|done].
  run_binds. unfold run_seq. specialize (IH w1).
  destruct (run env (mapM _ fps) w1) as [tr [qs|e|] w2]; simpl in *; fold_omap;
    by rewrite ?app_nil_r.
Qed.

Lemma notifyListeners_quiet listeners fingerprints gi cri w :
  omap loadedProject
    (trace (run env (Fingerprinting.notifyListeners listeners fingerprints gi cri) w))
    = [].
Proof.
  unfold Fingerprinting.notifyListeners.
  revert w. induction listeners as [|l ls IH]; intros w; simpl; [done|].
  run_binds. run_binds. unfold run_seq at 2.
  pose proof (invokeListener_quiet l gi (cri_addressChannels cri) fingerprints w)
    as Hl.
  destruct (run env (mapM _ fingerprints) w) as [tr [ps|e|] w1]; simpl in *;
    fold_omap; [| |done].
  - unfold run_seq; simpl. run_binds. unfold run_seq.
    specialize (IH w1).
    destruct (run env (mapM _ ls) w1) as [tr' [qs'|e|] w2]; simpl in *; fold_omap;
      rewrite ?app_nil_r, ?omap_app, ?Hl, ?IH; done.
  - unfold run_seq; simpl. by rewrite ?app_nil_r.
Qed.

End Accepted.

Opaque Fingerprinting.notifyListeners.

Lemma fingerprintProject_accepted {W} (env : Env SdmCall W) fingerprinters
    listeners gi project w :
  let r := run env (Fingerprinting.fingerprintProject fingerprinters listeners
                      gi project) w in
  outcome r = Resolved tt ->
  omap rejectedNotification (trace r) = [] /\
  Forall (fun ev => listenerThrew ev = false) (trace r) /\
  omap loadedProject (trace r) = [].
Proof.
  unfold Fingerprinting.fingerprintProject. exec_all; try discriminate.
  run_binds. unfold run_seq.
  match goal with
  | |- context [run env (Fingerprinting.notifyListeners ?ls ?fps ?g ?c) ?w'] =>
      pose proof (notifyListeners_accepted env ls fps g c w') as Hn;
      pose proof (notifyListeners_quiet env ls fps g c w') as Hq;
      simpl in Hn, Hq;
      destruct (run env (Fingerprinting.notifyListeners ls fps g c) w')
        as [tr [qs|e|] w3]
  end; simpl in *; fold_omap; [|done|done].
  destruct (promiseAll qs) as [xs|e] eqn:Hall; simpl; [|done].
  intros _. destruct (Hn qs xs eq_refl Hall) as (Hrej & Hthrew).
  rewrite app_nil_r. split; [done|]. split; [|done]. by repeat constructor.
Qed.

Transparent Fingerprinting.notifyListeners.

Opaque Fingerprinting.fingerprintProject doWithProject.

(** X8.  When [executeFingerprinting] returns, its result is Success, no
    listener threw and no promise returned by a listener was rejected:
    one rejected notification is enough to make the step reject.  The
    project is loaded once, read-only, unless no fingerprinter is
    registered, in which case it is not loaded at all. *)
Theorem executeFingerprinting_success
    W (env : Env SdmCall W) w fingerprinters listeners gi result :
  let r := run env (Fingerprinting.executeFingerprinting fingerprinters listeners gi) w in
  outcome r = Resolved result ->
  result = Success /\
  omap rejectedNotification (trace r) = [] /\
  Forall (fun ev => listenerThrew ev = false) (trace r) /\
  omap loadedProject (trace r)
    = match fingerprinters with
      | [] => []
      | _ :: _ => [(gi_id gi, true)]
      end.
Proof.
  unfold Fingerprinting.executeFingerprinting.
  destruct fingerprinters as [|fingerprinter rest]; simpl.
  { by intros [= <-]. }
  run_binds. unfold run_seq. rewrite doWithProject_run.
  destruct (env _ (LoadProject (gi_id gi) true) _) as [[project|e] w1]; simpl;
    [|done].
  match goal with
  | |- context [run env (Fingerprinting.fingerprintProject ?fs ?ls ?g ?p) ?w'] =>
      pose proof (fingerprintProject_accepted env fs ls g p w') as Hbody;
      simpl in Hbody;
      destruct (run env (Fingerprinting.fingerprintProject fs ls g p) w')
        as [tr [[]|e|] w2]
  end; simpl in *; fold_omap; [|done|done].
  intros [= <-]. destruct (Hbody eq_refl) as (Hrej & Hthrew & Hload).
  rewrite !app_nil_r, !omap_app, Hrej, Hload. simpl.
  split; [done|]. split; [done|]. split; [|done].
  repeat constructor. apply Forall_app. split; [done|]. by repeat constructor.
Qed.

Transparent Fingerprinting.fingerprintProject doWithProject.

Lemma executeFingerprinting_success_witness :
  outcome (run (scriptedEnv nominal)
             (Fingerprinting.executeFingerprinting ["npm-deps"] ["slack"; "audit"]
                sampleInvocation) tt)
    = Resolved Success /\
  omap rejectedNotification
    (trace (run (scriptedEnv nominal)
              (Fingerprinting.executeFingerprinting ["npm-deps"] ["slack"; "audit"]
                 sampleInvocation) tt))
    = [].
Proof.
  split; [reflexivity|].
  exact (proj1 (proj2 (executeFingerprinting_success unit (scriptedEnv nominal) tt
                         ["npm-deps"] ["slack"; "audit"] sampleInvocation Success
                         eq_refl))).
Defined.

(* ===================================================================== *)
(** ** The image pipeline, run by run *)
(* ===================================================================== *)

(** The preparations are run in the order of the list, each on the
    project and the invocation at hand; the loop goes through the whole
    list unless a preparation fails or throws. *)
Lemma runPreparations_prefix {W} (env : Env SdmCall W) preparations p gi w :
  let r := run env (Docker.runPreparations preparations p gi) w in
  omap preparationRun (trace r)
    `prefix_of` (fun prep => (prep, p, gi)) <$> preparations /\
  (outcome r = Resolved None ->
   omap preparationRun (trace r) = (fun prep => (prep, p, gi)) <$> preparations /\
   Forall (fun result => code result = 0%Z) (omap preparationResult (trace r))).
Proof.
  revert w. induction preparations as [|prep rest IH]; intros w; simpl.
  - done.
  - destruct (env _ (RunPreparation prep p gi) w) as [[pResult|e] w1]; simpl.
    + destruct (code pResult =? 0)%Z eqn:Hcode; simpl; fold_omap.
      * destruct (IH w1) as [Hprefix Hall]. split.
        -- by apply prefix_cons.
        -- intros Hout. destruct (Hall Hout) as [-> Hzero]. split; [done|].
           constructor; [|done]. by apply Z.eqb_eq.
      * split; [|done]. apply prefix_cons, prefix_nil.
    + split; [|done]. apply prefix_cons, prefix_nil.
Qed.

Lemma buildAndPublish_commands {W} (env : Env SdmCall W) options gi p w :
  let r := run env (Docker.buildAndPublish options gi p) w in
  omap preparationRun (trace r) = [] /\
  omap preparationResult (trace r) = [] /\
  omap loadedProject (trace r) = [] /\
  omap projectLoaded (trace r) = [] /\
  (omap spawned (trace r) = [] /\ omap linkedImage (trace r) = [] \/
   exists imageName dockerfilePath,
     omap createdImageName (trace r) = [imageName] /\
     omap foundDockerfile (trace r)
       = match dockerfileFinder options with
         | Some _ => [dockerfilePath]
         | None => []
         end /\
     (dockerfileFinder options = None -> dockerfilePath = "Dockerfile") /\
     omap spawned (trace r)
       `prefix_of` dockerCommands options p dockerfilePath (Docker.imageOf imageName) /\
     (omap linkedImage (trace r) = [] \/
      omap spawned (trace r)
        = dockerCommands options p dockerfilePath (Docker.imageOf imageName) /\
      omap linkedImage (trace r)
        = [(goal_owner (sdmGoal gi), goal_name (sdmGoal gi), goal_sha (sdmGoal gi),
            Docker.imageOf imageName, teamId gi)])).
Proof.
  unfold Docker.buildAndPublish, dockerCommands.
  destruct (dockerfileFinder options) as [finder|]; exec_all.
  all: repeat (split; [done|]).
  all: first [ left; done | right ].
  all: eexists _, _.
  all: repeat (split; [first [reflexivity | done]|]).
  all: try (first [left; done | right; done]).
  all: split; [repeat apply prefix_cons; apply prefix_nil|by left].
Qed.

Lemma buildAndPublish_success {W} (env : Env SdmCall W) options gi p w result :
  let r := run env (Docker.buildAndPublish options gi p) w in
  outcome r = Resolved result ->
  code result = 0%Z ->
  Forall (fun ev => failedStep ev = false) (trace r) /\
  omap webhookAnswer (trace r) = [true] /\
  exists imageName dockerfilePath,
    omap spawned (trace r)
      = dockerCommands options p dockerfilePath (Docker.imageOf imageName) /\
    omap linkedImage (trace r)
      = [(goal_owner (sdmGoal gi), goal_name (sdmGoal gi), goal_sha (sdmGoal gi),
          Docker.imageOf imageName, teamId gi)].
Proof.
  unfold Docker.buildAndPublish, dockerCommands.
  destruct (dockerfileFinder options) as [finder|]; exec_all.
  all: try discriminate.
  all: intros [= <-] Hzero; simpl in Hzero.
  all: try (apply Z.eqb_neq in Hcode; congruence).
  all: try (apply Z.eqb_neq in Hcode0; congruence).
  all: try (apply Z.eqb_neq in Hcode1; congruence).
  all: split; [repeat constructor; unfold failedStep; simpl;
               by rewrite ?Hcode, ?Hcode0, ?Hcode1|].
  all: split; [done|]. all: eexists _, _; split; reflexivity.
Qed.

Opaque Docker.buildAndPublish.

(** The shapes of a run of [executeDockerBuild]: the project could not
    be loaded; or the preparations did not all succeed; or the pipeline
    ran after them.  The project, once loaded, is released at the end. *)
Lemma executeDockerBuild_run {W} (env : Env SdmCall W) preparations options gi w :
  let r := run env (Docker.executeDockerBuild preparations options gi) w in
  (exists e, trace r = [Ev (LoadProject (gi_id gi) false) (Abrupt e)] /\
             outcome r = Rejected e) \/
  exists p w1 post,
    let prep := run env (Docker.runPreparations preparations p gi) w1 in
    let rest := run env (Docker.buildAndPublish options gi p) (world prep) in
    (post = [] \/ exists a, post = [Ev (ReleaseProject p) a]) /\
    match outcome prep with
    | Resolved None =>
        trace r = Ev (LoadProject (gi_id gi) false) (Normal p)
                  :: trace prep ++ trace rest ++ post /\
        outcome r = outcome rest
    | Resolved (Some pResult) =>
        trace r = Ev (LoadProject (gi_id gi) false) (Normal p) :: trace prep ++ post /\
        outcome r = Resolved pResult
    | Rejected e =>
        trace r = Ev (LoadProject (gi_id gi) false) (Normal p) :: trace prep ++ post /\
        outcome r = Rejected e
    | Unmodelled => False
    end.
Proof.
  intros r. subst r. unfold Docker.executeDockerBuild.
  rewrite doWithProject_run.
  destruct (env _ (LoadProject (gi_id gi) false) w) as [[p|e] w1]; simpl;
    [|left; by exists e].
  right. exists p, w1. rewrite dockerAction_run.
  destruct (runPreparations_run env preparations p gi w1) as [_ Hout].
  destruct (run env (Docker.runPreparations preparations p gi) w1)
    as [trp [[pResult|]|e|] wp]; simpl in *; [| | |done].
  - eexists. split; [right; by eexists|]. done.
  - destruct (run env (Docker.buildAndPublish options gi p) wp)
      as [trr [result|e|] wr]; simpl.
    + eexists. split; [right; by eexists|]. by rewrite <- app_assoc.
    + eexists. split; [right; by eexists|]. by rewrite <- app_assoc.
    + exists []. split; [by left|]. by rewrite app_nil_r.
  - eexists. split; [right; by eexists|]. done.
Qed.


Lemma spawned_preparation ev : isPreparation ev = true -> spawned ev = None.
Proof. by destruct ev as [X [] a]. Qed.

Lemma linkedImage_preparation ev : isPreparation ev = true -> linkedImage ev = None.
Proof. by destruct ev as [X [] a]. Qed.

Lemma createdImageName_preparation ev :
  isPreparation ev = true -> createdImageName ev = None.
Proof. by destruct ev as [X [] a]. Qed.

Lemma foundDockerfile_preparation ev :
  isPreparation ev = true -> foundDockerfile ev = None.
Proof. by destruct ev as [X [] a]. Qed.

(** Reading a run of [executeDockerBuild] for what its preparations and
    the release of the project do not show: only the loading of the
    project and, when every preparation succeeded, the pipeline count. *)
Lemma executeDockerBuild_observed {W} (env : Env SdmCall W) preparations options
    gi w :
  let r := run env (Docker.executeDockerBuild preparations options gi) w in
  exists a mid,
    (mid = [] \/
     exists p w', a = Normal p /\
                  mid = trace (run env (Docker.buildAndPublish options gi p) w')) /\
    forall A (f : SdmEvent -> option A),
      (forall ev, isPreparation ev = true -> f ev = None) ->
      (forall p c, f (Ev (ReleaseProject p) c) = None) ->
      omap f (trace r) = omap f (Ev (LoadProject (gi_id gi) false) a :: mid).
Proof.
  intros r. subst r.
  destruct (executeDockerBuild_run env preparations options gi w)
    as [(e & Htr & _)|(p & w1 & post & Hpost & Hcase)].
  - exists (Abrupt e), []. split; [by left|]. intros A f _ _. by rewrite Htr.
  - cbv zeta in Hcase.
    destruct (runPreparations_run env preparations p gi w1) as [Hprep _].
    assert (forall A (f : SdmEvent -> option A),
              (forall p c, f (Ev (ReleaseProject p) c) = None) ->
              omap f post = []) as Hrelease.
    { intros A f Hf. destruct Hpost as [->|[c ->]]; [done|].
      simpl. by rewrite Hf. }
    destruct (outcome (run env (Docker.runPreparations preparations p gi) w1))
      as [[pResult|]|e|]; [| | |done]; destruct Hcase as [Htr _].
    + exists (Normal p), []. split; [by left|]. intros A f Hf Hr.
      rewrite Htr. simpl. fold_omap.
      by rewrite !omap_app, (omap_preparations f _ Hf Hprep), (Hrelease A f Hr).
    + eexists (Normal p), _. split; [right; by eexists p, _|]. intros A f Hf Hr.
      rewrite Htr. simpl. fold_omap.
      by rewrite !omap_app, (omap_preparations f _ Hf Hprep), (Hrelease A f Hr),
        app_nil_r.
    + exists (Normal p), []. split; [by left|]. intros A f Hf Hr.
      rewrite Htr. simpl. fold_omap.
      by rewrite !omap_app, (omap_preparations f _ Hf Hprep), (Hrelease A f Hr).
Qed.


Lemma loadedProject_preparation ev : isPreparation ev = true -> loadedProject ev = None.
Proof. by destruct ev as [X [] a]. Qed.

Lemma projectLoaded_preparation ev : isPreparation ev = true -> projectLoaded ev = None.
Proof. by destruct ev as [X [] a]. Qed.

(** X9.  In any run of [executeDockerBuild] the project is loaded once, for
    writing.  The child processes spawned are a prefix of docker login,
    docker build and docker push, in this order, each in the base
    directory of the loaded project; build and push name the same image,
    [registry/name:version] of the name the image-name creator returned;
    the Dockerfile is the one the finder of the options returned, or
    "Dockerfile" when the options have no finder.  The image link is
    posted only after all three commands ran, for that same image, the
    owner, repository and sha of the goal and the team of the context. *)
Theorem executeDockerBuild_commands
    W (env : Env SdmCall W) w preparations options gi :
  let r := run env (Docker.executeDockerBuild preparations options gi) w in
  omap loadedProject (trace r) = [(gi_id gi, false)] /\
  (omap spawned (trace r) = [] /\ omap linkedImage (trace r) = [] \/
   exists p imageName dockerfilePath,
     omap projectLoaded (trace r) = [p] /\
     omap createdImageName (trace r) = [imageName] /\
     omap foundDockerfile (trace r)
       = match dockerfileFinder options with
         | Some _ => [dockerfilePath]
         | None => []
         end /\
     (dockerfileFinder options = None -> dockerfilePath = "Dockerfile") /\
     omap spawned (trace r)
       `prefix_of` dockerCommands options p dockerfilePath (Docker.imageOf imageName) /\
     (omap linkedImage (trace r) = [] \/
      omap spawned (trace r)
        = dockerCommands options p dockerfilePath (Docker.imageOf imageName) /\
      omap linkedImage (trace r)
        = [(goal_owner (sdmGoal gi), goal_name (sdmGoal gi), goal_sha (sdmGoal gi),
            Docker.imageOf imageName, teamId gi)])).
Proof.
  intros r. subst r.
  destruct (executeDockerBuild_observed env preparations options gi w)
    as (a & mid & Hmid & Hobs).
  rewrite (Hobs _ loadedProject loadedProject_preparation (fun _ _ => eq_refl)),
    (Hobs _ projectLoaded projectLoaded_preparation (fun _ _ => eq_refl)),
    (Hobs _ spawned spawned_preparation (fun _ _ => eq_refl)),
    (Hobs _ linkedImage linkedImage_preparation (fun _ _ => eq_refl)),
    (Hobs _ createdImageName createdImageName_preparation (fun _ _ => eq_refl)),
    (Hobs _ foundDockerfile foundDockerfile_preparation (fun _ _ => eq_refl)).
  clear Hobs. destruct Hmid as [->|(p & w' & -> & ->)].
  - split; [done|]. by left.
  - destruct (buildAndPublish_commands env options gi p w')
      as (_ & _ & Hload & Hloaded & Hcmd).
    simpl. fold_omap. rewrite Hload, Hloaded. split; [done|].
    destruct Hcmd as [?|(imageName & dockerfilePath & ?)]; [by left|].
    right. by exists p, imageName, dockerfilePath.
Qed.

(** X10.  In any run of [executeDockerBuild] the preparations that run are
    a prefix of the registered preparations, in their order, each called
    with the loaded project and the goal invocation.  No docker command
    is spawned unless every preparation ran and returned code 0. *)
Theorem executeDockerBuild_preparations
    W (env : Env SdmCall W) w preparations options gi :
  let r := run env (Docker.executeDockerBuild preparations options gi) w in
  omap projectLoaded (trace r) = [] /\ omap preparationRun (trace r) = [] /\
  omap spawned (trace r) = [] \/
  exists p,
    omap projectLoaded (trace r) = [p] /\
    omap preparationRun (trace r)
      `prefix_of` (fun prep => (prep, p, gi)) <$> preparations /\
    (omap spawned (trace r) = [] \/
     omap preparationRun (trace r) = (fun prep => (prep, p, gi)) <$> preparations /\
     Forall (fun result => code result = 0%Z)
       (omap preparationResult (trace r))).
Proof.
  intros r. subst r.
  destruct (executeDockerBuild_run env preparations options gi w)
    as [(e & Htr & _)|(p & w1 & post & Hpost & Hcase)].
  - left. by rewrite Htr.
  - right. exists p. cbv zeta in Hcase.
    destruct (runPreparations_run env preparations p gi w1) as [Hprep _].
    destruct (runPreparations_prefix env preparations p gi w1) as [Hprefix Hall].
    match type of Hcase with
    | context [run env (Docker.buildAndPublish ?o ?g ?q) ?w'] =>
        destruct (buildAndPublish_commands env o g q w')
          as (Hnone & Hnores & _ & Hloaded & _)
    end.
    assert (forall A (f : SdmEvent -> option A),
              (forall p c, f (Ev (ReleaseProject p) c) = None) ->
              omap f post = []) as Hrelease.
    { intros A f Hf. destruct Hpost as [->|[c ->]]; [done|].
      simpl. by rewrite Hf. }
    pose proof (Hrelease _ projectLoaded (fun _ _ => eq_refl)) as Hr1.
    pose proof (Hrelease _ preparationRun (fun _ _ => eq_refl)) as Hr2.
    pose proof (Hrelease _ spawned (fun _ _ => eq_refl)) as Hr3.
    pose proof (Hrelease _ preparationResult (fun _ _ => eq_refl)) as Hr4.
    pose proof (omap_preparations projectLoaded _ projectLoaded_preparation Hprep)
      as Hp1.
    pose proof (omap_preparations spawned _ spawned_preparation Hprep) as Hp3.
    destruct (outcome (run env (Docker.runPreparations preparations p gi) w1))
      as [[pResult|]|e|]; [| | |done]; destruct Hcase as [Htr _]; rewrite Htr.
    all: simpl; fold_omap; rewrite !omap_app.
    all: rewrite ?Hr1, ?Hr2, ?Hr3, ?Hr4, ?Hp1, ?Hp3, ?Hnone, ?Hnores, ?Hloaded,
           ?app_nil_r.
    + split; [done|]. split; [done|]. by left.
    + destruct (Hall eq_refl) as [Heq Hzero]. split; [done|]. split; [done|].
      by right.
    + split; [done|]. split; [done|]. by left.
Qed.


(** X11.  A result with code 0 is returned by [executeDockerBuild] only
    when everything succeeded: every preparation ran, no preparation and
    no docker command returned a non-zero code, docker login, build and
    push all ran for the same image, and the image-link webhook was
    posted for that image and acknowledged with true. *)
Theorem executeDockerBuild_success
    W (env : Env SdmCall W) w preparations options gi result :
  let r := run env (Docker.executeDockerBuild preparations options gi) w in
  outcome r = Resolved result ->
  code result = 0%Z ->
  Forall (fun ev => failedStep ev = false) (trace r) /\
  omap webhookAnswer (trace r) = [true] /\
  exists p imageName dockerfilePath,
    omap preparationRun (trace r) = (fun prep => (prep, p, gi)) <$> preparations /\
    omap spawned (trace r)
      = dockerCommands options p dockerfilePath (Docker.imageOf imageName) /\
    omap linkedImage (trace r)
      = [(goal_owner (sdmGoal gi), goal_name (sdmGoal gi), goal_sha (sdmGoal gi),
          Docker.imageOf imageName, teamId gi)].
Proof.
  intros r. subst r. intros Hout Hzero.
  destruct (executeDockerBuild_run env preparations options gi w)
    as [(e & _ & Hrej)|(p & w1 & post & Hpost & Hcase)]; [congruence|].
  cbv zeta in Hcase.
  destruct (runPreparations_run env preparations p gi w1) as [Hprep Hfinal].
  destruct (runPreparations_prefix env preparations p gi w1) as [_ Hall].
  match type of Hcase with
  | context [run env (Docker.buildAndPublish ?o ?g ?q) ?w'] =>
      pose proof (buildAndPublish_success env o g q w' result) as Hrest;
      destruct (buildAndPublish_commands env o g q w') as (Hnone & _)
  end.
  cbv zeta in Hrest.
  assert (forall A (f : SdmEvent -> option A),
            (forall p c, f (Ev (ReleaseProject p) c) = None) ->
            omap f post = []) as Hrelease.
  { intros A f Hf. destruct Hpost as [->|[c ->]]; [done|].
    simpl. by rewrite Hf. }
  assert (Forall (fun ev => failedStep ev = false) post) as Hpostfinal.
  { destruct Hpost as [->|[c ->]]; by repeat constructor. }
  destruct (outcome (run env (Docker.runPreparations preparations p gi) w1))
    as [[pResult|]|e|]; [| | |done]; destruct Hcase as [Htr Hsame].
  - destruct Hfinal as [Hcode _]. congruence.
  - rewrite Hsame in Hout. destruct (Hrest Hout Hzero)
      as (Hok & Hanswer & imageName & dockerfilePath & Hspawned & Hlinked).
    destruct (Hall eq_refl) as [Hpreps _].
    rewrite Htr. split; [|split].
    + constructor; [done|]. apply Forall_app. split; [done|]. by apply Forall_app.
    + simpl. fold_omap.
      by rewrite !omap_app,
        (omap_preparations webhookAnswer _ webhookAnswer_preparation Hprep),
        Hanswer, (Hrelease _ webhookAnswer (fun _ _ => eq_refl)).
    + exists p, imageName, dockerfilePath. simpl. fold_omap.
      rewrite !omap_app, Hpreps, Hnone, Hspawned, Hlinked.
      rewrite (omap_preparations spawned _ spawned_preparation Hprep),
        (omap_preparations linkedImage _ linkedImage_preparation Hprep),
        (Hrelease _ preparationRun (fun _ _ => eq_refl)),
        (Hrelease _ spawned (fun _ _ => eq_refl)),
        (Hrelease _ linkedImage (fun _ _ => eq_refl)).
      by rewrite !app_nil_r.
  - congruence.
Qed.

Transparent Docker.buildAndPublish.

Lemma executeDockerBuild_success_witness :
  omap webhookAnswer
    (trace (run (scriptedEnv nominal)
              (Docker.executeDockerBuild ["npm-install"] dockerHub sampleInvocation)
              tt))
    = [true] /\
  length (omap spawned
            (trace (run (scriptedEnv nominal)
                      (Docker.executeDockerBuild ["npm-install"] dockerHub
                         sampleInvocation) tt))) = 3%nat.
Proof.
  destruct (executeDockerBuild_success unit (scriptedEnv nominal) tt
              ["npm-install"] dockerHub sampleInvocation Success eq_refl eq_refl)
    as (_ & Hanswer & p & imageName & dockerfilePath & _ & Hspawned & _).
  split; [exact Hanswer|]. by rewrite Hspawned.
Defined.

(* ===================================================================== *)
(** ** The version of a Node project, run by run *)
(* ===================================================================== *)

Lemma replaceAll_without (from to : ascii) (s : string) :
  includes s (String from EmptyString) = false -> replaceAll from to s = s.
Proof.
  induction s as [|c s IH]; [done|]. simpl.
  destruct (ascii_dec from c) as [<-|Hne].
  - by destruct s.
  - simpl. intros Hrest. rewrite (IH Hrest).
    by apply Ascii.eqb_neq in Hne; rewrite Ascii.eqb_sym, Hne.
Qed.

(** X12.  [NodeProjectVersioner] does not look at the exit code of npm:
    whenever [npm --no-git-tag-version version <version>] returns, with
    whatever result, the versioner returns the version.  npm is run once,
    in the base directory of the project, with the very version that is
    returned. *)
Theorem NodeProjectVersioner_ignores_exit_code
    W (env : Env SdmCall W) w sdmGoal p result :
  let r := run env (NodeVersioner.NodeProjectVersioner sdmGoal p) w in
  omap stepResult (trace r) = [result] ->
  exists pjVersion timestamp,
    outcome r = Resolved (NodeVersioner.versionOf sdmGoal pjVersion timestamp) /\
    omap spawned (trace r)
      = [("npm",
          ["--no-git-tag-version"; "version";
           NodeVersioner.versionOf sdmGoal pjVersion timestamp],
          baseDir p)].
Proof.
  unfold NodeVersioner.NodeProjectVersioner. exec_all; try discriminate.
  intros _. by eexists _, _.
Qed.

Lemma NodeProjectVersioner_ignores_exit_code_witness :
  omap stepResult
    (trace (run (scriptedEnv failingNpm)
              (NodeVersioner.NodeProjectVersioner sampleGoal sampleProject) tt))
    = [{| code := 1; message := None |}] /\
  exists pjVersion timestamp,
    outcome (run (scriptedEnv failingNpm)
               (NodeVersioner.NodeProjectVersioner sampleGoal sampleProject) tt)
      = Resolved (NodeVersioner.versionOf sampleGoal pjVersion timestamp) /\
    omap spawned
      (trace (run (scriptedEnv failingNpm)
                (NodeVersioner.NodeProjectVersioner sampleGoal sampleProject) tt))
      = [("npm",
          ["--no-git-tag-version"; "version";
           NodeVersioner.versionOf sampleGoal pjVersion timestamp],
          baseDir sampleProject)].
Proof.
  split; [reflexivity|].
  exact (NodeProjectVersioner_ignores_exit_code unit (scriptedEnv failingNpm) tt
           sampleGoal sampleProject {| code := 1; message := None |} eq_refl).
Defined.

(** X13.  For a branch whose name contains no slash, the version of
    [NodeProjectVersioner] is [<declared version>-<timestamp>] when the
    branch is the default branch, and
    [<declared version>-<branch>.<timestamp>] when it is any other
    branch. *)
Theorem versionOf_branch_without_slash sdmGoal pjVersion timestamp :
  includes (goal_branch sdmGoal) "/" = false ->
  (goal_branch sdmGoal = goal_defaultBranch sdmGoal ->
   NodeVersioner.versionOf sdmGoal pjVersion timestamp
     = pjVersion +:+ "-" +:+ timestamp) /\
  (goal_branch sdmGoal <> goal_defaultBranch sdmGoal ->
   NodeVersioner.versionOf sdmGoal pjVersion timestamp
     = pjVersion +:+ "-" +:+ (goal_branch sdmGoal +:+ ".") +:+ timestamp).
Proof.
  intros Hslash.
  destruct (versionOf_shape sdmGoal pjVersion timestamp) as (_ & Hsame & Hother).
  cbv zeta in Hsame, Hother.
  rewrite (replaceAll_without "/" "." _ Hslash) in Hsame, Hother.
  split; [done|]. intros Hne. by destruct (Hother Hne).
Qed.

Lemma versionOf_branch_without_slash_witness :
  NodeVersioner.versionOf sampleGoal "1.2.0" "20180704120000"
    = "1.2.0-20180704120000".
Proof.
  exact (proj1 (versionOf_branch_without_slash sampleGoal "1.2.0" "20180704120000"
                  eq_refl) eq_refl).
Defined.

(* ===================================================================== *)
(** ** The deployment listeners *)
(* ===================================================================== *)

Section DeploymentListeners.

Context {W : Type} (env : Env OnDeploy.DeployCall W).

(** [params.listeners.map(l => l(dil))]: the listeners are invoked in
    the order of the list, each with the same invocation; the map goes
    through the whole list unless a listener throws. *)
Lemma invokeDeploymentListeners_run listeners dil w :
  let r := run env (mapM (fun l => invoke (OnDeploy.InvokeDeploymentListener l dil))
                         listeners) w in
  omap OnDeploy.notified (trace r) `prefix_of` (fun l => (l, dil)) <$> listeners /\
  omap OnDeploy.resolvedId (trace r) = [] /\
  omap OnDeploy.resolvedCredentials (trace r) = [] /\
  match outcome r with
  | Resolved ps =>
      omap OnDeploy.notified (trace r) = (fun l => (l, dil)) <$> listeners /\
      omap OnDeploy.threw (trace r) = [] /\
      match promiseAll ps with
      | Fulfills _ => omap OnDeploy.rejected (trace r) = []
      | Rejects e => e ∈ omap OnDeploy.rejected (trace r)
      end
  | Rejected e => omap OnDeploy.threw (trace r) = [e]
  | Unmodelled => False
  end.
Proof.
  revert w. induction listeners as [|l ls IH]; intros w; simpl.
  - done.
  - destruct (env _ (OnDeploy.InvokeDeploymentListener l dil) w) as [[p|e] w1]; simpl.
    + run_binds. unfold run_seq. specialize (IH w1). simpl in IH.
      destruct (run env (mapM _ ls) w1) as [tr [ps|e|] w2]; simpl in *; fold_omap.
      * destruct IH as (Hprefix & Hid & Hcreds & Hall & Hthrew & Hrej).
        rewrite app_nil_r, Hall. repeat split; try done.
        destruct p as [[]|e]; simpl.
        -- by destruct (promiseAll ps).
        -- apply list_elem_of_here.
      * destruct IH as (Hprefix & Hid & Hcreds & Hthrew).
        repeat split; try done. by apply prefix_cons.
      * by destruct IH as (_ & _ & _ & ?).
    + repeat split; try done. apply prefix_cons, prefix_nil.
Qed.

End DeploymentListeners.

(** X14.  [OnDeployStatus.handle] looks at the first status of the event
    only.  When its context is not the context of the staging deployment
    goal, the handler returns Success after one debug line that quotes
    the context; no repository reference or credentials are resolved and
    no listener is invoked. *)
Theorem handle_ignores_other_contexts
    W (env : Env OnDeploy.DeployCall W) w stagingContext this params status others :
  let r := run env (OnDeploy.handle stagingContext this params (status :: others)) w in
  OnDeploy.context status <> stagingContext ->
  outcome r = Resolved Success /\
  omap OnDeploy.notified (trace r) = [] /\
  exists a,
    trace r = [Ev (OnDeploy.LoggerDebug
                     ("********* OnDeploy got called with status context=["
                      +:+ OnDeploy.context status +:+ "]")) a].
Proof.
  intros r Hother. subst r. unfold OnDeploy.handle.
  apply String.eqb_neq in Hother as ->. simpl.
  split; [done|]. split; [done|]. by eexists.
Qed.

Lemma handle_ignores_other_contexts_witness :
  outcome (run (OnDeploy.scriptedEnv (fun _ => Normal (Fulfills tt)))
             (OnDeploy.handle "sdm/atomist/2-staging-deploy" OnDeploy.sampleHandler
                OnDeploy.sampleHandler
                [OnDeploy.sampleStatus "sdm/atomist/1-build"]) tt)
    = Resolved Success /\
  omap OnDeploy.notified
    (trace (run (OnDeploy.scriptedEnv (fun _ => Normal (Fulfills tt)))
              (OnDeploy.handle "sdm/atomist/2-staging-deploy" OnDeploy.sampleHandler
                 OnDeploy.sampleHandler
                 [OnDeploy.sampleStatus "sdm/atomist/1-build"]) tt))
    = [].
Proof.
  assert ("sdm/atomist/1-build" <> "sdm/atomist/2-staging-deploy") as Hother
    by discriminate.
  destruct (handle_ignores_other_contexts unit
              (OnDeploy.scriptedEnv (fun _ => Normal (Fulfills tt))) tt
              "sdm/atomist/2-staging-deploy" OnDeploy.sampleHandler
              OnDeploy.sampleHandler (OnDeploy.sampleStatus "sdm/atomist/1-build")
              [] Hother) as (Hout & Hnone & _).
  by split.
Defined.

(** X15.  When the first status of the event has the context of the
    staging deployment goal, [OnDeployStatus.handle] invokes the listeners
    of [params] in their order, all with one invocation: the status, the
    repository reference the resolver returned, the address channels and
    the credentials the credentials factory of [this] returned.  The
    listeners invoked are a prefix of the list (a listener that throws
    ends the map).  When the handler returns, its result is Success,
    every listener was invoked, none threw and no promise was
    rejected. *)
Theorem handle_notifies_every_listener
    W (env : Env OnDeploy.DeployCall W) w stagingContext this params status others :
  let r := run env (OnDeploy.handle stagingContext this params (status :: others)) w in
  OnDeploy.context status = stagingContext ->
  (omap OnDeploy.notified (trace r) = [] \/
   exists id credentials channels,
     omap OnDeploy.resolvedId (trace r) = [id] /\
     omap OnDeploy.resolvedCredentials (trace r)
       = [(OnDeploy.credentialsFactory this, credentials)] /\
     omap OnDeploy.notified (trace r)
       `prefix_of`
       (fun l => (l, {| OnDeploy.dil_status := status;
                        OnDeploy.dil_id := id;
                        OnDeploy.dil_addressChannels := channels;
                        OnDeploy.dil_credentials := credentials |}))
       <$> OnDeploy.listeners params) /\
  (forall result,
     outcome r = Resolved result ->
     result = Success /\
     fst <$> omap OnDeploy.notified (trace r) = OnDeploy.listeners params /\
     omap OnDeploy.rejected (trace r) = [] /\
     omap OnDeploy.threw (trace r) = []).
Proof.
  intros r Hstaging. subst r. unfold OnDeploy.handle.
  apply String.eqb_eq in Hstaging as ->. simpl.
  destruct (env _ (OnDeploy.AddressChannelsFor _) w) as [[channels|e] w1]; simpl;
    [|split; [by left|done]].
  destruct (env _ (OnDeploy.ToRemoteRepoRef _ _ _) w1) as [[id|e] w2]; simpl;
    [|split; [by left|done]].
  destruct (env _ (OnDeploy.EventHandlerCredentials _ _) w2)
    as [[credentials|e] w3]; simpl; [|split; [by left|done]].
  run_binds. unfold run_seq.
  match goal with
  | |- context [run env (mapM ?f ?ls) ?w'] =>
      match f with
      | (fun l => invoke (OnDeploy.InvokeDeploymentListener l ?dil)) =>
          pose proof (invokeDeploymentListeners_run env ls dil w') as Hl
      end
  end.
  simpl in Hl.
  destruct (run env (mapM _ (OnDeploy.listeners params)) w3)
    as [tr [ps|e|] w4]; simpl in *; fold_omap.
  - destruct Hl as (Hprefix & Hid & Hcreds & Hall & Hthrew & Hrej).
    destruct (promiseAll ps) as [xs|e]; simpl; rewrite ?app_nil_r.
    + rewrite Hid, Hcreds, Hall, Hrej, Hthrew. split.
      * right. by exists id, credentials, channels.
      * intros result [= <-]. split; [done|]. split; [|done].
        rewrite <- list_fmap_compose. by rewrite list_fmap_id.
    + rewrite Hid, Hcreds. split; [|done].
      right. by exists id, credentials, channels.
  - destruct Hl as (Hprefix & Hid & Hcreds & Hthrew).
    rewrite Hid, Hcreds. split; [|done].
    right. by exists id, credentials, channels.
  - by destruct Hl as (_ & _ & _ & ?).
Qed.

Lemma handle_notifies_every_listener_witness :
  outcome (run (OnDeploy.scriptedEnv (fun _ => Normal (Fulfills tt)))
             (OnDeploy.handle "sdm/atomist/2-staging-deploy" OnDeploy.sampleHandler
                OnDeploy.sampleHandler
                [OnDeploy.sampleStatus "sdm/atomist/2-staging-deploy"]) tt)
    = Resolved Success /\
  fst <$> omap OnDeploy.notified
            (trace (run (OnDeploy.scriptedEnv (fun _ => Normal (Fulfills tt)))
                      (OnDeploy.handle "sdm/atomist/2-staging-deploy"
                         OnDeploy.sampleHandler OnDeploy.sampleHandler
                         [OnDeploy.sampleStatus "sdm/atomist/2-staging-deploy"]) tt))
    = ["slack"; "audit"].
Proof.
  split; [reflexivity|].
  destruct (handle_notifies_every_listener unit
              (OnDeploy.scriptedEnv (fun _ => Normal (Fulfills tt))) tt
              "sdm/atomist/2-staging-deploy" OnDeploy.sampleHandler
              OnDeploy.sampleHandler
              (OnDeploy.sampleStatus "sdm/atomist/2-staging-deploy") [] eq_refl)
    as [_ Hall].
  exact (proj1 (proj2 (Hall Success eq_refl))).
Defined.

(* ===================================================================== *)
(** ** The progress log factory *)
(* ===================================================================== *)

(** X16.  [rolarAndDashboardLogFactory] always returns a factory.  With a
    non-empty url it logs "Logging with Rolar: <url>" once, when the
    factory is built, and the factory offers to [firstAvailableProgressLog]
    a [DashboardDisplayProgressLog] for the url, the buffer size (1000
    when not given), the flush interval (2000 when not given), the
    context and the goal, then the fallback; without a url, or with the
    empty url, it logs nothing and offers the fallback alone.  The
    fallback is a [LoggingProgressLog] named after the goal at level
    "info".  The persistent log is chosen first; only then is the
    ephemeral log requested, and the log returned writes to both under the
    name of the goal.  When no persistent log can be chosen, no ephemeral
    log is requested and the factory rejects. *)
Theorem rolarAndDashboardLogFactory_logs
    W (env : Env ProgressLogs.LogCall W) w rolarBaseUrl bufferSize flushInterval :
  let creation := run env (ProgressLogs.rolarAndDashboardLogFactory rolarBaseUrl
                             bufferSize flushInterval) w in
  omap ProgressLogs.infoLine (trace creation)
    = (if truthy rolarBaseUrl
       then ["Logging with Rolar: " +:+ default "" rolarBaseUrl]
       else []) /\
  exists factory,
    outcome creation = Resolved factory /\
    forall context sdmGoal w',
      let r := run env (factory context sdmGoal) w' in
      let fallback := ProgressLogs.LoggingProgressLog
                        (ProgressLogs.name sdmGoal) "info" in
      omap ProgressLogs.infoLine (trace r) = [] /\
      omap ProgressLogs.candidates (trace r)
        = [if truthy rolarBaseUrl
           then [ProgressLogs.DashboardDisplayProgressLog (default "" rolarBaseUrl)
                   (default 1000%Z bufferSize) (default 2000%Z flushInterval)
                   context sdmGoal;
                 fallback]
           else [fallback]] /\
      match omap ProgressLogs.chosen (trace r) with
      | [persistentLog] =>
          exists a,
            omap ProgressLogs.ephemeral (trace r) = [(context, sdmGoal, a)] /\
            outcome r
              = match a with
                | Normal ephemeral =>
                    Resolved (ProgressLogs.WriteToAllProgressLog
                                (ProgressLogs.name sdmGoal) ephemeral persistentLog)
                | Abrupt e => Rejected e
                end
      | _ =>
          omap ProgressLogs.ephemeral (trace r) = [] /\
          exists e, outcome r = Rejected e
      end.
Proof.
  unfold ProgressLogs.rolarAndDashboardLogFactory.
  destruct (truthy rolarBaseUrl); simpl.
  all: split; [done|]. all: eexists; split; [reflexivity|].
  all: intros context sdmGoal w'; exec_all.
  all: repeat split; eauto.
Qed.

(* ===================================================================== *)
(** ** The default image name *)
(* ===================================================================== *)

(** X17.  When [DefaultDockerImageNameCreator] returns, it made one call:
    it read the version recorded for the owner, repository, provider, sha
    and branch of the goal; and the image that [executeDockerBuild] forms
    from the name it returns is [<registry of the options>/<name of the
    project>:<that version>]. *)
Theorem DefaultDockerImageNameCreator_image
    W (env : Env SdmCall W) w p sdmGoal options imageName :
  let r := run env (DefaultDockerImageNameCreator p sdmGoal options) w in
  outcome r = Resolved imageName ->
  exists version,
    omap readVersion (trace r) = [version] /\
    omap versionQuery (trace r)
      = [(goal_owner sdmGoal, goal_name sdmGoal, goal_providerId sdmGoal,
          goal_sha sdmGoal, goal_branch sdmGoal)] /\
    length (trace r) = 1%nat /\
    Docker.imageOf imageName
      = registry options +:+ "/" +:+ project_name p +:+ ":" +:+ version.
Proof.
  unfold DefaultDockerImageNameCreator. exec_all; [|done].
  intros [= <-]. by eexists.
Qed.

Lemma DefaultDockerImageNameCreator_image_witness :
  exists version,
    omap readVersion
      (trace (run (scriptedEnv nominal)
                (DefaultDockerImageNameCreator sampleProject sampleGoal dockerHub) tt))
      = [version] /\
    Docker.imageOf {| image_registry := "docker.io"; image_name := "sdm-core";
                      image_version := "1.2.0-20180704120000" |}
      = "docker.io" +:+ "/" +:+ "sdm-core" +:+ ":" +:+ version.
Proof.
  destruct (DefaultDockerImageNameCreator_image unit (scriptedEnv nominal) tt
              sampleProject sampleGoal dockerHub
              {| image_registry := "docker.io"; image_name := "sdm-core";
                 image_version := "1.2.0-20180704120000" |} eq_refl)
    as (version & Hread & _ & _ & Himage).
  by exists version.
Defined.

(* ===================================================================== *)
(** ** The allocator: one record per repository *)
(* ===================================================================== *)

Lemma storeEnv_allocation_world st push key :
  key <> pushKey push ->
  world (run storeEnv (LocalBuilder.obtainBuildIdentifier push) st) !! key
    = st !! key.
Proof.
  intros Hkey. unfold LocalBuilder.obtainBuildIdentifier. simpl.
  unfold pushKey in Hkey.
  destruct (st !! (push_owner push, push_name push, push_providerId push))
    as [i|]; simpl.
  - destruct (bumpIdentifier i); simpl; by rewrite ?lookup_insert_ne.
  - by rewrite lookup_insert_ne.
Qed.

Lemma storeEnv_allocation_outcome st1 st2 push :
  st1 !! pushKey push = st2 !! pushKey push ->
  outcome (run storeEnv (LocalBuilder.obtainBuildIdentifier push) st1)
    = outcome (run storeEnv (LocalBuilder.obtainBuildIdentifier push) st2).
Proof.
  unfold pushKey, LocalBuilder.obtainBuildIdentifier. simpl. intros ->.
  destruct (st2 !! (push_owner push, push_name push, push_providerId push))
    as [i|]; simpl; [|done].
  by destruct (bumpIdentifier i).
Qed.

(** X18.  Against a store that keeps one record per repository key, an
    allocation of [obtainBuildIdentifier] for one repository leaves the
    record of every other key as it was, so the identifier that the next
    allocation for another repository returns is the one it would have
    returned before. *)
Theorem obtainBuildIdentifier_isolates_repositories st push other :
  pushKey other <> pushKey push ->
  outcome (run storeEnv (LocalBuilder.obtainBuildIdentifier other)
             (world (run storeEnv (LocalBuilder.obtainBuildIdentifier push) st)))
    = outcome (run storeEnv (LocalBuilder.obtainBuildIdentifier other) st) /\
  forall key,
    key <> pushKey push ->
    world (run storeEnv (LocalBuilder.obtainBuildIdentifier push) st) !! key
      = st !! key.
Proof.
  intros Hother. split.
  - apply storeEnv_allocation_outcome. by apply storeEnv_allocation_world.
  - intros key. apply storeEnv_allocation_world.
Qed.

Lemma obtainBuildIdentifier_isolates_repositories_witness :
  outcome (run storeEnv (LocalBuilder.obtainBuildIdentifier otherPush)
             (world (run storeEnv (LocalBuilder.obtainBuildIdentifier samplePush)
                       (<[pushKey otherPush := "7"]> ∅))))
    = Resolved "8".
Proof.
  assert (pushKey otherPush <> pushKey samplePush) as Hother by discriminate.
  rewrite (proj1 (obtainBuildIdentifier_isolates_repositories
                    (<[pushKey otherPush := "7"]> ∅) samplePush otherPush Hother)).
  reflexivity.
Defined.

(* ===================================================================== *)
(** ** Errors escape the steps *)
(* ===================================================================== *)

Lemma escapes_ends {W R} (r : Run SdmCall W R) result :
  ErrorsEscape r -> outcome r = Resolved result -> omap raised (trace r) = [].
Proof.
  intros Hr Hout. destruct (omap raised (trace r)) as [|e l] eqn:Hraised; [done|].
  specialize (Hr e). rewrite Hraised in Hr.
  rewrite Hr in Hout; [done|]. apply list_elem_of_here.
Qed.

Section Escapes.

Context {W : Type} (env : Env SdmCall W).

Lemma escapes_ret {R} (x : R) w : ErrorsEscape (run env (mret x) w).
Proof. intros e Hin. by apply elem_of_nil in Hin. Qed.

Lemma escapes_await {X} (p : Promise X) w : ErrorsEscape (run env (await p) w).
Proof. destruct p; intros e' Hin; by apply elem_of_nil in Hin. Qed.

Lemma escapes_call {X} (c : SdmCall X) w : ErrorsEscape (run env (call c) w).
Proof.
  unfold ErrorsEscape. simpl.
  destruct (env X c w) as [[x|e'] w1]; simpl; intros e Hin.
  - destruct c; by apply elem_of_nil in Hin.
  - destruct c; simpl in Hin;
      first [by apply elem_of_nil in Hin
            |by apply elem_of_cons in Hin as [->|Hin%elem_of_nil]].
Qed.

Lemma escapes_tell {X} (c : SdmCall X) w :
  (forall a, raised (Ev c a) = None) ->
  ErrorsEscape (run env (tell c) w).
Proof.
  intros Hc e Hin.
  change (e ∈ match raised (Ev c (env X c w).1) with
              | Some y => [y]
              | None => []
              end) in Hin.
  rewrite Hc in Hin. by apply elem_of_nil in Hin.
Qed.

Lemma escapes_bind {A B} (m : SdmProg A) (f : A -> SdmProg B) w :
  ErrorsEscape (run env m w) ->
  (forall a w', ErrorsEscape (run env (f a) w')) ->
  ErrorsEscape (run env (m ≫= f) w).
Proof.
  intros Hm Hf e. rewrite run_mbind. unfold run_seq.
  pose proof (escapes_ends (run env m w)) as Hnone.
  destruct (run env m w) as [tr [a|e'|] w1]; simpl in *.
  - rewrite omap_app, (Hnone a Hm eq_refl). exact (Hf a w1 e).
  - intros Hin. specialize (Hm e Hin). simpl in Hm. by injection Hm as ->.
  - intros Hin. specialize (Hm e Hin). discriminate.
Qed.

Lemma escapes_mapM {A B} (f : A -> SdmProg B) (xs : list A) w :
  (forall x w', ErrorsEscape (run env (f x) w')) ->
  ErrorsEscape (run env (mapM f xs) w).
Proof.
  intros Hf. revert w. induction xs as [|x xs IH]; intros w.
  - apply escapes_ret.
  - change (mapM f (x :: xs)) with (y ← f x; ys ← mapM f xs; mret (y :: ys)).
    apply escapes_bind; [apply Hf|]. intros y w1.
    apply escapes_bind; [apply IH|]. intros. apply escapes_ret.
Qed.

Lemma escapes_doWithProject {R} id readOnly (action : GitProject -> SdmProg R) w :
  (forall p w', ErrorsEscape (run env (action p) w')) ->
  ErrorsEscape (run env (doWithProject id readOnly action) w).
Proof.
  intros Haction e. rewrite doWithProject_run.
  destruct (env _ (LoadProject id readOnly) w) as [[p|e'] w1]; simpl.
  - specialize (Haction p w1 e).
    destruct (run env (action p) w1) as [tr [r|e'|] w2]; simpl in *; fold_omap.
    + rewrite omap_app. simpl. by rewrite app_nil_r.
    + rewrite omap_app. simpl. by rewrite app_nil_r.
    + done.
  - by intros [->|Hin%elem_of_nil]%elem_of_cons.
Qed.

Lemma escapes_executeFingerprinting fingerprinters listeners gi w :
  ErrorsEscape
    (run env (Fingerprinting.executeFingerprinting fingerprinters listeners gi) w).
Proof.
  unfold Fingerprinting.executeFingerprinting.
  destruct (length fingerprinters =? 0)%nat; [apply escapes_ret|].
  apply escapes_bind; [by apply escapes_tell|]. intros _ w1.
  apply escapes_bind; [|intros; apply escapes_ret].
  apply escapes_doWithProject. intros p w2.
  unfold Fingerprinting.fingerprintProject.
  apply escapes_bind; [apply escapes_call|]. intros cri w3.
  apply escapes_bind; [apply escapes_call|]. intros relevant w4.
  apply escapes_bind; [by apply escapes_tell|]. intros _ w5.
  apply escapes_bind; [apply escapes_call|]. intros fingerprints w6.
  apply escapes_bind.
  - unfold Fingerprinting.notifyListeners. apply escapes_mapM. intros l w7.
    apply escapes_bind; [|intros; apply escapes_ret].
    apply escapes_mapM. intros fingerprint w8. apply escapes_call.
  - intros notified w7.
    apply escapes_bind; [apply escapes_await|]. intros. apply escapes_ret.
Qed.

Lemma escapes_executeTag gi w :
  ErrorsEscape (run env (Tagging.executeTag gi) w).
Proof.
  unfold Tagging.executeTag, Tagging.createTagForStatus.
  apply escapes_doWithProject. intros p w1.
  apply escapes_bind; [apply escapes_call|]. intros version w2.
  apply escapes_bind; [|intros; apply escapes_ret].
  apply escapes_bind; [apply escapes_call|]. intros date w3.
  apply escapes_bind; [apply escapes_call|]. intros _ w4. apply escapes_call.
Qed.

Lemma escapes_runPreparations preparations p gi w :
  ErrorsEscape (run env (Docker.runPreparations preparations p gi) w).
Proof.
  revert w. induction preparations as [|prep rest IH]; intros w.
  - apply escapes_ret.
  - change (Docker.runPreparations (prep :: rest) p gi)
      with (pResult ← call (RunPreparation prep p gi);
            if negb (code pResult =? 0)%Z then mret (Some pResult)
            else Docker.runPreparations rest p gi).
    apply escapes_bind; [apply escapes_call|]. intros pResult w1.
    destruct (negb _); [apply escapes_ret|apply IH].
Qed.

Lemma escapes_executeDockerBuild preparations options gi w :
  ErrorsEscape (run env (Docker.executeDockerBuild preparations options gi) w).
Proof.
  unfold Docker.executeDockerBuild. apply escapes_doWithProject. intros p w1.
  apply escapes_bind; [apply escapes_runPreparations|]. intros [pResult|] w2.
  - apply escapes_ret.
  - unfold Docker.buildAndPublish.
    apply escapes_bind; [apply escapes_call|]. intros imageName w3.
    apply escapes_bind;
      [destruct (dockerfileFinder options); [apply escapes_call|apply escapes_ret]|].
    intros dockerfilePath w4.
    apply escapes_bind; [apply escapes_call|]. intros login w5.
    destruct (negb _); [apply escapes_ret|].
    apply escapes_bind; [apply escapes_call|]. intros build w6.
    destruct (negb _); [apply escapes_ret|].
    apply escapes_bind; [apply escapes_call|]. intros pushed w7.
    destruct (negb _); [apply escapes_ret|].
    apply escapes_bind; [apply escapes_call|]. intros linked w8.
    destruct linked; apply escapes_ret.
Qed.

End Escapes.

Opaque Fingerprinting.fingerprintProject doWithProject.

(** A run of [executeFingerprinting] in which the promise of a listener
    was rejected does not return. *)
Lemma executeFingerprinting_rejected {W} (env : Env SdmCall W) fingerprinters
    listeners gi w result :
  let r := run env (Fingerprinting.executeFingerprinting fingerprinters listeners gi) w in
  outcome r = Resolved result ->
  omap rejectedNotification (trace r) = [].
Proof.
  unfold Fingerprinting.executeFingerprinting.
  destruct fingerprinters as [|fingerprinter rest]; simpl; [done|].
  run_binds. unfold run_seq. rewrite doWithProject_run.
  destruct (env _ (LoadProject (gi_id gi) true) _) as [[project|e] w1]; simpl;
    [|done].
  match goal with
  | |- context [run env (Fingerprinting.fingerprintProject ?fs ?ls ?g ?p) ?w'] =>
      pose proof (fingerprintProject_accepted env fs ls g p w') as Hbody;
      simpl in Hbody;
      destruct (run env (Fingerprinting.fingerprintProject fs ls g p) w')
        as [tr [[]|e|] w2]
  end; simpl in *; fold_omap; [|done|done].
  intros _. destruct (Hbody eq_refl) as (Hrej & _).
  by rewrite !app_nil_r, !omap_app, Hrej.
Qed.

Transparent Fingerprinting.fingerprintProject doWithProject.

(** C9, as stated: every error would be mapped to a failing result.  None
    of the three steps catches anything: when creating the tag throws,
    when a listener's promise is rejected, when docker cannot be spawned,
    the step returns no result and the error escapes as the rejection of
    the step's promise. *)
Lemma steps_let_errors_escape_counterexample :
  outcome (run (scriptedEnv failingTag) (Tagging.executeTag sampleInvocation) tt)
    = Rejected (mkError "Reference already exists") /\
  outcome (run (scriptedEnv rejectingListener)
             (Fingerprinting.executeFingerprinting ["npm-deps"] ["slack"; "audit"]
                sampleInvocation) tt)
    = Rejected (mkError "channel_not_found") /\
  outcome (run (scriptedEnv missingDocker)
             (Docker.executeDockerBuild [] dockerHub sampleInvocation) tt)
    = Rejected (mkError "spawn docker ENOENT").
Proof. repeat split; vm_compute; reflexivity. Qed.

(** C9, amended.  For each of the three steps and every input, the step
    either returns exactly one result or ends with an error that one of
    its collaborators raised (an exception of a call, or the rejection of
    a promise a listener returned), and it returns a result whenever no
    collaborator raises an error.  No step maps an error to a result: the
    exception of a call whose completion the step waits for (any call but
    the writes to the logs and the release of the project) is the very
    rejection the step ends with, so that a step that returns a result
    has seen no such exception; and a run of [executeFingerprinting] in
    which the promise of a listener was rejected ends with a rejection,
    not with a result. *)
Theorem steps_return_unless_collaborator_fails :
  (forall W (env : Env SdmCall W) w fingerprinters listeners gi,
     let r := run env (Fingerprinting.executeFingerprinting fingerprinters listeners gi) w in
     EndsWithResultOrCollaboratorError r /\
     (omap failureOf (trace r) = [] -> exists result, outcome r = Resolved result) /\
     (forall e, e ∈ omap raised (trace r) -> outcome r = Rejected e) /\
     (omap rejectedNotification (trace r) <> [] ->
      exists e, outcome r = Rejected e /\ e ∈ omap failureOf (trace r))) /\
  (forall W (env : Env SdmCall W) w gi,
     let r := run env (Tagging.executeTag gi) w in
     EndsWithResultOrCollaboratorError r /\
     (omap failureOf (trace r) = [] -> exists result, outcome r = Resolved result) /\
     (forall e, e ∈ omap raised (trace r) -> outcome r = Rejected e)) /\
  (forall W (env : Env SdmCall W) w preparations options gi,
     let r := run env (Docker.executeDockerBuild preparations options gi) w in
     EndsWithResultOrCollaboratorError r /\
     (omap failureOf (trace r) = [] -> exists result, outcome r = Resolved result) /\
     (forall e, e ∈ omap raised (trace r) -> outcome r = Rejected e)).
Proof.
  split; [|split].
  - intros W env w fingerprinters listeners gi r.
    pose proof (ends_executeFingerprinting env fingerprinters listeners gi w) as Hends.
    split; [done|]. split; [by apply ends_without_failure|].
    split; [apply escapes_executeFingerprinting|].
    intros Hrejected. subst r. unfold EndsWithResultOrCollaboratorError in Hends.
    pose proof (executeFingerprinting_rejected env fingerprinters listeners gi w)
      as Hnone. cbv zeta in Hnone.
    destruct (outcome (run env (Fingerprinting.executeFingerprinting fingerprinters
                                  listeners gi) w)) as [result|e|].
    + by destruct Hrejected, (Hnone result).
    + by exists e.
    + done.
  - intros W env w gi r.
    pose proof (ends_executeTag env gi w) as Hends.
    split; [done|]. split; [by apply ends_without_failure|].
    apply escapes_executeTag.
  - intros W env w preparations options gi r.
    pose proof (ends_executeDockerBuild env preparations options gi w) as Hends.
    split; [done|]. split; [by apply ends_without_failure|].
    apply escapes_executeDockerBuild.
Qed.

Lemma steps_return_unless_collaborator_fails_witness :
  (exists result,
     outcome (run (scriptedEnv nominal) (Tagging.executeTag sampleInvocation) tt)
       = Resolved result) /\
  (exists result,
     outcome (run (scriptedEnv nominal)
                (Docker.executeDockerBuild ["npm-install"] dockerHub sampleInvocation) tt)
       = Resolved result) /\
  outcome (run (scriptedEnv missingDocker)
             (Docker.executeDockerBuild ["npm-install"] dockerHub sampleInvocation) tt)
    = Rejected (mkError "spawn docker ENOENT").
Proof.
  destruct steps_return_unless_collaborator_fails as (_ & Htag & Hdocker).
  split; [|split].
  - apply (Htag unit (scriptedEnv nominal) tt sampleInvocation). reflexivity.
  - apply (Hdocker unit (scriptedEnv nominal) tt ["npm-install"] dockerHub
             sampleInvocation).
    reflexivity.
  - apply (Hdocker unit (scriptedEnv missingDocker) tt ["npm-install"] dockerHub
             sampleInvocation).
    vm_compute. apply list_elem_of_here.
Defined.
